(** * Streaming ingestion pipeline and synthetic event producer

    A shallow embedding of [src/data_generator.py] (the rate-controlled
    event producer) and [src/spark_streaming_to_postgres.py] (the
    micro-batch validation / deduplication / sink-writing job), followed
    by the properties established for them.

    Conventions of the embedding
    - Python [int] values are [Z]; [range(n)] has [Z.to_nat n] elements.
    - Wall-clock readings ([time.time()]) are exact rationals [Q].
    - The floats of the price and weight computations are IEEE binary64
      numbers; a finite float is the rational it denotes, and every float
      operation rounds its exact result to the nearest float, ties to
      even ([fl]).
    - Everything the program obtains from outside (clock readings, the
      shutdown flag set by the signal handler, random draws, the outcome
      of a JDBC call) is read from an explicit environment, so that every
      statement below quantifies over all behaviours of that environment.
    - What the Spark engine decides and the job does not control is a
      parameter as well: the timestamp parser (a text may parse, fail to
      match, or make the parser raise), whether the right operand of a
      conjunction is evaluated once the left one is false, and the order
      in which an aggregation meets the rows of a batch.
    - Of the log output only the ERROR records of the streaming job are
      kept; the figures computed for log lines alone (rates, timings of
      the job) are left out, and the producer's file writes are taken to
      succeed. *)

From Stdlib Require Import ZArith QArith Qround Qabs Qpower List String Ascii Bool Arith.
From Stdlib Require Import Lia Lqa Permutation.
From Stdlib Require Import DecimalString DecimalZ.
Import ListNotations.

Local Close Scope Q_scope.
Local Open Scope string_scope.
Local Open Scope list_scope.

(* ===================================================================== *)
(** * Effects                                                            *)
(* ===================================================================== *)

(** A computation reads an environment [E], updates a world [W] and
    either returns a value or lets an exception (with its message)
    escape. *)
Inductive Result (A : Type) : Type :=
| Ok (a : A)
| Exn (msg : string).
Arguments Ok {A} a.
Arguments Exn {A} msg.

Definition M (E W A : Type) : Type := E -> W -> Result A * W.

Definition ret {E W A : Type} (a : A) : M E W A := fun _ w => (Ok a, w).

Definition bind {E W A B : Type} (m : M E W A) (k : A -> M E W B) : M E W B :=
  fun env w =>
    match m env w with
    | (Ok a, w') => k a env w'
    | (Exn msg, w') => (Exn msg, w')
    end.

Definition raise {E W A : Type} (msg : string) : M E W A :=
  fun _ w => (Exn msg, w).

(** [try: m  except Exception as e: handler(str(e))] *)
Definition try_except {E W A : Type} (m : M E W A) (handler : string -> M E W A)
  : M E W A :=
  fun env w =>
    match m env w with
    | (Ok a, w') => (Ok a, w')
    | (Exn msg, w') => handler msg env w'
    end.

Declare Scope effect_scope.
Delimit Scope effect_scope with effect.
Notation "x <- m ;; k" := (bind m (fun x => k))
  (at level 100, m at next level, right associativity) : effect_scope.
Notation "m ;;; k" := (bind m (fun _ => k))
  (at level 100, right associativity) : effect_scope.
Local Open Scope effect_scope.

(** [range(a, b)] *)
Definition py_range (a b : Z) : list Z :=
  map (fun i => (a + Z.of_nat i)%Z) (seq 0 (Z.to_nat (b - a))).

(* ===================================================================== *)
(** * Part I: data_generator.py                                          *)
(* ===================================================================== *)

(** ** Floats

    Python's [float] is IEEE binary64: 53 significant bits.  The numbers
    of this program stay far from the overflow and underflow thresholds,
    so only the rounding of the significand is modelled. *)

(** Round half to even, to an integer. *)
Definition round_half_even (q : Q) : Z :=
  let n := Qnum q in
  let d := Zpos (Qden q) in
  let f := (n / d)%Z in
  match (2 * (n mod d) ?= d)%Z with
  | Lt => f
  | Gt => (f + 1)%Z
  | Eq => if Z.even f then f else (f + 1)%Z
  end.

(** The binade of a positive number [q]: the [e] with
    [2 ^ e <= q < 2 ^ (e + 1)]. *)
Definition binade (q : Q) : Z :=
  let e := (Z.log2 (Qnum q) - Z.log2 (Zpos (Qden q)))%Z in
  if Qle_bool (2 ^ e) q then e else (e - 1)%Z.

(** The float nearest to [q], ties to even: the value of a float literal
    and the result of a float operation whose exact result is [q]. *)
Definition fl (q : Q) : Q :=
  if Qle_bool q 0 then
    if Qle_bool 0 q then 0%Q
    else
      let ulp := (2 ^ (binade (- q) - 52))%Q in
      (- (inject_Z (round_half_even (- q / ulp)) * ulp))%Q
  else
    let ulp := (2 ^ (binade q - 52))%Q in
    (inject_Z (round_half_even (q / ulp)) * ulp)%Q.

Arguments fl : simpl never.

(** ** Configuration tables *)

(** [EVENT_TYPES]: a dict literal; iteration follows insertion order. *)
Definition EVENT_TYPES : list (string * Q) :=
  [ ("view", fl 0.6); ("add_to_cart", fl 0.3); ("purchase", fl 0.1) ].

(** One catalog entry: [(product_name, min_price, max_price)]. *)
Definition Product : Type := (string * Q * Q)%type.

(** [CATEGORIES]: category name to its products, in insertion order. *)
Definition CATEGORIES : list (string * list Product) :=
  [ ("Electronics",
      [ ("Wireless Headphones", fl 79.99, fl 149.99);
        ("Smartphone Case", fl 15.99, fl 45.99);
        ("USB-C Cable", fl 9.99, fl 24.99);
        ("Portable Charger", fl 29.99, fl 79.99);
        ("Bluetooth Speaker", fl 39.99, fl 199.99);
        ("Laptop Stand", fl 25.99, fl 89.99);
        ("Webcam HD", fl 49.99, fl 129.99);
        ("Wireless Mouse", fl 19.99, fl 79.99) ]);
    ("Clothing",
      [ ("Cotton T-Shirt", fl 14.99, fl 34.99);
        ("Denim Jeans", fl 39.99, fl 89.99);
        ("Running Shoes", fl 59.99, fl 149.99);
        ("Winter Jacket", fl 79.99, fl 199.99);
        ("Baseball Cap", fl 12.99, fl 29.99);
        ("Wool Sweater", fl 45.99, fl 99.99) ]);
    ("Home & Garden",
      [ ("LED Desk Lamp", fl 24.99, fl 59.99);
        ("Plant Pot Set", fl 19.99, fl 49.99);
        ("Throw Blanket", fl 29.99, fl 79.99);
        ("Wall Clock", fl 15.99, fl 45.99);
        ("Coffee Maker", fl 49.99, fl 149.99) ]);
    ("Books",
      [ ("Programming Python", fl 29.99, fl 49.99);
        ("Data Science Handbook", fl 34.99, fl 54.99);
        ("Mystery Novel", fl 9.99, fl 19.99);
        ("Self-Help Guide", fl 14.99, fl 24.99);
        ("Cooking Recipe Book", fl 19.99, fl 39.99) ]);
    ("Sports",
      [ ("Yoga Mat", fl 19.99, fl 49.99);
        ("Dumbbell Set", fl 39.99, fl 129.99);
        ("Basketball", fl 19.99, fl 39.99);
        ("Tennis Racket", fl 49.99, fl 149.99);
        ("Fitness Tracker", fl 49.99, fl 199.99) ]) ].

(** ** The random source

    One event consumes six draws.  [random.random()] yields a number in
    [0, 1); [random.choice(seq)] indexes [seq] with a draw below
    [len(seq)], obtained here by reducing an arbitrary natural number. *)
Record Draws : Type := mkDraws {
  d_category : nat;      (* random.choice(list(CATEGORIES.keys())) *)
  d_product  : nat;      (* random.choice(CATEGORIES[category])    *)
  d_uniform  : Q;        (* random.random() inside random.uniform  *)
  d_rand     : Q;        (* random.random() in select_event_type   *)
  d_event_id : string;   (* str(uuid.uuid4())                      *)
  d_user     : string;   (* uuid hex, first 8 characters           *)
  d_prod     : string;   (* uuid hex, first 8 characters           *)
  d_now      : string    (* datetime.now().strftime(...)           *)
}.

(** [random.choice]: raises IndexError on an empty sequence ([None]). *)
Definition random_choice {A : Type} (seq : list A) (draw : nat) : option A :=
  match seq with
  | [] => None
  | _ :: _ => nth_error seq (draw mod List.length seq)
  end.

(** [random.uniform(a, b)] is [a + (b - a) * random()], in floats. *)
Definition random_uniform (a b u : Q) : Q := fl (a + fl (fl (b - a) * u)).

(** [round(x, 2)]: the exact value of [x] is rounded half to even to a
    whole number of hundredths, and the float nearest to that decimal is
    returned. *)
Definition py_round2 (x : Q) : Q :=
  fl (inject_Z (round_half_even (x * 100)) / 100).

(** ** Event generation *)

Definition generate_user_id (d : Draws) : string := ("user_" ++ d_user d)%string.
Definition generate_product_id (d : Draws) : string := ("prod_" ++ d_prod d)%string.

(** The loop of [select_event_type] over [EVENT_TYPES.items()]. *)
Fixpoint select_event_type_loop (items : list (string * Q)) (cumulative rand : Q)
  : string :=
  match items with
  | [] => "view"  (* Default fallback *)
  | (event_type, probability) :: rest =>
      let cumulative := fl (cumulative + probability) in
      if Qle_bool rand cumulative then event_type
      else select_event_type_loop rest cumulative rand
  end.

Definition select_event_type (rand : Q) : string :=
  select_event_type_loop EVENT_TYPES 0%Q rand.

(** [select_product]: returns [(category, product_name, price)]. *)
Definition select_product (d : Draws) : option (string * string * Q) :=
  match random_choice (map fst CATEGORIES) (d_category d) with
  | None => None
  | Some category =>
      match find (fun kv => String.eqb (fst kv) category) CATEGORIES with
      | None => None
      | Some (_, products) =>
          match random_choice products (d_product d) with
          | None => None
          | Some (product_name, min_price, max_price) =>
              let price := py_round2 (random_uniform min_price max_price (d_uniform d)) in
              Some (category, product_name, price)
          end
      end
  end.

Record Event : Type := mkEvent {
  event_id     : string;
  user_id      : string;
  product_id   : string;
  product_name : string;
  category     : string;
  price        : Q;
  event_type   : string;
  timestamp    : string
}.

Definition generate_event (d : Draws) : option Event :=
  match select_product d with
  | None => None
  | Some (category, product_name, price) =>
      Some {| event_id := d_event_id d;
              user_id := generate_user_id d;
              product_id := generate_product_id d;
              product_name := product_name;
              category := category;
              price := price;
              event_type := select_event_type (d_rand d);
              timestamp := d_now d |}
  end.

(** [write_events_to_csv]: the column order of the batch file. *)
Definition fieldnames : list string :=
  [ "event_id"; "user_id"; "product_id"; "product_name";
    "category"; "price"; "event_type"; "timestamp" ].

(** ** The producer's world

    [Env] is what the outside supplies, indexed by how often it was asked;
    [World] counts the questions asked so far and records what the
    producer did. *)
Record Env : Type := mkEnv {
  clock              : nat -> Q;       (* n-th reading of time.time()          *)
  shutdown_requested : nat -> bool;    (* n-th read of the global flag         *)
  entropy            : nat -> Draws;   (* draws of the n-th generated event    *)
  file_stamp         : nat -> string   (* datetime.now() stamp of the n-th file *)
}.

Inductive Effect : Type :=
| Slept (seconds : Q)
| WroteCsv (filepath : string) (header : list string) (rows : list Event).

Record World : Type := mkWorld {
  ticks   : nat;           (* calls of time.time() so far          *)
  polls   : nat;           (* reads of shutdown_requested so far   *)
  drawn   : nat;           (* events generated so far              *)
  files   : nat;           (* batch files written so far           *)
  effects : list Effect    (* sleeps and file writes, oldest first *)
}.

(** Producer computations. *)
Definition GM (A : Type) : Type := M Env World A.

Definition time_time : GM Q := fun env w =>
  (Ok (clock env (ticks w)),
   mkWorld (S (ticks w)) (polls w) (drawn w) (files w) (effects w)).

Definition time_sleep (seconds : Q) : GM unit := fun _ w =>
  (Ok tt,
   mkWorld (ticks w) (polls w) (drawn w) (files w) (effects w ++ [Slept seconds])).

Definition read_shutdown_requested : GM bool := fun env w =>
  (Ok (shutdown_requested env (polls w)),
   mkWorld (ticks w) (S (polls w)) (drawn w) (files w) (effects w)).

Definition next_draws : GM Draws := fun env w =>
  (Ok (entropy env (drawn w)),
   mkWorld (ticks w) (polls w) (S (drawn w)) (files w) (effects w)).

(** [write_events_to_csv(events, output_dir)]: header, then the rows. *)
Definition write_events_to_csv (events : list Event) (output_dir : string)
  : GM string := fun env w =>
  let filename := ("events_" ++ file_stamp env (files w) ++ ".csv")%string in
  let filepath := (output_dir ++ "/" ++ filename)%string in
  (Ok filepath,
   mkWorld (ticks w) (polls w) (drawn w) (S (files w))
           (effects w ++ [WroteCsv filepath fieldnames events])).

(** ** Rate limiting *)

Record RateLimiter : Type := mkRateLimiter {
  events_per_second  : Z;
  interval           : Q;
  last_event_time    : Q;
  events_this_second : Z;
  second_start       : Q
}.

(** [RateLimiter.__init__] *)
Definition RateLimiter_init (events_per_second : Z) : GM RateLimiter :=
  let interval :=
    if (0 <? events_per_second)%Z then (1 / inject_Z events_per_second)%Q else 1%Q in
  last_event_time <- time_time ;;
  second_start <- time_time ;;
  ret (mkRateLimiter events_per_second interval last_event_time 0 second_start).

(** [RateLimiter.wait] *)
Definition wait (self : RateLimiter) : GM RateLimiter :=
  current_time <- time_time ;;
  (* Reset counter every second *)
  let self1 :=
    if Qle_bool 1 (current_time - second_start self)
    then mkRateLimiter (events_per_second self) (interval self)
                       (last_event_time self) 0 current_time
    else self in
  (* If we've hit the rate limit, wait until next second *)
  self2 <-
    (if (events_per_second self1 <=? events_this_second self1)%Z
     then
       let sleep_time := (1 - (current_time - second_start self1))%Q in
       (if negb (Qle_bool sleep_time 0) then time_sleep sleep_time else ret tt) ;;;
       now <- time_time ;;
       ret (mkRateLimiter (events_per_second self1) (interval self1)
                          (last_event_time self1) 0 now)
     else ret self1) ;;
  ret (mkRateLimiter (events_per_second self2) (interval self2)
                     (last_event_time self2) (events_this_second self2 + 1)
                     (second_start self2)).

(** ** The generator loop *)

Definition generate_event_m : GM Event :=
  d <- next_draws ;;
  match generate_event d with
  | Some e => ret e
  | None => raise "IndexError"
  end.

(** [generate_batch]: the list comprehension over [range(batch_size)];
    [n] events remain to be generated. *)
Fixpoint generate_batch_loop (n : nat) : GM (list Event) :=
  match n with
  | O => ret []
  | S n' =>
      e <- generate_event_m ;;
      rest <- generate_batch_loop n' ;;
      ret (e :: rest)
  end.

Definition generate_batch (batch_size : Z) : GM (list Event) :=
  generate_batch_loop (Z.to_nat batch_size).

(** The [for _ in range(batch_size)] loop: [n] iterations remain. *)
Fixpoint fill_batch (n : nat) (rate_limiter : RateLimiter) (events : list Event)
  : GM (RateLimiter * list Event) :=
  match n with
  | O => ret (rate_limiter, events)
  | S n' =>
      stop <- read_shutdown_requested ;;
      if stop then ret (rate_limiter, events)
      else
        rate_limiter' <- wait rate_limiter ;;
        e <- generate_event_m ;;
        fill_batch n' rate_limiter' (events ++ [e])
  end.

Record Counters : Type := mkCounters {
  total_events : Z;
  total_files  : Z
}.

Inductive Status : Type :=
| Stopped     (* the while loop was left *)
| Running.    (* the iteration budget of the model ran out first *)

(** The [while not shutdown_requested] loop, for at most [fuel] iterations. *)
Fixpoint generator_loop (fuel : nat) (batch_size : Z) (duration : option Z)
    (output_dir : string) (start_time : Q)
    (rate_limiter : RateLimiter) (c : Counters)
  : GM (Status * Counters) :=
  match fuel with
  | O => ret (Running, c)
  | S fuel' =>
      stop <- read_shutdown_requested ;;
      if stop then ret (Stopped, c)
      else
        (* Check duration limit *)
        expired <-
          match duration with
          | None => ret false
          | Some d =>
              now <- time_time ;;
              ret (Qle_bool (inject_Z d) (now - start_time))
          end ;;
        if expired then ret (Stopped, c)
        else
          (* Generate batch of events *)
          batch_start <- time_time ;;
          filled <- fill_batch (Z.to_nat batch_size) rate_limiter [] ;;
          let (rate_limiter', events) := filled in
          (* Write to file *)
          c' <-
            match events with
            | [] => ret c
            | _ :: _ =>
                filepath <- write_events_to_csv events output_dir ;;
                now <- time_time ;;
                ret (mkCounters (total_events c + Z.of_nat (List.length events))
                                (total_files c + 1))
            end ;;
          generator_loop fuel' batch_size duration output_dir start_time
                         rate_limiter' c'
  end.

(** [run_generator], with the output directory already resolved.  The
    [finally] block reads the clock once more for the summary. *)
Definition run_generator (fuel : nat) (events_per_second batch_size : Z)
    (duration : option Z) (output_dir : string) : GM (Status * Counters) :=
  rate_limiter <- RateLimiter_init events_per_second ;;
  start_time <- time_time ;;
  fun env w =>
    match generator_loop fuel batch_size duration output_dir start_time
                         rate_limiter (mkCounters 0 0) env w with
    | (r, w') => (r, snd (time_time env w'))
    end.

(* ===================================================================== *)
(** * Part II: spark_streaming_to_postgres.py                            *)
(* ===================================================================== *)

(** ** Strings *)

Definition is_space (c : ascii) : bool := Ascii.eqb c " "%char.

Fixpoint ltrim (s : string) : string :=
  match s with
  | EmptyString => EmptyString
  | String c rest => if is_space c then ltrim rest else s
  end.

Fixpoint rtrim (s : string) : string :=
  match s with
  | EmptyString => EmptyString
  | String c rest =>
      match rtrim rest with
      | EmptyString => if is_space c then EmptyString else String c EmptyString
      | rest' => String c rest'
      end
  end.

(** Spark's [trim]: the space characters at both ends are removed. *)
Definition trim_string (s : string) : string := rtrim (ltrim s).

Definition lower_ascii (c : ascii) : ascii :=
  let n := nat_of_ascii c in
  if ((65 <=? n) && (n <=? 90))%nat then ascii_of_nat (n + 32) else c.

(** [lower] / [str.lower], on ASCII text. *)
Fixpoint lower_string (s : string) : string :=
  match s with
  | EmptyString => EmptyString
  | String c rest => String (lower_ascii c) (lower_string rest)
  end.

(** [needle in haystack] *)
Fixpoint contains (needle haystack : string) : bool :=
  if String.prefix needle haystack then true
  else match haystack with
       | EmptyString => false
       | String _ rest => contains needle rest
       end.

(** [str(n)] for an int. *)
Definition str_of_int (n : Z) : string := NilZero.string_of_int (Z.to_int n).

(** ** A model of the DataFrame operations the job uses

    A row lists its columns in order, each with its cell; a DataFrame is
    the list of its rows.  DataFrames are lazy: a cell may stand for an
    expression whose evaluation raises ([Raised]), and the exception
    surfaces in the action that evaluates the cell. *)

Record Instant : Type := mkInstant {
  i_year : nat; i_month : nat; i_day : nat;
  i_hour : nat; i_minute : nat; i_second : nat
}.

(** A DoubleType value, as the CSV reader yields it. *)
Inductive Double : Type :=
| Finite (x : Q)
| PosInf
| NegInf
| NaN.

Inductive Cell : Type :=
| Null
| Str (s : string)
| Dbl (d : Double)
| Ts (t : Instant)
| Flag (b : bool)
| Raised (msg : string).   (* evaluating the cell raises an exception *)

Definition Row : Type := list (string * Cell).
Definition DataFrame : Type := list Row.

(** A column expression, evaluated row by row. *)
Definition Column : Type := Row -> Cell.

(** [col(name)].  Every row the job sees carries the columns of
    [get_event_schema], so the name always resolves. *)
Definition col (name : string) : Column := fun r =>
  match find (fun kv => String.eqb (fst kv) name) r with
  | Some (_, c) => c
  | None => Null
  end.

(** [trim(c)], used on the StringType columns. *)
Definition trim_cell (v : Cell) : Cell :=
  match v with
  | Str s => Str (trim_string s)
  | _ => v
  end.

Definition trim (c : Column) : Column := fun r => trim_cell (c r).

(** [lower(c)], used on a StringType column. *)
Definition lower_cell (v : Cell) : Cell :=
  match v with
  | Str s => Str (lower_string s)
  | _ => v
  end.

Definition lower (c : Column) : Column := fun r => lower_cell (c r).

(** [c.isNotNull()] never yields null. *)
Definition not_null (v : Cell) : Cell :=
  match v with
  | Null => Flag false
  | Raised msg => Raised msg
  | _ => Flag true
  end.

Definition isNotNull (c : Column) : Column := fun r => not_null (c r).

(** [c.isin(values)] for non-null string literals: null on a null cell. *)
Definition isin_cell (values : list string) (v : Cell) : Cell :=
  match v with
  | Str s => Flag (existsb (String.eqb s) values)
  | Raised msg => Raised msg
  | _ => Null
  end.

Definition isin (c : Column) (values : list string) : Column :=
  fun r => isin_cell values (c r).

(** Spark SQL's ordering of doubles: NaN is larger than every other
    value, positive infinity included. *)
Definition double_gt (a b : Double) : bool :=
  match a, b with
  | _, NaN => false
  | NaN, _ => true
  | _, PosInf => false
  | PosInf, _ => true
  | NegInf, _ => false
  | Finite _, NegInf => true
  | Finite x, Finite y => negb (Qle_bool x y)
  end.

(** [c > lit] on a DoubleType column: null on a null cell. *)
Definition gt_cell (lit : Q) (v : Cell) : Cell :=
  match v with
  | Dbl d => Flag (double_gt d (Finite lit))
  | Raised msg => Raised msg
  | _ => Null
  end.

Definition gt (c : Column) (lit : Q) : Column := fun r => gt_cell lit (c r).

(** [a & b]: SQL conjunction; false wins over null.  An operand that
    raises makes the conjunction raise, except that the engine may leave
    the right operand unevaluated when the left one is false ([skips]). *)
Definition and_cell (skips : bool) (a b : Cell) : Cell :=
  match a, b with
  | Raised msg, _ => Raised msg
  | Flag false, Raised msg => if skips then Flag false else Raised msg
  | _, Raised msg => Raised msg
  | Flag false, _ => Flag false
  | _, Flag false => Flag false
  | Flag true, Flag true => Flag true
  | _, _ => Null
  end.

(** [skips_operand r] tells whether, on row [r], the engine skips the
    right operand of a conjunction whose left operand is false. *)
Definition and_ (skips_operand : Row -> bool) (a b : Column) : Column :=
  fun r => and_cell (skips_operand r) (a r) (b r).

(** [c == lit] for a boolean literal: null on a null cell. *)
Definition eq_flag_cell (lit : bool) (v : Cell) : Cell :=
  match v with
  | Flag b => Flag (Bool.eqb b lit)
  | Raised msg => Raised msg
  | _ => Null
  end.

Definition eq_flag (c : Column) (lit : bool) : Column :=
  fun r => eq_flag_cell lit (c r).

Fixpoint set_cell (name : string) (v : Cell) (r : Row) : Row :=
  match r with
  | [] => [(name, v)]
  | (n, c) :: rest =>
      if String.eqb n name then (n, v) :: rest
      else (n, c) :: set_cell name v rest
  end.

(** [df.withColumn(name, c)]: replaces the column of that name where it
    stands, or appends a new last column. *)
Definition withColumn (name : string) (c : Column) (df : DataFrame) : DataFrame :=
  map (fun r => set_cell name (c r) r) df.

(** [df.filter(cond)] keeps the rows on which [cond] is true; rows on
    which it is false or null are left out.  When [cond] raises on a
    row, so does every action on the filtered DataFrame: see
    [column_error]. *)
Definition filter_rows (cond : Column) (df : DataFrame) : DataFrame :=
  filter (fun r => match cond r with Flag true => true | _ => false end) df.

(** The exception that evaluating the cells [cells] raises, if any. *)
Definition first_raised (cells : list Cell) : option string :=
  match find (fun v => match v with Raised _ => true | _ => false end) cells with
  | Some (Raised msg) => Some msg
  | _ => None
  end.

(** Evaluating the expression [c] on every row of [df]. *)
Definition column_error (c : Column) (df : DataFrame) : option string :=
  first_raised (map c df).

(** Evaluating every column of every row of [df]. *)
Definition frame_error (df : DataFrame) : option string :=
  first_raised (flat_map (map snd) df).

(** [df.drop(names...)] *)
Definition drop (names : list string) (df : DataFrame) : DataFrame :=
  map (filter (fun kv : string * Cell =>
                 negb (existsb (String.eqb (fst kv)) names))) df.

(** [df.select(names...)] *)
Definition select (names : list string) (df : DataFrame) : DataFrame :=
  map (fun r => map (fun n => (n, col n r)) names) df.

Definition instant_eqb (a b : Instant) : bool :=
  (i_year a =? i_year b)%nat && (i_month a =? i_month b)%nat &&
  (i_day a =? i_day b)%nat && (i_hour a =? i_hour b)%nat &&
  (i_minute a =? i_minute b)%nat && (i_second a =? i_second b)%nat.

Definition double_eqb (a b : Double) : bool :=
  match a, b with
  | Finite x, Finite y => Qeq_bool x y
  | PosInf, PosInf | NegInf, NegInf | NaN, NaN => true
  | _, _ => false
  end.

(** Equality of grouping keys: nulls fall into one group, and so do
    NaNs. *)
Definition cell_eqb (a b : Cell) : bool :=
  match a, b with
  | Null, Null => true
  | Str s, Str t => String.eqb s t
  | Dbl x, Dbl y => double_eqb x y
  | Ts s, Ts t => instant_eqb s t
  | Flag x, Flag y => Bool.eqb x y
  | Raised s, Raised t => String.eqb s t
  | _, _ => false
  end.

Definition same_key (subset : list string) (r1 r2 : Row) : bool :=
  forallb (fun n => cell_eqb (col n r1) (col n r2)) subset.

(** The order in which an aggregation of the engine meets the rows of
    [df]: it depends on partitioning and scheduling, not on the order of
    the input alone.  The engine's choice is given as a rank of the rows;
    rows of equal rank stay in input order. *)
Fixpoint insert_by (engine_rank : Row -> nat) (r : Row) (sorted : list Row)
  : list Row :=
  match sorted with
  | [] => [r]
  | s :: rest =>
      if (engine_rank r <=? engine_rank s)%nat then r :: sorted
      else s :: insert_by engine_rank r rest
  end.

Definition engine_order (engine_rank : Row -> nat) (df : DataFrame) : DataFrame :=
  fold_right (insert_by engine_rank) [] df.

(** Taking the first row of each group of rows that agree on [subset],
    in a given order; [seen] are the rows kept so far. *)
Fixpoint dropDuplicates_from (seen : list Row) (subset : list string)
    (df : DataFrame) : DataFrame :=
  match df with
  | [] => []
  | r :: rest =>
      if existsb (same_key subset r) seen
      then dropDuplicates_from seen subset rest
      else r :: dropDuplicates_from (r :: seen) subset rest
  end.

(** [df.dropDuplicates(subset)]: Spark groups the rows by [subset] and
    takes the [first] row of each group, in the order in which its
    aggregation meets them. *)
Definition dropDuplicates (engine_rank : Row -> nat) (subset : list string)
    (df : DataFrame) : DataFrame :=
  dropDuplicates_from [] subset (engine_order engine_rank df).

Definition isEmpty (df : DataFrame) : bool :=
  match df with [] => true | _ :: _ => false end.

Definition count (df : DataFrame) : Z := Z.of_nat (List.length df).

(** ** The input schema *)

(** One line of a batch file as read with [get_event_schema]: eight
    nullable fields, [price] a double, the others strings. *)
Record CsvRecord : Type := mkCsvRecord {
  raw_event_id     : option string;
  raw_user_id      : option string;
  raw_product_id   : option string;
  raw_product_name : option string;
  raw_category     : option string;
  raw_price        : option Double;
  raw_event_type   : option string;
  raw_timestamp    : option string
}.

Definition str_cell (o : option string) : Cell :=
  match o with Some s => Str s | None => Null end.

Definition dbl_cell (o : option Double) : Cell :=
  match o with Some d => Dbl d | None => Null end.

(** The field names of [get_event_schema], in order. *)
Definition get_event_schema : list string :=
  [ "event_id"; "user_id"; "product_id"; "product_name";
    "category"; "price"; "event_type"; "timestamp" ].

Definition row_of_record (e : CsvRecord) : Row :=
  [ ("event_id", str_cell (raw_event_id e));
    ("user_id", str_cell (raw_user_id e));
    ("product_id", str_cell (raw_product_id e));
    ("product_name", str_cell (raw_product_name e));
    ("category", str_cell (raw_category e));
    ("price", dbl_cell (raw_price e));
    ("event_type", str_cell (raw_event_type e));
    ("timestamp", str_cell (raw_timestamp e)) ].

(** The micro-batch handed to [foreachBatch]. *)
Definition read_batch (records : list CsvRecord) : DataFrame :=
  map row_of_record records.

(** ** From the producer's files to the job's batches

    [write_events_to_csv] writes one line per event under the header
    [fieldnames]; the stream of [start_streaming_job] reads the lines with
    that header and [get_event_schema].  A field comes back as it was
    written, an empty field as null. *)
Definition csv_field (s : string) : option string :=
  if String.eqb s "" then None else Some s.

Definition record_of_event (e : Event) : CsvRecord :=
  {| raw_event_id := csv_field (event_id e);
     raw_user_id := csv_field (user_id e);
     raw_product_id := csv_field (product_id e);
     raw_product_name := csv_field (product_name e);
     raw_category := csv_field (category e);
     raw_price := Some (Finite (price e));
     raw_event_type := csv_field (event_type e);
     raw_timestamp := csv_field (timestamp e) |}.

(** ** Config *)

Definition VALID_EVENT_TYPES : list string := [ "view"; "add_to_cart"; "purchase" ].
Definition MAX_RETRIES : Z := 3.
Definition RETRY_DELAY_SECONDS : Z := 5.

(** ** The job's world *)

Record JobEnv : Type := mkJobEnv {
  BASE_PATH         : string;               (* '/app' or the project root *)
  jdbc_save         : nat -> option string; (* n-th JDBC append: None, or the error text *)
  csv_save          : nat -> option string; (* n-th CSV write:   None, or the error text *)
  jdbc_load         : nat -> option string; (* n-th test query:  None, or the error text *)
  await_termination : option string         (* how the streaming query ends *)
}.

Inductive JobEffect : Type :=
| Sleep (seconds : Z)
| JdbcSave (dbtable : string) (df : DataFrame)
| CsvSave (path : string) (df : DataFrame)
| JdbcLoad (query : string)
| LogError (msg : string)
| StreamStart
| SparkStop.

Record JobWorld : Type := mkJobWorld {
  saves      : nat;            (* JDBC appends attempted so far *)
  csv_writes : nat;            (* CSV writes attempted so far   *)
  loads      : nat;            (* test queries attempted so far *)
  journal    : list JobEffect  (* what the job did, oldest first;
                                  of the log only the ERROR records *)
}.

(** Job computations. *)
Definition JM (A : Type) : Type := M JobEnv JobWorld A.

Definition emit (e : JobEffect) : JM unit := fun _ w =>
  (Ok tt, mkJobWorld (saves w) (csv_writes w) (loads w) (journal w ++ [e])).

Definition sleep (seconds : Z) : JM unit := emit (Sleep seconds).
Definition logger_error (msg : string) : JM unit := emit (LogError msg).

(** [df.write.format("jdbc")....mode("append").save()]: the rows the job
    hands to the sink are fully evaluated, so the outcome is the sink's. *)
Definition jdbc_append (dbtable : string) (df : DataFrame) : JM unit := fun env w =>
  let w' := mkJobWorld (S (saves w)) (csv_writes w) (loads w)
                       (journal w ++ [JdbcSave dbtable df]) in
  match jdbc_save env (saves w) with
  | None => (Ok tt, w')
  | Some msg => (Exn msg, w')
  end.

(** [df.write.mode("overwrite").option("header", "true").csv(path)]: the
    write evaluates every cell of [df], and fails if one of them raises. *)
Definition csv_overwrite (path : string) (df : DataFrame) : JM unit := fun env w =>
  let w' := mkJobWorld (saves w) (S (csv_writes w)) (loads w)
                       (journal w ++ [CsvSave path df]) in
  match frame_error df with
  | Some msg => (Exn msg, w')
  | None =>
      match csv_save env (csv_writes w) with
      | None => (Ok tt, w')
      | Some msg => (Exn msg, w')
      end
  end.

(** [df.count()] on a DataFrame whose evaluation raises [pending], if
    anything. *)
Definition run_count (pending : option string) (df : DataFrame) : JM Z :=
  match pending with
  | Some msg => raise msg
  | None => ret (count df)
  end.

(** [spark.read.format("jdbc")....load()] followed by [collect()] *)
Definition jdbc_query (query : string) : JM unit := fun env w =>
  let w' := mkJobWorld (saves w) (csv_writes w) (S (loads w))
                       (journal w ++ [JdbcLoad query]) in
  match jdbc_load env (loads w) with
  | None => (Ok tt, w')
  | Some msg => (Exn msg, w')
  end.

Definition ERROR_PATH : JM string := fun env w =>
  (Ok (BASE_PATH env ++ "/data/error")%string, w).

(** [try: m  finally: f] *)
Definition try_finally {A : Type} (m : JM A) (f : JM unit) : JM A := fun env w =>
  match m env w with
  | (r, w') =>
      match f env w' with
      | (Ok _, w'') => (r, w'')
      | (Exn msg, w'') => (Exn msg, w'')
      end
  end.

(** ** Data transformations *)

(** What the timestamp parser of the engine makes of a text. *)
Inductive Parse : Type :=
| Parsed (t : Instant)
| Unparsable                  (* the text does not match the pattern        *)
| ParserRaises (msg : string).
    (* only the parser of Spark 2 accepts the text: under the default
       spark.sql.legacy.timeParserPolicy a SparkUpgradeException *)

Section Transformations.

(** The engine: its timestamp parser (the text, the pattern), where it
    skips the right operand of a conjunction, and the order in which its
    aggregation meets rows. *)
Variable parse_timestamp : string -> string -> Parse.
Variable skips_operand : Row -> bool.
Variable engine_rank : Row -> nat.

(** [to_timestamp(c, fmt)]: null on null input and on a text that does
    not match; raises where the parser does. *)
Definition parse_cell (fmt : string) (v : Cell) : Cell :=
  match v with
  | Str s => match parse_timestamp s fmt with
             | Parsed t => Ts t
             | Unparsable => Null
             | ParserRaises msg => Raised msg
             end
  | Raised msg => Raised msg
  | _ => Null
  end.

Definition to_timestamp (c : Column) (fmt : string) : Column :=
  fun r => parse_cell fmt (c r).

(** The [is_valid] expression of [clean_and_validate_data]. *)
Definition is_valid_expr : Column :=
  let and_ := and_ skips_operand in
  and_ (and_ (and_ (and_ (and_
    (isNotNull (col "event_id"))
    (isNotNull (col "user_id")))
    (isNotNull (col "product_id")))
    (isin (col "event_type") VALID_EVENT_TYPES))
    (gt (col "price") 0))
    (isNotNull (col "event_timestamp")).

(** The [validated_df] of [clean_and_validate_data]. *)
Definition validated_df (df : DataFrame) : DataFrame :=
  (* Trim whitespace from string columns *)
  let cleaned_df :=
    fold_left (fun cleaned_df col_name =>
                 withColumn col_name (trim (col col_name)) cleaned_df)
              [ "event_id"; "user_id"; "product_id";
                "product_name"; "category"; "event_type" ]
              df in
  (* Normalize event_type to lowercase *)
  let cleaned_df := withColumn "event_type" (lower (col "event_type")) cleaned_df in
  (* Parse timestamp string to timestamp type *)
  let cleaned_df :=
    withColumn "event_timestamp"
               (to_timestamp (col "timestamp") "yyyy-MM-dd HH:mm:ss") cleaned_df in
  (* Add validation flags *)
  withColumn "is_valid" is_valid_expr cleaned_df.

(** [clean_and_validate_data]: returns [(valid_df, invalid_df)]. *)
Definition clean_and_validate_data (df : DataFrame) : DataFrame * DataFrame :=
  let validated_df := validated_df df in
  (* Split into valid and invalid records *)
  let valid_df :=
    drop [ "is_valid"; "timestamp" ]
         (filter_rows (eq_flag (col "is_valid") true) validated_df) in
  let invalid_df :=
    drop [ "is_valid" ]
         (filter_rows (eq_flag (col "is_valid") false) validated_df) in
  (valid_df, invalid_df).

(** An action on [valid_df] or on [invalid_df] runs the filter on
    [is_valid] over all rows of [validated_df]: it fails with the
    exception that computing the flag raises, if it does on some row. *)
Definition validation_error (df : DataFrame) : option string :=
  column_error (col "is_valid") (validated_df df).

(** [deduplicate_events] *)
Definition deduplicate_events (df : DataFrame) : DataFrame :=
  dropDuplicates engine_rank [ "event_id" ] df.

(** [prepare_for_postgres] *)
Definition prepare_for_postgres (df : DataFrame) : DataFrame :=
  select [ "event_id"; "user_id"; "product_id"; "product_name";
           "category"; "price"; "event_type"; "event_timestamp" ] df.

(** ** Database operations *)

(** [write_errors]: best effort, a failure is only logged as a warning. *)
Definition write_errors (invalid_df : DataFrame) (batch_id : Z) : JM unit :=
  try_except
    (dir <- ERROR_PATH ;;
     let error_path := (dir ++ "/batch_" ++ str_of_int batch_id)%string in
     csv_overwrite error_path invalid_df)
    (fun _ => ret tt).

(** The retry loop of [write_to_postgres_with_retry]; [attempts] are the
    values of [attempt] still to come. *)
Fixpoint write_attempts (attempts : list Z) (final_df : DataFrame) (batch_id : Z)
  : JM unit :=
  match attempts with
  | [] => ret tt
  | attempt :: rest =>
      try_except
        (jdbc_append "user_events" final_df)
        (fun error_msg =>
           (* Check if it's a duplicate key error (expected, not an error) *)
           if contains "duplicate key" (lower_string error_msg) then ret tt
           else if (attempt <? MAX_RETRIES)%Z then
             sleep RETRY_DELAY_SECONDS ;;;
             write_attempts rest final_df batch_id
           else
             logger_error ("Batch " ++ str_of_int batch_id
                           ++ ": All retry attempts failed!")%string ;;;
             raise error_msg)
  end.

(** [write_to_postgres_with_retry], the [foreachBatch] callback. *)
Definition write_to_postgres_with_retry (batch_df : DataFrame) (batch_id : Z)
  : JM unit :=
  if isEmpty batch_df then ret tt
  else
    (* Clean and validate *)
    let (valid_df, invalid_df) := clean_and_validate_data batch_df in
    valid_count <- run_count (validation_error batch_df) valid_df ;;
    invalid_count <- run_count (validation_error batch_df) invalid_df ;;
    (* Handle invalid records (write to error folder) *)
    (if (0 <? invalid_count)%Z then write_errors invalid_df batch_id else ret tt) ;;;
    if (valid_count =? 0)%Z then ret tt
    else
      (* Deduplicate and prepare *)
      let deduped_df := deduplicate_events valid_df in
      let final_df := prepare_for_postgres deduped_df in
      (* Write to PostgreSQL with retry *)
      write_attempts (py_range 1 (MAX_RETRIES + 1)) final_df batch_id.

End Transformations.

(** ** Health check and entry point *)

(** [test_postgres_connection] *)
Definition test_postgres_connection : JM bool :=
  try_except
    (jdbc_query "SELECT 1 as test" ;;; ret true)
    (fun e => logger_error ("PostgreSQL connection failed: " ++ e)%string ;;;
              ret false).

(** The polling loop of [wait_for_postgres]. *)
Fixpoint poll_postgres (attempts : list Z) (delay : Z) : JM bool :=
  match attempts with
  | [] =>
      logger_error "PostgreSQL did not become available in time!" ;;;
      ret false
  | attempt :: rest =>
      ready <- test_postgres_connection ;;
      if ready then ret true
      else sleep delay ;;; poll_postgres rest delay
  end.

(** [wait_for_postgres(spark, max_retries, delay)] *)
Definition wait_for_postgres (max_retries delay : Z) : JM bool :=
  poll_postgres (py_range 1 (max_retries + 1)) delay.

(** [start_streaming_job]: hands the callback to the engine and blocks
    until the query terminates. *)
Definition start_streaming_job : JM unit := fun env w =>
  match emit StreamStart env w with
  | (_, w') =>
      match await_termination env with
      | None => (Ok tt, w')
      | Some msg => (Exn msg, w')
      end
  end.

(** [main], with the defaults [max_retries=30, delay=5] of
    [wait_for_postgres]. *)
Definition main : JM unit :=
  try_finally
    (try_except
       (ready <- wait_for_postgres 30 5 ;;
        if negb ready then
          logger_error "Cannot start streaming job - PostgreSQL unavailable" ;;;
          ret tt
        else start_streaming_job)
       (fun e => logger_error ("Streaming job failed: " ++ e)%string ;;;
                 raise e))
    (emit SparkStop).

(** ** A reference timestamp parser

    A strict reading of the pattern [yyyy-MM-dd HH:mm:ss], used to run
    the transformations on concrete batches.  A text that only a lenient
    reading accepts (fields of other widths, trailing characters) makes
    the parser raise, as the engine does under its default policy. *)

Definition digit_of (c : ascii) : option nat :=
  let n := nat_of_ascii c in
  if ((48 <=? n) && (n <=? 57))%nat then Some (n - 48)%nat else None.

Fixpoint number_of (cs : list ascii) (acc : nat) : option nat :=
  match cs with
  | [] => Some acc
  | c :: rest =>
      match digit_of c with
      | Some d => number_of rest (10 * acc + d)%nat
      | None => None
      end
  end.

Definition is_leap (y : nat) : bool :=
  ((y mod 4 =? 0) && (negb (y mod 100 =? 0) || (y mod 400 =? 0)))%nat.

Definition days_in_month (y m : nat) : nat :=
  match m with
  | 1 | 3 | 5 | 7 | 8 | 10 | 12 => 31
  | 4 | 6 | 9 | 11 => 30
  | 2 => if is_leap y then 29 else 28
  | _ => 0
  end.

Definition instant_of (y m d h n c : nat) : option Instant :=
  if ((1 <=? d) && (d <=? days_in_month y m)
      && (h <? 24) && (n <? 60) && (c <? 60))%nat
  then Some (mkInstant y m d h n c)
  else None.

Definition strict_instant (text : string) : option Instant :=
  match list_ascii_of_string text with
  | [y1; y2; y3; y4; s1; m1; m2; s2; d1; d2; s3; h1; h2; s4; n1; n2; s5; c1; c2] =>
      if negb (Ascii.eqb s1 "-" && Ascii.eqb s2 "-" && Ascii.eqb s3 " "
               && Ascii.eqb s4 ":" && Ascii.eqb s5 ":")
      then None
      else
        match number_of [y1; y2; y3; y4] 0, number_of [m1; m2] 0,
              number_of [d1; d2] 0, number_of [h1; h2] 0,
              number_of [n1; n2] 0, number_of [c1; c2] 0 with
        | Some y, Some m, Some d, Some h, Some n, Some c => instant_of y m d h n c
        | _, _, _, _, _, _ => None
        end
  | _ => None
  end.

(** A run of digits at the head of [cs]: its value, and what follows. *)
Fixpoint leading_number (cs : list ascii) (acc : option nat)
  : option nat * list ascii :=
  match cs with
  | [] => (acc, [])
  | c :: rest =>
      match digit_of c with
      | Some d =>
          leading_number rest
            (Some (10 * match acc with Some a => a | None => 0 end + d)%nat)
      | None => (acc, cs)
      end
  end.

(** The lenient reading: six numbers of any width with the separators of
    the pattern between them; what follows the seconds is ignored. *)
Definition lenient_instant (text : string) : option Instant :=
  let field (sep : option ascii) (cs : list ascii) : option (nat * list ascii) :=
    match leading_number cs None with
    | (Some v, rest) =>
        match sep, rest with
        | None, _ => Some (v, rest)
        | Some a, b :: rest' => if Ascii.eqb a b then Some (v, rest') else None
        | Some _, [] => None
        end
    | (None, _) => None
    end in
  match field (Some "-"%char) (list_ascii_of_string text) with
  | Some (y, cs) =>
  match field (Some "-"%char) cs with
  | Some (m, cs) =>
  match field (Some " "%char) cs with
  | Some (d, cs) =>
  match field (Some ":"%char) cs with
  | Some (h, cs) =>
  match field (Some ":"%char) cs with
  | Some (n, cs) =>
  match field None cs with
  | Some (c, _) => instant_of y m d h n c
  | None => None
  end | None => None end | None => None end | None => None end
      | None => None end | None => None end.

Definition strict_parse_timestamp (text fmt : string) : Parse :=
  if negb (String.eqb fmt "yyyy-MM-dd HH:mm:ss") then Unparsable
  else
    match strict_instant text with
    | Some t => Parsed t
    | None =>
        match lenient_instant text with
        | Some _ => ParserRaises "SparkUpgradeException"
        | None => Unparsable
        end
    end.

(* ===================================================================== *)
(** * Part III: vocabulary of the statements                             *)
(* ===================================================================== *)

Definition KINDS : list string := [ "view"; "add_to_cart"; "purchase" ].

(** A catalog entry is well formed when [0 < min_price <= max_price] and
    the prices computed from the two extreme draws, 0 and 1, stay within
    these bounds after rounding. *)
Definition product_ok (p : Product) : bool :=
  let '(_, lo, hi) := p in
  negb (Qle_bool lo 0) && Qle_bool lo hi &&
  Qle_bool lo (py_round2 (random_uniform lo hi 0)) &&
  Qle_bool (py_round2 (random_uniform lo hi 1)) hi.

(** The last cumulative weight of [select_event_type]: the float sum
    0.6 + 0.3 + 0.1, one unit in the last place below 1. *)
Definition total_weight : Q := fl (fl (fl (0 + fl 0.6) + fl 0.3) + fl 0.1).

Definition draws_example : Draws :=
  mkDraws 7 9 0.5%Q 0.61%Q "e-0001" "0a1b2c3d" "4e5f6a7b" "2024-01-15 10:30:00".


(** ** Rate limiter *)

(** The one-second window has elapsed at the reading [now]. *)
Definition window_elapsed (s : RateLimiter) (now : Q) : bool :=
  Qle_bool 1 (now - second_start s).

(** The counter, after the window reset if any, has reached the rate. *)
Definition limit_reached (s : RateLimiter) (now : Q) : bool :=
  (events_per_second s <=?
   (if window_elapsed s now then 0 else events_this_second s))%Z.

(** The limiter states a program can hold: built by the constructor with
    rate [R], then passed through any number of [wait] calls. *)
Inductive limiter_reachable (R : Z) : RateLimiter -> Prop :=
| reach_init (env : Env) (w w' : World) (s : RateLimiter) :
    RateLimiter_init R env w = (Ok s, w') -> limiter_reachable R s
| reach_wait (env : Env) (w w' : World) (s s' : RateLimiter) :
    limiter_reachable R s -> wait s env w = (Ok s', w') ->
    limiter_reachable R s'.

(** The two policies the specification allows for a rate [R <= 0]. *)
Definition rejected_at_construction (R : Z) : Prop :=
  forall env w, exists msg w', RateLimiter_init R env w = (Exn msg, w').

Definition never_blocks (R : Z) : Prop :=
  forall s, limiter_reachable R s ->
  forall env w s' w', wait s env w = (Ok s', w') -> effects w' = effects w.

Definition world0 : World := mkWorld 0 0 0 0 [].

(** A clock that advances a quarter of a second per reading, no shutdown
    request before the fifth read of the flag. *)
Definition env_example : Env :=
  mkEnv (fun n => (100 + inject_Z (Z.of_nat n) / 4)%Q)
        (fun n => (4 <=? n)%nat)
        (fun n => mkDraws n (n + 1) 0.5%Q 0.5%Q "e" "u" "p" "2024-01-15 10:30:00")
        (fun n => ("20240115_103000_00000" ++ str_of_int (Z.of_nat n))%string).

(** The limiter the constructor builds in [env_example], and the world
    after its two clock readings. *)
Definition limiter_example (R : Z) : RateLimiter :=
  mkRateLimiter R (if (0 <? R)%Z then (1 / inject_Z R)%Q else 1%Q)
                (clock env_example 0) 0 (clock env_example 1).

Definition world_example : World := mkWorld 2 0 0 0 [].

(** ** Producer loop *)

(** The batches written so far: the rows of each file, oldest first. *)
Definition written (w : World) : list (list Event) :=
  flat_map (fun e => match e with
                     | WroteCsv _ _ rows => [rows]
                     | Slept _ => []
                     end) (effects w).

(** The signal handler sets the flag between the reads number [p - 1]
    and [p]: earlier reads see False, read [p] and all later ones True. *)
Definition flag_raised_at (env : Env) (p : nat) : Prop :=
  forall i, shutdown_requested env i = (p <=? i)%nat.

(** [events] are the events number [first], [first + 1], ... of the run. *)
Definition generated_from (env : Env) (first : nat) (events : list Event) : Prop :=
  forall i e, nth_error events i = Some e ->
              generate_event (entropy env (first + i)) = Some e.

(** The duration check at the top of an iteration that starts in [w]. *)
Definition duration_expired (duration : option Z) (start_time : Q)
    (env : Env) (w : World) : bool :=
  match duration with
  | None => false
  | Some d => Qle_bool (inject_Z d) (clock env (ticks w) - start_time)
  end.

(** How many of the next [n] reads of the flag, from read number [from]
    on, see False before one sees True. *)
Fixpoint leading_false (flag : nat -> bool) (from n : nat) : nat :=
  match n with
  | O => O
  | S n' => if flag from then O else S (leading_false flag (S from) n')
  end.

(** ** Validation *)

Section Classification.

Variable parse_timestamp : string -> string -> Parse.
Variable skips_operand : Row -> bool.

(** The row a valid record becomes in [valid_df]. *)
Definition valid_row (e : CsvRecord) : Row :=
  [ ("event_id", trim_cell (str_cell (raw_event_id e)));
    ("user_id", trim_cell (str_cell (raw_user_id e)));
    ("product_id", trim_cell (str_cell (raw_product_id e)));
    ("product_name", trim_cell (str_cell (raw_product_name e)));
    ("category", trim_cell (str_cell (raw_category e)));
    ("price", dbl_cell (raw_price e));
    ("event_type", lower_cell (trim_cell (str_cell (raw_event_type e))));
    ("event_timestamp",
     parse_cell parse_timestamp "yyyy-MM-dd HH:mm:ss" (str_cell (raw_timestamp e))) ].

(** The row an invalid record becomes in [invalid_df]: its cleaned row,
    on which the flag was computed. *)
Definition invalid_row (e : CsvRecord) : Row :=
  [ ("event_id", trim_cell (str_cell (raw_event_id e)));
    ("user_id", trim_cell (str_cell (raw_user_id e)));
    ("product_id", trim_cell (str_cell (raw_product_id e)));
    ("product_name", trim_cell (str_cell (raw_product_name e)));
    ("category", trim_cell (str_cell (raw_category e)));
    ("price", dbl_cell (raw_price e));
    ("event_type", lower_cell (trim_cell (str_cell (raw_event_type e))));
    ("timestamp", str_cell (raw_timestamp e));
    ("event_timestamp",
     parse_cell parse_timestamp "yyyy-MM-dd HH:mm:ss" (str_cell (raw_timestamp e))) ].

(** The first five tests of the [is_valid] flag of a record: a flag or
    null, their evaluation does not raise. *)
Definition field_checks (e : CsvRecord) : Cell :=
  let skips := skips_operand (invalid_row e) in
  and_cell skips (and_cell skips (and_cell skips (and_cell skips
    (not_null (trim_cell (str_cell (raw_event_id e))))
    (not_null (trim_cell (str_cell (raw_user_id e)))))
    (not_null (trim_cell (str_cell (raw_product_id e)))))
    (isin_cell VALID_EVENT_TYPES
               (lower_cell (trim_cell (str_cell (raw_event_type e))))))
    (gt_cell 0 (dbl_cell (raw_price e))).

(** The value of the [is_valid] flag for a record of the batch file. *)
Definition is_valid_of (e : CsvRecord) : Cell :=
  and_cell (skips_operand (invalid_row e))
    (field_checks e)
    (not_null (parse_cell parse_timestamp "yyyy-MM-dd HH:mm:ss"
                          (str_cell (raw_timestamp e)))).

(** A record is classified valid (invalid) when the batch made of it
    alone has a row in [valid_df] (in [invalid_df]). *)
Definition classified_valid (e : CsvRecord) : bool :=
  negb (isEmpty (fst (clean_and_validate_data parse_timestamp skips_operand
                        (read_batch [e])))).

Definition classified_invalid (e : CsvRecord) : bool :=
  negb (isEmpty (snd (clean_and_validate_data parse_timestamp skips_operand
                        (read_batch [e])))).

End Classification.

(** [price > 0] in the engine's ordering of doubles. *)
Definition exceeds_zero (p : Double) : Prop :=
  (exists x, p = Finite x /\ (0 < x)%Q) \/ p = PosInf \/ p = NaN.

(** Two engines: one that evaluates a conjunction as written and leaves
    the right operand alone when the left one is false, and one that
    evaluates both operands in any case. *)
Definition short_circuit : Row -> bool := fun _ => true.
Definition eager : Row -> bool := fun _ => false.

(** Example records: a blank [user_id], a missing one, a timestamp that
    only the lenient reading of the pattern accepts, and a price that is
    not a number. *)
Definition record_blank_user : CsvRecord :=
  mkCsvRecord (Some "e1") (Some "   ") (Some "prod_1a2b3c4d") (Some "Yoga Mat")
              (Some "Sports") (Some (Finite (fl 19.99))) (Some "VIEW")
              (Some "2024-01-15 10:30:00").

Definition record_null_user : CsvRecord :=
  mkCsvRecord (Some "e2") None (Some "prod_1a2b3c4d") (Some "Yoga Mat")
              (Some "Sports") (Some (Finite (fl 19.99))) (Some "view")
              (Some "2024-01-15 10:30:00").

Definition record_legacy_timestamp : CsvRecord :=
  mkCsvRecord (Some "e4") (Some "user_0a1b2c3d") (Some "prod_1a2b3c4d")
              (Some "Yoga Mat") (Some "Sports") (Some (Finite (fl 19.99)))
              (Some "view") (Some "2024-1-15 10:30:00").

Definition record_null_user_legacy_timestamp : CsvRecord :=
  mkCsvRecord (Some "e5") None (Some "prod_1a2b3c4d")
              (Some "Yoga Mat") (Some "Sports") (Some (Finite (fl 19.99)))
              (Some "view") (Some "2024-1-15 10:30:00").

Definition record_nan_price : CsvRecord :=
  mkCsvRecord (Some "e6") (Some "user_0a1b2c3d") (Some "prod_1a2b3c4d")
              (Some "Yoga Mat") (Some "Sports") (Some NaN)
              (Some "view") (Some "2024-01-15 10:30:00").

(** The columns of a row, in order. *)
Definition columns (r : Row) : list string := map fst r.

(** ** Deduplication *)

(** Two rows carry the same [event_id]. *)
Definition same_event_id (r1 r2 : Row) : bool := same_key [ "event_id" ] r1 r2.

(** An engine whose aggregation meets the rows in input order, and two
    that meet first the rows of user_99999999, or the rows of event e1. *)
Definition input_order : Row -> nat := fun _ => 0%nat.

Definition rank_user_99999999_first : Row -> nat :=
  fun r => if cell_eqb (col "user_id" r) (Str "user_99999999") then 0%nat else 1%nat.

Definition rank_e1_first : Row -> nat :=
  fun r => if cell_eqb (col "event_id" r) (Str "e1") then 0%nat else 1%nat.

(** Two valid rows that share the event_id e1 and differ in payload. *)
Definition row_e1_first : Row :=
  [ ("event_id", Str "e1"); ("user_id", Str "user_0a1b2c3d");
    ("product_id", Str "prod_1a2b3c4d"); ("product_name", Str "Yoga Mat");
    ("category", Str "Sports"); ("price", Dbl (Finite (fl 19.99)));
    ("event_type", Str "view");
    ("event_timestamp", Ts (mkInstant 2024 1 15 10 30 0)) ].

Definition row_e1_second : Row :=
  [ ("event_id", Str "e1"); ("user_id", Str "user_99999999");
    ("product_id", Str "prod_5e6f7a8b"); ("product_name", Str "Basketball");
    ("category", Str "Sports"); ("price", Dbl (Finite (fl 29.99)));
    ("event_type", Str "purchase");
    ("event_timestamp", Ts (mkInstant 2024 1 15 10 31 0)) ].

(** ** Sink writes and start-up polling *)

(** The test the retry loop applies to an error message. *)
Definition is_duplicate_key (error_msg : string) : bool :=
  contains "duplicate key" (lower_string error_msg).

(** An attempt has to be retried when it failed with an error that is
    not classified as a duplicate key. *)
Definition retryable (outcome : option string) : bool :=
  match outcome with
  | None => false
  | Some error_msg => negb (is_duplicate_key error_msg)
  end.

(** A run started in world [w0] ends with result [r], after [n] more
    JDBC appends, having added [added] to the journal. *)
Definition ends_with {A : Type} (run : Result A * JobWorld) (r : Result A)
    (w0 : JobWorld) (n : nat) (added : list JobEffect) : Prop :=
  fst run = r /\
  saves (snd run) = (saves w0 + n)%nat /\
  journal (snd run) = journal w0 ++ added.

(** The retry policy, for a sink write that starts in world [w0]: how
    [run] ends according to the outcomes of the next three JDBC appends. *)
Definition retry_policy (run : Result unit * JobWorld) (final_df : DataFrame)
    (batch_id : Z) (env : JobEnv) (w0 : JobWorld) : Prop :=
  let attempt := JdbcSave "user_events" final_df in
  let o1 := jdbc_save env (saves w0) in
  let o2 := jdbc_save env (S (saves w0)) in
  let o3 := jdbc_save env (S (S (saves w0))) in
  (retryable o1 = false -> ends_with run (Ok tt) w0 1 [attempt]) /\
  (retryable o1 = true -> retryable o2 = false ->
   ends_with run (Ok tt) w0 2 [attempt; Sleep 5; attempt]) /\
  (retryable o1 = true -> retryable o2 = true -> retryable o3 = false ->
   ends_with run (Ok tt) w0 3 [attempt; Sleep 5; attempt; Sleep 5; attempt]) /\
  (retryable o1 = true -> retryable o2 = true -> retryable o3 = true ->
   exists error_msg,
     o3 = Some error_msg /\
     ends_with run (Exn error_msg) w0 3
       [attempt; Sleep 5; attempt; Sleep 5; attempt;
        LogError ("Batch " ++ str_of_int batch_id
                  ++ ": All retry attempts failed!")%string]).

(** What one failed connection test leaves in the journal. *)
Definition failed_poll (env : JobEnv) (delay : Z) (i : nat) : list JobEffect :=
  [ JdbcLoad "SELECT 1 as test";
    LogError ("PostgreSQL connection failed: " ++
              match jdbc_load env i with Some e => e | None => "" end)%string;
    Sleep delay ].

Definition is_sleep_of (delay : Z) (e : JobEffect) : Prop :=
  match e with
  | Sleep seconds => seconds = delay
  | _ => True
  end.

(** A sink that refuses two appends and takes the third; a database
    that never answers. *)
Definition env_flaky_sink : JobEnv :=
  mkJobEnv "/app"
           (fun n => if (n <? 2)%nat then Some "Connection refused" else None)
           (fun _ => None) (fun _ => None) None.

Definition env_sink_down : JobEnv :=
  mkJobEnv "/app" (fun _ => Some "Connection refused") (fun _ => None)
           (fun _ => Some "Connection refused") None.

Definition job_world0 : JobWorld := mkJobWorld 0 0 0 [].

Definition record_ok : CsvRecord :=
  mkCsvRecord (Some "e1") (Some "user_0a1b2c3d") (Some "prod_1a2b3c4d")
              (Some "Yoga Mat") (Some "Sports") (Some (Finite (fl 19.99)))
              (Some "view") (Some "2024-01-15 10:30:00").

(* ===================================================================== *)
(** * Further vocabulary                                                 *)
(* ===================================================================== *)

(** ** Producer *)

(** The flag is never raised. *)
Definition never_requested (env : Env) : Prop :=
  forall i, shutdown_requested env i = false.

(** The clock does not run backwards. *)
Definition clock_monotone (env : Env) : Prop :=
  forall i j, (i <= j)%nat -> (clock env i <= clock env j)%Q.

(** A producer environment in which nobody asks for a shutdown; the
    clock advances one second per reading. *)
Definition env_unattended : Env :=
  mkEnv (fun n => inject_Z (Z.of_nat n))
        (fun _ => false)
        (fun n => mkDraws n (n + 1) 0.5%Q 0.5%Q "e" "u" "p" "2024-01-15 10:30:00")
        (fun n => ("20240115_103000_00000" ++ str_of_int (Z.of_nat n))%string).

(** ** Streaming job *)

(** The directory [write_errors] writes the invalid rows of a batch to. *)
Definition quarantine_path (env : JobEnv) (batch_id : Z) : string :=
  ((BASE_PATH env ++ "/data/error") ++ "/batch_" ++ str_of_int batch_id)%string.

(** What the callback adds to the journal for the invalid rows. *)
Definition quarantine_entry (env : JobEnv) (batch_id : Z) (invalid_df : DataFrame)
  : list JobEffect :=
  match invalid_df with
  | [] => []
  | _ :: _ => [ CsvSave (quarantine_path env batch_id) invalid_df ]
  end.

(** Journal entries of the retry loop: appends, sleeps, error records. *)
Definition sink_entry (e : JobEffect) : Prop :=
  match e with
  | JdbcSave _ _ | Sleep _ | LogError _ => True
  | CsvSave _ _ | JdbcLoad _ | StreamStart | SparkStop => False
  end.

(** The same environment with another behaviour of the CSV writer. *)
Definition with_csv_save (env : JobEnv) (csv : nat -> option string) : JobEnv :=
  mkJobEnv (BASE_PATH env) (jdbc_save env) csv (jdbc_load env)
           (await_termination env).

(** The flag of a record is neither true nor false: it is null, or its
    computation raises. *)
Definition unclassified (v : Cell) : bool :=
  match v with
  | Flag _ => false
  | _ => true
  end.

(** The eight columns of the [user_events] table, in table order. *)
Definition table_columns : list string :=
  [ "event_id"; "user_id"; "product_id"; "product_name";
    "category"; "price"; "event_type"; "event_timestamp" ].

(** A row as the sink table expects it. *)
Definition sink_row_ok (r : Row) : Prop :=
  columns r = table_columns /\
  (exists s, col "event_id" r = Str s) /\
  (exists s, col "user_id" r = Str s) /\
  (exists s, col "product_id" r = Str s) /\
  (exists k, col "event_type" r = Str k /\ In k VALID_EVENT_TYPES) /\
  (exists p, col "price" r = Dbl p /\ exceeds_zero p) /\
  (exists t, col "event_timestamp" r = Ts t).

(** [l1] is [l2] with some elements left out, the others in place. *)
Inductive subsequence {A : Type} : list A -> list A -> Prop :=
| subseq_nil : subsequence [] []
| subseq_skip (a : A) (l1 l2 : list A) :
    subsequence l1 l2 -> subsequence l1 (a :: l2)
| subseq_keep (a : A) (l1 l2 : list A) :
    subsequence l1 l2 -> subsequence (a :: l1) (a :: l2).

(** A database that answers the third connection test, and a streaming
    query that fails. *)
Definition env_db_late : JobEnv :=
  mkJobEnv "/app" (fun _ => None) (fun _ => None)
           (fun n => if (n <? 2)%nat then Some "Connection refused" else None)
           (Some "Query terminated with exception").

(** A record with every field in order except a missing price. *)
Definition record_null_price : CsvRecord :=
  mkCsvRecord (Some "e3") (Some "user_0a1b2c3d") (Some "prod_1a2b3c4d")
              (Some "Yoga Mat") (Some "Sports") None (Some "view")
              (Some "2024-01-15 10:30:00").

(** A valid row with another event_id. *)
Definition row_e2 : Row :=
  [ ("event_id", Str "e2"); ("user_id", Str "user_0a1b2c3d");
    ("product_id", Str "prod_1a2b3c4d"); ("product_name", Str "Yoga Mat");
    ("category", Str "Sports"); ("price", Dbl (Finite (fl 19.99)));
    ("event_type", Str "view");
    ("event_timestamp", Ts (mkInstant 2024 1 15 10 32 0)) ].
(* ===================================================================== *)
(** * Part IV: properties of the producer                                *)
(* ===================================================================== *)

(** ** Generated events *)

(** *** Rounding *)

Lemma round_half_even_between (q : Q) (a b : Z) :
  (inject_Z a <= q)%Q -> (q <= inject_Z b)%Q ->
  (a <= round_half_even q <= b)%Z.
Proof.
  destruct q as [n d]. unfold Qle, round_half_even; cbn [Qnum Qden inject_Z].
  intros Ha Hb.
  pose proof (Z.div_mod n (Zpos d) ltac:(lia)) as Hdm.
  pose proof (Z.mod_pos_bound n (Zpos d) ltac:(lia)) as Hr.
  set (f := (n / Zpos d)%Z) in *. set (r := (n mod Zpos d)%Z) in *.
  assert (Hlo : (a <= f)%Z) by nia.
  assert (Hhi : (f <= b)%Z) by nia.
  assert (Hstep : (0 < r -> f + 1 <= b)%Z) by nia.
  destruct (Z.compare_spec (2 * r) (Zpos d)); [ destruct (Z.even f) | | ]; lia.
Qed.

Lemma round_half_even_monotone (p q : Q) :
  (p <= q)%Q -> (round_half_even p <= round_half_even q)%Z.
Proof.
  destruct p as [n1 d1], q as [n2 d2].
  unfold Qle, round_half_even; cbn [Qnum Qden]. intros H.
  pose proof (Z.div_mod n1 (Zpos d1) ltac:(lia)) as E1.
  pose proof (Z.mod_pos_bound n1 (Zpos d1) ltac:(lia)) as B1.
  pose proof (Z.div_mod n2 (Zpos d2) ltac:(lia)) as E2.
  pose proof (Z.mod_pos_bound n2 (Zpos d2) ltac:(lia)) as B2.
  set (f1 := (n1 / Zpos d1)%Z) in *. set (r1 := (n1 mod Zpos d1)%Z) in *.
  set (f2 := (n2 / Zpos d2)%Z) in *. set (r2 := (n2 mod Zpos d2)%Z) in *.
  clearbody f1 r1 f2 r2. subst n1 n2.
  assert (Hf : (f1 <= f2)%Z).
  { destruct (Z.le_gt_cases f1 f2) as [|Hgt]; [assumption|exfalso].
    assert (Zpos d1 * Zpos d2 * (f2 + 1) <= Zpos d1 * Zpos d2 * f1)%Z by nia.
    assert (r2 * Zpos d1 < Zpos d2 * Zpos d1)%Z by nia.
    assert (0 <= r1 * Zpos d2)%Z by nia.
    lia. }
  destruct (Z.eq_dec f1 f2) as [Heq|Hne].
  - subst f2.
    assert (Hr : (r1 * Zpos d2 <= r2 * Zpos d1)%Z) by nia.
    destruct (Z.compare_spec (2 * r1) (Zpos d1)) as [C1|C1|C1];
      destruct (Z.compare_spec (2 * r2) (Zpos d2)) as [C2|C2|C2];
      try destruct (Z.even f1); try lia; exfalso.
    all: assert (H1 : (2 * r1 * Zpos d2 <= 2 * r2 * Zpos d1)%Z) by lia.
    all: assert (H2 : (2 * r2 * Zpos d1 <= Zpos d2 * Zpos d1)%Z) by nia.
    all: assert (H3 : (Zpos d1 * Zpos d2 <= 2 * r1 * Zpos d2)%Z) by nia.
    all: nia.
  - assert (f1 + 1 <= f2)%Z by lia.
    destruct (Z.compare_spec (2 * r1) (Zpos d1));
      destruct (Z.compare_spec (2 * r2) (Zpos d2));
      try destruct (Z.even f1); try destruct (Z.even f2); lia.
Qed.

(** The rounded value is within one half of the argument. *)
Lemma round_half_even_near (q : Q) :
  (Qabs (q - inject_Z (round_half_even q)) <= 1 # 2)%Q.
Proof.
  apply Qabs_Qle_condition.
  destruct q as [n d]. unfold Qle, round_half_even, Qminus, Qplus, Qopp;
    cbn [Qnum Qden inject_Z].
  pose proof (Z.div_mod n (Zpos d) ltac:(lia)) as Hdm.
  pose proof (Z.mod_pos_bound n (Zpos d) ltac:(lia)) as Hr.
  set (f := (n / Zpos d)%Z) in *. set (r := (n mod Zpos d)%Z) in *.
  destruct (Z.compare_spec (2 * r) (Zpos d)); [ destruct (Z.even f) | | ];
    split; cbn; nia.
Qed.

Lemma pow2_pos (e : Z) : (0 < 2 ^ e)%Q.
Proof. apply Qpower_0_lt. reflexivity. Qed.

Lemma pow2_succ (e : Z) : (2 ^ (e + 1) == 2 * 2 ^ e)%Q.
Proof. rewrite Qpower_plus by discriminate. cbn [Qpower Qpower_positive pow_pos]. ring. Qed.

Lemma pow2_le (a b : Z) : (a <= b)%Z -> (2 ^ a <= 2 ^ b)%Q.
Proof. intros H. apply Qpower_le_compat_l; [assumption | discriminate]. Qed.

Lemma pow2_lt_inv (a b : Z) : (2 ^ a < 2 ^ b)%Q -> (a < b)%Z.
Proof. intros H. apply (Qpower_lt_compat_l_inv 2); [assumption | reflexivity]. Qed.

Lemma Qdiv_lt_cross (n d a b : Q) :
  (0 < d)%Q -> (0 < b)%Q -> (n * b < a * d)%Q -> (n / d < a / b)%Q.
Proof.
  intros Hd Hb H.
  apply Qlt_shift_div_l; [assumption|].
  assert (E : (n / d * b == n * b / d)%Q) by (field; lra).
  rewrite E. apply Qlt_shift_div_r; assumption.
Qed.

(** [binade] is the exponent of the power of two at or below a positive
    number. *)
Lemma binade_spec (q : Q) :
  (0 < q)%Q -> (2 ^ binade q <= q)%Q /\ (q < 2 ^ (binade q + 1))%Q.
Proof.
  intros Hq. unfold binade.
  destruct q as [n d]. cbn [Qnum Qden].
  assert (Hn : (0 < n)%Z) by (unfold Qlt in Hq; cbn in Hq; lia).
  destruct (Z.log2_spec n Hn) as [La Lb].
  destruct (Z.log2_spec (Zpos d) ltac:(lia)) as [Lc Ld].
  pose proof (Z.log2_nonneg n) as Na. pose proof (Z.log2_nonneg (Zpos d)) as Nb.
  set (a := Z.log2 n) in *. set (b := Z.log2 (Zpos d)) in *. clearbody a b.
  assert (Hq' : (n # d == inject_Z n / inject_Z (Zpos d))%Q)
    by (rewrite Qmake_Qdiv; reflexivity).
  rewrite Zle_Qle in La, Lc. rewrite Zlt_Qlt in Lb, Ld.
  rewrite Zpower_Qpower in La, Lb, Lc, Ld by lia.
  change (inject_Z 2) with 2%Q in *.
  replace (Z.succ a) with (a + 1)%Z in Lb by lia.
  replace (Z.succ b) with (b + 1)%Z in Ld by lia.
  pose proof (pow2_pos a) as Pa. pose proof (pow2_pos b) as Pb.
  pose proof (pow2_pos (a + 1)) as Pa1. pose proof (pow2_pos (b + 1)) as Pb1.
  assert (Pd : (0 < inject_Z (Zpos d))%Q) by reflexivity.
  assert (Pn : (0 < inject_Z n)%Q)
    by (change 0%Q with (inject_Z 0); rewrite <- Zlt_Qlt; assumption).
  assert (Hup : (n # d < 2 ^ (a - b + 1))%Q).
  { replace (a - b + 1)%Z with ((a + 1) - b)%Z by lia.
    rewrite Qpower_minus by discriminate. rewrite Hq'.
    apply Qdiv_lt_cross; [assumption | assumption | nra]. }
  assert (Hdn : (2 ^ (a - b - 1) < n # d)%Q).
  { replace (a - b - 1)%Z with (a - (b + 1))%Z by lia.
    rewrite Qpower_minus by discriminate. rewrite Hq'.
    apply Qdiv_lt_cross; [assumption | assumption | nra]. }
  destruct (Qle_bool (2 ^ (a - b)) (n # d)) eqn:E.
  - apply Qle_bool_iff in E. split; assumption.
  - split.
    + apply Qlt_le_weak. assumption.
    + replace (a - b - 1 + 1)%Z with (a - b)%Z by lia.
      apply Qnot_le_lt. intros C. apply Qle_bool_iff in C. congruence.
Qed.

Lemma binade_monotone (p q : Q) :
  (0 < p)%Q -> (p <= q)%Q -> (binade p <= binade q)%Z.
Proof.
  intros Hp Hpq.
  destruct (binade_spec p Hp) as [P1 _].
  destruct (binade_spec q ltac:(lra)) as [_ Q2].
  assert (H : (binade p < binade q + 1)%Z) by (apply pow2_lt_inv; lra).
  lia.
Qed.

(** A rounded positive number stays in its binade, bounds included. *)
Lemma fl_binade (q : Q) :
  (0 < q)%Q -> (2 ^ binade q <= fl q)%Q /\ (fl q <= 2 ^ (binade q + 1))%Q.
Proof.
  intros Hq. unfold fl.
  assert (E0 : Qle_bool q 0 = false).
  { destruct (Qle_bool q 0) eqn:E; [|reflexivity]. apply Qle_bool_iff in E. lra. }
  rewrite E0.
  destruct (binade_spec q Hq) as [B1 B2].
  set (e := binade q) in *. clearbody e.
  pose proof (pow2_pos (e - 52)) as Pu.
  assert (He : (2 ^ e == inject_Z (2 ^ 52) * 2 ^ (e - 52))%Q).
  { rewrite Zpower_Qpower by lia. change (inject_Z 2) with 2%Q.
    rewrite <- Qpower_plus by discriminate. replace (52 + (e - 52))%Z with e by lia.
    reflexivity. }
  assert (He1 : (2 ^ (e + 1) == inject_Z (2 ^ 53) * 2 ^ (e - 52))%Q).
  { rewrite Zpower_Qpower by lia. change (inject_Z 2) with 2%Q.
    rewrite <- Qpower_plus by discriminate. replace (53 + (e - 52))%Z with (e + 1)%Z by lia.
    reflexivity. }
  assert (Hlo : (inject_Z (2 ^ 52) <= q / 2 ^ (e - 52))%Q)
    by (apply Qle_shift_div_l; [assumption | rewrite <- He; assumption]).
  assert (Hhi : (q / 2 ^ (e - 52) <= inject_Z (2 ^ 53))%Q)
    by (apply Qle_shift_div_r; [assumption | rewrite <- He1; lra]).
  destruct (round_half_even_between _ _ _ Hlo Hhi) as [R1 R2].
  rewrite Zle_Qle in R1, R2.
  rewrite He, He1.
  split; apply Qmult_le_compat_r; lra.
Qed.

Lemma fl_zero (q : Q) : (q == 0)%Q -> fl q = 0%Q.
Proof.
  intros H. unfold fl.
  assert (E1 : Qle_bool q 0 = true) by (apply Qle_bool_iff; lra).
  assert (E2 : Qle_bool 0 q = true) by (apply Qle_bool_iff; lra).
  rewrite E1, E2. reflexivity.
Qed.

Lemma fl_nonneg (q : Q) : (0 <= q)%Q -> (0 <= fl q)%Q.
Proof.
  intros H. destruct (Qlt_le_dec 0 q) as [Hp|Hn].
  - destruct (fl_binade q Hp) as [B _]. pose proof (pow2_pos (binade q)). lra.
  - rewrite fl_zero by lra. lra.
Qed.

(** Rounding is monotone (on the non-negative numbers, which are all
    this program computes with). *)
Lemma fl_monotone (p q : Q) :
  (0 <= p)%Q -> (p <= q)%Q -> (fl p <= fl q)%Q.
Proof.
  intros Hp Hpq. destruct (Qlt_le_dec 0 p) as [Hpos|Hz].
  2:{ rewrite (fl_zero p) by lra. apply fl_nonneg. lra. }
  pose proof (binade_monotone p q Hpos Hpq) as Hb.
  destruct (Z.eq_dec (binade p) (binade q)) as [Heq|Hne].
  - unfold fl.
    assert (E1 : Qle_bool p 0 = false).
    { destruct (Qle_bool p 0) eqn:E; [|reflexivity]. apply Qle_bool_iff in E. lra. }
    assert (E2 : Qle_bool q 0 = false).
    { destruct (Qle_bool q 0) eqn:E; [|reflexivity]. apply Qle_bool_iff in E. lra. }
    rewrite E1, E2, Heq.
    pose proof (pow2_pos (binade q - 52)) as Pu.
    apply Qmult_le_compat_r; [|lra].
    rewrite <- Zle_Qle. apply round_half_even_monotone.
    apply Qle_shift_div_l; [assumption|].
    assert (E : (p / 2 ^ (binade q - 52) * 2 ^ (binade q - 52) == p)%Q)
      by (field; lra).
    rewrite E. assumption.
  - destruct (fl_binade p Hpos) as [_ P2].
    destruct (fl_binade q ltac:(lra)) as [Q1 _].
    pose proof (pow2_le (binade p + 1) (binade q) ltac:(lia)). lra.
Qed.

Lemma random_uniform_monotone (lo hi u v : Q) :
  (0 <= lo)%Q -> (lo <= hi)%Q -> (0 <= u)%Q -> (u <= v)%Q ->
  (random_uniform lo hi u <= random_uniform lo hi v)%Q.
Proof.
  intros Hlo Hlh Hu Huv. unfold random_uniform.
  assert (Hd : (0 <= fl (hi - lo))%Q) by (apply fl_nonneg; lra).
  assert (H1 : (0 <= fl (hi - lo) * u)%Q) by (apply Qmult_le_0_compat; assumption).
  assert (H2 : (fl (hi - lo) * u <= fl (hi - lo) * v)%Q) by nra.
  pose proof (fl_nonneg _ H1). pose proof (fl_monotone _ _ H1 H2).
  apply fl_monotone; lra.
Qed.

Lemma random_uniform_nonneg (lo hi u : Q) :
  (0 <= lo)%Q -> (lo <= hi)%Q -> (0 <= u)%Q -> (0 <= random_uniform lo hi u)%Q.
Proof.
  intros Hlo Hlh Hu. unfold random_uniform.
  assert (Hd : (0 <= fl (hi - lo))%Q) by (apply fl_nonneg; lra).
  assert (H1 : (0 <= fl (hi - lo) * u)%Q) by (apply Qmult_le_0_compat; assumption).
  pose proof (fl_nonneg _ H1). apply fl_nonneg. lra.
Qed.

Lemma py_round2_monotone (x y : Q) :
  (0 <= x)%Q -> (x <= y)%Q -> (py_round2 x <= py_round2 y)%Q.
Proof.
  intros Hx Hxy. unfold py_round2.
  pose proof (round_half_even_monotone 0 (x * 100) ltac:(lra)) as H0.
  change (round_half_even 0) with 0%Z in H0.
  pose proof (round_half_even_monotone (x * 100) (y * 100) ltac:(lra)) as Hm.
  rewrite Zle_Qle in H0, Hm. change (inject_Z 0) with 0%Q in H0.
  apply fl_monotone.
  - apply Qle_shift_div_l; [reflexivity | lra].
  - apply Qmult_le_compat_r; [assumption | discriminate].
Qed.

(** The price of a USB-C Cable (9.99 to 24.99) at the draw 1/8. *)
Example usb_c_cable_price :
  py_round2 (random_uniform (fl 9.99) (fl 24.99) (1 # 8)) = fl 11.87.
Proof. vm_compute. reflexivity. Qed.

(** The three weights do not add up to 1 in floats. *)
Example total_weight_value : (total_weight == 1 - (1 # 2 ^ 53))%Q.
Proof. vm_compute. reflexivity. Qed.

(** *** Selection *)

(** In floats 0.6 + 0.3 is below 0.9: the draw 0.9 selects purchase. *)
Example select_event_type_at_09 : select_event_type (fl 0.9) = "purchase".
Proof. vm_compute. reflexivity. Qed.

Lemma select_event_type_kind (rand : Q) : In (select_event_type rand) KINDS.
Proof.
  unfold select_event_type, EVENT_TYPES, KINDS; cbn [select_event_type_loop].
  repeat match goal with
         | |- context [if Qle_bool ?a ?b then _ else _] => destruct (Qle_bool a b)
         end; cbn; auto.
Qed.

Lemma select_event_type_fallback (rand : Q) :
  (total_weight < rand)%Q -> select_event_type rand = "view".
Proof.
  intros H.
  assert (Hc : forall c : Q, Qle_bool c total_weight = true ->
                             Qle_bool rand c = false).
  { intros c Hc. apply Qle_bool_iff in Hc.
    destruct (Qle_bool rand c) eqn:E; [|reflexivity].
    apply Qle_bool_iff in E. lra. }
  unfold select_event_type, EVENT_TYPES; cbn [select_event_type_loop].
  rewrite !Hc by (vm_compute; reflexivity).
  reflexivity.
Qed.

Lemma catalog_ok :
  forallb (fun kv => forallb product_ok (snd kv)) CATEGORIES = true.
Proof. vm_compute. reflexivity. Qed.

Lemma random_choice_In {A : Type} (seq : list A) (draw : nat) (x : A) :
  random_choice seq draw = Some x -> In x seq.
Proof.
  destruct seq as [|a l]; cbn [random_choice]; [discriminate|].
  apply nth_error_In.
Qed.

Lemma random_choice_some {A : Type} (seq : list A) (draw : nat) :
  seq <> [] -> exists x, random_choice seq draw = Some x.
Proof.
  destruct seq as [|a l]; [congruence|]. intros _.
  unfold random_choice.
  destruct (nth_error (a :: l) (draw mod List.length (a :: l))) eqn:E; eauto.
  apply nth_error_None in E.
  pose proof (Nat.mod_upper_bound draw (List.length (a :: l)) ltac:(discriminate)).
  lia.
Qed.

(** The dict lookup [CATEGORIES[category]] of a drawn key succeeds. *)
Lemma category_lookup (draw : nat) :
  exists cat products,
    random_choice (map fst CATEGORIES) draw = Some cat /\
    find (fun kv => String.eqb (fst kv) cat) CATEGORIES = Some (cat, products) /\
    In (cat, products) CATEGORIES /\ products <> [].
Proof.
  unfold random_choice; cbn [map fst CATEGORIES List.length].
  pose proof (Nat.mod_upper_bound draw 5 ltac:(discriminate)) as Hlt.
  set (CATEGORIES_def := CATEGORIES).
  destruct (draw mod 5) as [|[|[|[|[|n]]]]]; [ .. | lia ];
    cbn [nth_error]; eexists; eexists;
    (split; [reflexivity|]); (split; [vm_compute; reflexivity|]);
    (split; [cbn; auto 10 | discriminate]).
Qed.

(** [select_product] never fails, and its price lies in the range of the
    product it selected. *)
Lemma select_product_spec (d : Draws) :
  (0 <= d_uniform d)%Q -> (d_uniform d < 1)%Q ->
  exists cat products name lo hi,
    In (cat, products) CATEGORIES /\ In (name, lo, hi) products /\
    select_product d =
      Some (cat, name, py_round2 (random_uniform lo hi (d_uniform d))) /\
    (0 < lo)%Q /\
    (lo <= py_round2 (random_uniform lo hi (d_uniform d)))%Q /\
    (py_round2 (random_uniform lo hi (d_uniform d)) <= hi)%Q.
Proof.
  intros H0 H1.
  destruct (category_lookup (d_category d)) as (cat & products & Hc & Hf & Hin & Hne).
  destruct (random_choice_some products (d_product d) Hne) as ([[name lo] hi] & Hp).
  exists cat, products, name, lo, hi.
  pose proof (random_choice_In _ _ _ Hp) as Hinp.
  assert (Hok : product_ok (name, lo, hi) = true).
  { pose proof catalog_ok as Hall. rewrite forallb_forall in Hall.
    specialize (Hall _ Hin). cbn [snd] in Hall.
    rewrite forallb_forall in Hall. exact (Hall _ Hinp). }
  cbn [product_ok] in Hok.
  apply andb_prop in Hok as [Hok Htop]. apply andb_prop in Hok as [Hok Hbot].
  apply andb_prop in Hok as [Hpos Hle].
  apply Qle_bool_iff in Hle, Hbot, Htop.
  assert (Hpos' : (0 < lo)%Q).
  { destruct (Qlt_le_dec 0 lo) as [|Hn]; [assumption|].
    apply Qle_bool_iff in Hn. rewrite Hn in Hpos. discriminate. }
  set (u := d_uniform d) in *.
  assert (Hlo0 : (0 <= lo)%Q) by lra.
  pose proof (random_uniform_nonneg lo hi 0 Hlo0 Hle ltac:(lra)) as N0.
  pose proof (random_uniform_nonneg lo hi u Hlo0 Hle H0) as Nu.
  pose proof (random_uniform_monotone lo hi 0 u Hlo0 Hle ltac:(lra) H0) as M0.
  pose proof (random_uniform_monotone lo hi u 1 Hlo0 Hle H0 ltac:(lra)) as M1.
  pose proof (py_round2_monotone _ _ N0 M0) as P0.
  pose proof (py_round2_monotone _ _ Nu M1) as P1.
  split; [assumption|]. split; [assumption|].
  split; [unfold select_product; rewrite Hc, Hf, Hp; reflexivity|].
  split; [assumption|]. split; lra.
Qed.

(** C6. Whatever the random draws (indices for the two choices, numbers
    in [0, 1) for the price and for the kind), [generate_event] returns an
    event whose price is [round(uniform(min_price, max_price), 2)] for the
    selected catalog product, computed in binary64: it is the float
    nearest to a whole number of cents, that number of cents is within
    half a cent of the value drawn, and the price lies between min_price
    and max_price and is positive.  The event_type is one of view,
    add_to_cart and purchase; a draw beyond every cumulative weight
    resolves to view. *)
Theorem generated_event_price_and_kind (d : Draws) :
  (0 <= d_uniform d)%Q -> (d_uniform d < 1)%Q ->
  exists e,
    generate_event d = Some e /\
    (0 < price e)%Q /\
    (exists cat products name lo hi cents,
        In (cat, products) CATEGORIES /\ In (name, lo, hi) products /\
        category e = cat /\ product_name e = name /\
        price e = py_round2 (random_uniform lo hi (d_uniform d)) /\
        price e = fl (inject_Z cents / 100) /\
        (Qabs (random_uniform lo hi (d_uniform d) * 100 - inject_Z cents)
         <= 1 # 2)%Q /\
        (lo <= price e)%Q /\ (price e <= hi)%Q) /\
    In (event_type e) [ "view"; "add_to_cart"; "purchase" ] /\
    ((total_weight < d_rand d)%Q -> event_type e = "view").
Proof.
  intros H0 H1.
  destruct (select_product_spec d H0 H1)
    as (cat & products & name & lo & hi & Hin & Hinp & Hsel & Hpos & Hlo & Hhi).
  unfold generate_event. rewrite Hsel.
  eexists; split; [reflexivity|]; cbn [price category product_name event_type].
  split; [lra|].
  split.
  { exists cat, products, name, lo, hi,
      (round_half_even (random_uniform lo hi (d_uniform d) * 100)).
    repeat (split; [first [assumption | reflexivity]|]).
    split; [apply round_half_even_near|]. split; assumption. }
  split; [apply select_event_type_kind | apply select_event_type_fallback].
Qed.

Lemma generated_event_price_and_kind_witness :
  exists e,
    generate_event draws_example = Some e /\
    (0 < price e)%Q /\
    (exists cat products name lo hi cents,
        In (cat, products) CATEGORIES /\ In (name, lo, hi) products /\
        category e = cat /\ product_name e = name /\
        price e = py_round2 (random_uniform lo hi (d_uniform draws_example)) /\
        price e = fl (inject_Z cents / 100) /\
        (Qabs (random_uniform lo hi (d_uniform draws_example) * 100
               - inject_Z cents) <= 1 # 2)%Q /\
        (lo <= price e)%Q /\ (price e <= hi)%Q) /\
    In (event_type e) [ "view"; "add_to_cart"; "purchase" ] /\
    ((total_weight < d_rand draws_example)%Q -> event_type e = "view").
Proof.
  apply (generated_event_price_and_kind draws_example).
  - vm_compute. discriminate.
  - vm_compute. reflexivity.
Defined.

(** ** Rate limiter *)

(** What one call of [wait] does, for every limiter state and clock. *)
Lemma wait_unfold (s : RateLimiter) (env : Env) (w : World) :
  let now := clock env (ticks w) in
  let c1 := if window_elapsed s now then 0%Z else events_this_second s in
  let start1 := if window_elapsed s now then now else second_start s in
  exists s' w',
    wait s env w = (Ok s', w') /\
    events_per_second s' = events_per_second s /\
    events_this_second s' = ((if limit_reached s now then 0 else c1) + 1)%Z /\
    polls w' = polls w /\ drawn w' = drawn w /\ files w' = files w /\
    effects w' =
      effects w ++
      (if limit_reached s now
       then (if negb (Qle_bool (1 - (now - start1)) 0)
             then [Slept (1 - (now - start1))%Q] else [])
       else []).
Proof.
  cbv zeta. unfold wait, limit_reached, window_elapsed, bind, time_time, time_sleep, ret.
  destruct (Qle_bool 1 (clock env (ticks w) - second_start s)) eqn:Hel;
    cbn [events_per_second events_this_second second_start interval last_event_time];
    destruct (events_per_second s <=? _)%Z eqn:Hlim;
    cbn [events_per_second events_this_second second_start interval last_event_time];
    try (destruct (negb (Qle_bool _ 0)) eqn:Hsl);
    cbn [ticks polls drawn files effects
         events_per_second events_this_second second_start interval last_event_time];
    eexists; eexists; (split; [reflexivity|]);
    cbn [ticks polls drawn files effects
         events_per_second events_this_second second_start interval last_event_time];
    rewrite ?app_nil_r; repeat split; reflexivity.
Qed.

Lemma reachable_counter (R : Z) (s : RateLimiter) :
  limiter_reachable R s ->
  events_per_second s = R /\ (0 <= events_this_second s)%Z /\
  ((1 <= R)%Z -> (events_this_second s <= R)%Z).
Proof.
  induction 1 as [env w w' s Hinit | env w w' s s' Hr IH Hw].
  - unfold RateLimiter_init, bind, time_time, ret in Hinit.
    inversion Hinit; subst; cbn. lia.
  - destruct (wait_unfold s env w) as (s1 & w1 & E & Hr1 & Hc & _).
    rewrite E in Hw. inversion Hw; subst s1 w1.
    destruct IH as (IR & I0 & IU).
    rewrite Hr1, Hc. unfold limit_reached. rewrite IR.
    split; [reflexivity|].
    destruct (window_elapsed s _); destruct (R <=? _)%Z eqn:Hl;
      try apply Z.leb_le in Hl; try apply Z.leb_gt in Hl; lia.
Qed.

(** C9. For a rate R >= 1 and any limiter state reached from the
    constructor through earlier [wait] calls, a call of [wait] returns
    with 1 <= events_this_second <= R; the new counter is the old one
    plus one, counted from 0 when the one-second window had elapsed or
    the limit had been reached. *)
Theorem wait_counter_invariant (R : Z) (s : RateLimiter) (env : Env) (w : World) :
  (1 <= R)%Z -> limiter_reachable R s ->
  exists s' w',
    wait s env w = (Ok s', w') /\
    (1 <= events_this_second s' <= R)%Z /\
    events_this_second s' =
      ((if window_elapsed s (clock env (ticks w)) || limit_reached s (clock env (ticks w))
        then 0 else events_this_second s) + 1)%Z.
Proof.
  intros HR Hreach.
  destruct (reachable_counter R s Hreach) as (IR & I0 & IU). specialize (IU HR).
  destruct (wait_unfold s env w) as (s' & w' & E & _ & Hc & _).
  exists s', w'. split; [exact E|]. rewrite Hc.
  unfold limit_reached. rewrite IR.
  destruct (window_elapsed s _); cbn [orb];
    destruct (R <=? _)%Z eqn:Hl;
    try apply Z.leb_le in Hl; try apply Z.leb_gt in Hl; lia.
Qed.

Lemma limiter_example_reachable (R : Z) : limiter_reachable R (limiter_example R).
Proof. apply (reach_init R env_example world0 world_example). reflexivity. Qed.

Lemma wait_counter_invariant_witness :
  exists s' w',
    wait (limiter_example 5) env_example world_example = (Ok s', w') /\
    (1 <= events_this_second s' <= 5)%Z /\
    events_this_second s' =
      ((if window_elapsed (limiter_example 5) (clock env_example (ticks world_example))
           || limit_reached (limiter_example 5) (clock env_example (ticks world_example))
        then 0 else events_this_second (limiter_example 5)) + 1)%Z.
Proof.
  apply (wait_counter_invariant 5 (limiter_example 5) env_example world_example).
  - lia.
  - apply (reach_init 5 env_example world0 world_example). reflexivity.
Defined.

(** C3 fails as stated: the constructor accepts the rate 0, and the
    first [wait] of the resulting limiter sleeps. *)
Lemma nonpositive_rate_blocks :
  ~ (rejected_at_construction 0 \/ never_blocks 0).
Proof.
  intros [Hrej | Hnb].
  - destruct (Hrej env_example world0) as (msg & w' & H). discriminate H.
  - destruct (wait_unfold (limiter_example 0) env_example world_example)
      as (s' & w' & E & _ & _ & _ & _ & _ & Heff).
    specialize (Hnb _ (limiter_example_reachable 0) _ _ _ _ E).
    rewrite Hnb in Heff. vm_compute in Heff. discriminate Heff.
Qed.

(** C3, amended. For a rate R <= 0 the constructor accepts the
    configuration (the interval falls back to 1.0) and the limiter
    throttles instead of letting calls through: every [wait] sleeps for a
    positive time, the rest of the current one-second window (at most one
    second when the clock has not gone backwards), and returns with the
    counter at 1. *)
Theorem nonpositive_rate_throttles (R : Z) (s : RateLimiter) (env : Env) (w : World) :
  (R <= 0)%Z -> limiter_reachable R s ->
  (forall env0 w0, exists s0 w1,
      RateLimiter_init R env0 w0 = (Ok s0, w1) /\ (interval s0 == 1)%Q) /\
  exists s' w' d,
    wait s env w = (Ok s', w') /\
    effects w' = effects w ++ [Slept d] /\
    (0 < d)%Q /\
    ((second_start s <= clock env (ticks w))%Q -> (d <= 1)%Q) /\
    events_this_second s' = 1%Z.
Proof.
  intros HR Hreach. split.
  - intros env0 w0. unfold RateLimiter_init, bind, time_time, ret.
    destruct (0 <? R)%Z eqn:E; [apply Z.ltb_lt in E; lia|].
    eexists; eexists; split; [reflexivity|]. cbn. reflexivity.
  - destruct (reachable_counter R s Hreach) as (IR & I0 & _).
    destruct (wait_unfold s env w) as (s' & w' & E & _ & Hc & _ & _ & _ & Heff).
    assert (Hlim : limit_reached s (clock env (ticks w)) = true).
    { unfold limit_reached. rewrite IR. apply Z.leb_le.
      destruct (window_elapsed s _); lia. }
    rewrite Hlim in Hc, Heff.
    set (now := clock env (ticks w)) in *.
    set (d := (1 - (now - (if window_elapsed s now then now else second_start s)))%Q) in *.
    assert (Hd : (0 < d)%Q /\ ((second_start s <= now)%Q -> (d <= 1)%Q)).
    { unfold d, window_elapsed.
      destruct (Qle_bool 1 (now - second_start s)) eqn:Hel.
      - split; intros; lra.
      - assert (~ (1 <= now - second_start s)%Q)
          by (intro Hle; apply Qle_bool_iff in Hle; congruence).
        split; intros; lra. }
    destruct Hd as [Hpos Hle].
    assert (Hnb : negb (Qle_bool d 0) = true).
    { destruct (Qle_bool d 0) eqn:Hz; [|reflexivity].
      apply Qle_bool_iff in Hz. lra. }
    rewrite Hnb in Heff.
    exists s', w', d. repeat split; try assumption.
Qed.

Lemma nonpositive_rate_throttles_witness :
  (forall env0 w0, exists s0 w1,
      RateLimiter_init 0 env0 w0 = (Ok s0, w1) /\ (interval s0 == 1)%Q) /\
  exists s' w' d,
    wait (limiter_example 0) env_example world_example = (Ok s', w') /\
    effects w' = effects world_example ++ [Slept d] /\
    (0 < d)%Q /\
    ((second_start (limiter_example 0) <= clock env_example (ticks world_example))%Q
     -> (d <= 1)%Q) /\
    events_this_second s' = 1%Z.
Proof.
  apply (nonpositive_rate_throttles 0 (limiter_example 0) env_example world_example).
  - lia.
  - apply (reach_init 0 env_example world0 world_example). reflexivity.
Defined.

(** ** Producer loop *)

Lemma generate_event_total (d : Draws) : exists e, generate_event d = Some e.
Proof.
  destruct (category_lookup (d_category d)) as (cat & products & Hc & Hf & _ & Hne).
  destruct (random_choice_some products (d_product d) Hne) as ([[name lo] hi] & Hp).
  unfold generate_event, select_product. rewrite Hc, Hf, Hp. eauto.
Qed.

Lemma generate_event_m_run (env : Env) (w : World) :
  exists e,
    generate_event (entropy env (drawn w)) = Some e /\
    generate_event_m env w =
      (Ok e, mkWorld (ticks w) (polls w) (S (drawn w)) (files w) (effects w)).
Proof.
  destruct (generate_event_total (entropy env (drawn w))) as (e & He).
  exists e. split; [exact He|].
  unfold generate_event_m, bind, next_draws. rewrite He. reflexivity.
Qed.

Lemma written_app (w : World) (more : list Effect) (t p d f : nat) :
  written (mkWorld t p d f (effects w ++ more)) =
  written w ++ written (mkWorld t p d f more).
Proof. unfold written; cbn [effects]. apply flat_map_app. Qed.

(** [wait] always returns, reads neither the flag nor the random source
    and writes no file. *)
Lemma wait_frame (s : RateLimiter) (env : Env) (w : World) :
  exists s' w',
    wait s env w = (Ok s', w') /\
    polls w' = polls w /\ drawn w' = drawn w /\ files w' = files w /\
    written w' = written w.
Proof.
  destruct (wait_unfold s env w) as (s' & w' & E & _ & _ & Hp & Hd & Hf & Heff).
  exists s', w'. repeat split; try assumption.
  unfold written. rewrite Heff, flat_map_app.
  destruct (limit_reached s _); [destruct (negb _)|]; cbn; apply app_nil_r.
Qed.

Lemma generated_from_cons (env : Env) (first : nat) (e : Event) (l : list Event) :
  generate_event (entropy env first) = Some e ->
  generated_from env (S first) l ->
  generated_from env first (e :: l).
Proof.
  intros He Hl [|i] x; cbn [nth_error].
  - intros [= <-]. rewrite Nat.add_0_r. exact He.
  - intros Hx. rewrite Nat.add_succ_r. exact (Hl i x Hx).
Qed.

(** The inner loop: it generates exactly as many events as reads of the
    flag saw False, one read before each event, and writes no file. *)
Lemma fill_batch_spec (n : nat) :
  forall (rl : RateLimiter) (evs : list Event) (env : Env) (w : World),
  let k := leading_false (shutdown_requested env) (polls w) n in
  exists rl' new w',
    fill_batch n rl evs env w = (Ok (rl', evs ++ new), w') /\
    List.length new = k /\
    polls w' = (polls w + (if (k <? n)%nat then S k else k))%nat /\
    drawn w' = (drawn w + k)%nat /\
    files w' = files w /\
    written w' = written w /\
    generated_from env (drawn w) new.
Proof.
  induction n as [|n IH]; intros rl evs env w; cbn zeta.
  - exists rl, [], w. cbn. rewrite app_nil_r, !Nat.add_0_r.
    repeat split. intros [|i] e; discriminate.
  - cbn [fill_batch leading_false].
    unfold bind at 1. unfold read_shutdown_requested at 1.
    destruct (shutdown_requested env (polls w)) eqn:F.
    + eexists rl, [], _. rewrite app_nil_r. split; [reflexivity|].
      cbn. rewrite Nat.add_0_r.
      repeat split; try lia. intros [|i] e; discriminate.
    + set (w1 := mkWorld (ticks w) (S (polls w)) (drawn w) (files w) (effects w)).
      destruct (wait_frame rl env w1) as (rl1 & w2 & Ew & Hp2 & Hd2 & Hf2 & Hw2).
      destruct (generate_event_m_run env w2) as (e & He & Eg).
      destruct (IH rl1 (evs ++ [e]) env
                  (mkWorld (ticks w2) (polls w2) (S (drawn w2)) (files w2) (effects w2)))
        as (rl' & new & w' & Ef & Hlen & Hp & Hd & Hf & Hw & Hg).
      cbn [polls drawn files] in Hp, Hd, Hf, Hlen, Hg.
      rewrite Hp2 in Hp, Hlen, Hd. rewrite Hd2 in Hd, Hg, He. rewrite Hf2 in Hf.
      cbn [polls drawn files w1] in Hp, Hd, Hf, Hlen, Hg, He.
      exists rl', (e :: new), w'.
      split.
      { unfold bind. rewrite Ew, Eg, Ef.
        rewrite <- app_assoc. reflexivity. }
      set (k := leading_false (shutdown_requested env) (S (polls w)) n) in *.
      split; [cbn; lia|].
      split; [rewrite Hp;
              change (S k <? S n)%nat with (k <? n)%nat;
              destruct (k <? n)%nat; lia|].
      split; [lia|]. split; [assumption|].
      split; [rewrite Hw; unfold written; cbn [effects]; exact Hw2|].
      apply generated_from_cons; assumption.
Qed.

Lemma leading_false_raised (env : Env) (p from n : nat) :
  flag_raised_at env p -> (from <= p)%nat -> (p < from + n)%nat ->
  leading_false (shutdown_requested env) from n = (p - from)%nat.
Proof.
  intros Hflag. revert from.
  induction n as [|n IH]; intros from Hle Hlt; [lia|].
  cbn [leading_false]. rewrite (Hflag from).
  destruct (Nat.leb_spec p from) as [H|H].
  - lia.
  - rewrite IH by lia. lia.
Qed.

Lemma generator_loop_stop_flag (fuel : nat) (batch_size : Z) (duration : option Z)
    (output_dir : string) (start_time : Q) (rl : RateLimiter) (c : Counters)
    (env : Env) (w : World) :
  shutdown_requested env (polls w) = true ->
  generator_loop (S fuel) batch_size duration output_dir start_time rl c env w =
  (Ok (Stopped, c),
   mkWorld (ticks w) (S (polls w)) (drawn w) (files w) (effects w)).
Proof.
  intros F. cbn [generator_loop]. unfold bind at 1.
  unfold read_shutdown_requested at 1. rewrite F. reflexivity.
Qed.

Lemma generator_loop_stop_duration (fuel : nat) (batch_size : Z) (duration : option Z)
    (output_dir : string) (start_time : Q) (rl : RateLimiter) (c : Counters)
    (env : Env) (w : World) :
  shutdown_requested env (polls w) = false ->
  duration_expired duration start_time env w = true ->
  generator_loop (S fuel) batch_size duration output_dir start_time rl c env w =
  (Ok (Stopped, c),
   mkWorld (S (ticks w)) (S (polls w)) (drawn w) (files w) (effects w)).
Proof.
  intros F D. cbn [generator_loop]. unfold bind at 1.
  unfold read_shutdown_requested at 1. rewrite F.
  destruct duration as [d|]; [|discriminate D].
  unfold duration_expired in D.
  unfold bind, time_time, ret; cbn [ticks polls drawn files effects].
  rewrite D. reflexivity.
Qed.

(** One full iteration of the while loop. *)
Lemma generator_loop_iter (fuel : nat) (batch_size : Z) (duration : option Z)
    (output_dir : string) (start_time : Q) (rl : RateLimiter) (c : Counters)
    (env : Env) (w : World) :
  shutdown_requested env (polls w) = false ->
  duration_expired duration start_time env w = false ->
  let n := Z.to_nat batch_size in
  let k := leading_false (shutdown_requested env) (S (polls w)) n in
  exists rl' new w',
    generator_loop (S fuel) batch_size duration output_dir start_time rl c env w =
    generator_loop fuel batch_size duration output_dir start_time rl'
      (match new with
       | [] => c
       | _ :: _ => mkCounters (total_events c + Z.of_nat (List.length new))
                              (total_files c + 1)
       end) env w' /\
    List.length new = k /\
    generated_from env (drawn w) new /\
    polls w' = (S (polls w) + (if (k <? n)%nat then S k else k))%nat /\
    drawn w' = (drawn w + k)%nat /\
    written w' = written w ++ match new with [] => [] | _ :: _ => [new] end.
Proof.
  intros F D. cbn zeta.
  cbn [generator_loop]. unfold bind at 1.
  unfold read_shutdown_requested at 1. rewrite F.
  set (w1 := mkWorld (ticks w) (S (polls w)) (drawn w) (files w) (effects w)).
  assert (Hexp : exists wd,
             (match duration with
              | None => ret false
              | Some d => now <- time_time ;;
                          ret (Qle_bool (inject_Z d) (now - start_time))
              end) env w1 = (Ok false, wd) /\
             polls wd = S (polls w) /\ drawn wd = drawn w /\ files wd = files w /\
             effects wd = effects w).
  { destruct duration as [d|].
    - unfold duration_expired in D.
      unfold bind, time_time, ret; cbn [ticks polls drawn files effects w1].
      rewrite D. eexists; split; [reflexivity|]. cbn. auto.
    - exists w1. cbn. auto. }
  destruct Hexp as (wd & Ed & Hpd & Hdd & Hfd & Hed).
  unfold bind at 1. rewrite Ed.
  unfold bind at 1. unfold time_time at 1.
  set (wb := mkWorld (S (ticks wd)) (polls wd) (drawn wd) (files wd) (effects wd)).
  destruct (fill_batch_spec (Z.to_nat batch_size) rl [] env wb)
    as (rl' & new & w2 & Ef & Hlen & Hp & Hd & Hf & Hw & Hg).
  cbn [app] in Ef.
  cbn [polls drawn files wb] in Hlen, Hp, Hd, Hf, Hg.
  rewrite Hpd in Hlen, Hp, Hd. rewrite Hdd in Hd, Hg.
  assert (Hwb : written wb = written w)
    by (unfold written, wb; cbn [effects]; rewrite Hed; reflexivity).
  rewrite Hwb in Hw.
  unfold bind at 1. rewrite Ef.
  destruct new as [|e new].
  - exists rl', [], w2. cbn [List.length] in *.
    unfold bind at 1. unfold ret at 1.
    rewrite app_nil_r. repeat split; assumption.
  - unfold bind at 1. unfold bind at 1.
    unfold write_events_to_csv at 1. unfold time_time at 1. unfold ret at 1.
    eexists rl', (e :: new), _.
    split; [reflexivity|].
    cbn [polls drawn files effects].
    repeat split; try assumption.
    rewrite (written_app w2).
    rewrite Hw. reflexivity.
Qed.

(** C7. Take any iteration of the producer loop that starts a batch (the
    flag is still clear at the while test and the duration bound has not
    expired) and in which the shutdown flag is raised while the batch is
    being filled, so that it is first seen at the check after k events,
    k < batch_size.  Then exactly those k events are generated and no
    further one, they are written as one last batch file when k > 0 (no
    file at all when k = 0), the counters are updated for that file only,
    and the loop stops at its next test.  The flag is read k + 3 times:
    at the while test, before each of the k generated events, at the check
    that saw it raised, and at the final while test. *)
Theorem shutdown_during_batch (fuel : nat) (batch_size : Z) (duration : option Z)
    (output_dir : string) (start_time : Q) (rl : RateLimiter) (c : Counters)
    (env : Env) (w : World) (k : nat) :
  (k < Z.to_nat batch_size)%nat ->
  flag_raised_at env (polls w + 1 + k) ->
  duration_expired duration start_time env w = false ->
  exists c' w' events,
    generator_loop (S (S fuel)) batch_size duration output_dir start_time rl c env w
      = (Ok (Stopped, c'), w') /\
    drawn w' = (drawn w + k)%nat /\
    List.length events = k /\
    generated_from env (drawn w) events /\
    written w' = written w ++ (if (k =? 0)%nat then [] else [events]) /\
    c' = (if (k =? 0)%nat then c
          else mkCounters (total_events c + Z.of_nat k) (total_files c + 1)) /\
    polls w' = (polls w + k + 3)%nat.
Proof.
  intros Hk Hflag Hdur.
  assert (F0 : shutdown_requested env (polls w) = false).
  { rewrite (Hflag (polls w)). apply Nat.leb_gt. lia. }
  destruct (generator_loop_iter (S fuel) batch_size duration output_dir start_time
              rl c env w F0 Hdur)
    as (rl' & new & w' & Eloop & Hlen & Hgen & Hp & Hd & Hw).
  rewrite (leading_false_raised env (polls w + 1 + k)) in Hlen, Hp, Hd
    by (assumption || lia).
  replace (polls w + 1 + k - S (polls w))%nat with k in Hlen, Hp, Hd by lia.
  apply Nat.ltb_lt in Hk. rewrite Hk in Hp.
  assert (F1 : shutdown_requested env (polls w') = true).
  { rewrite (Hflag (polls w')). apply Nat.leb_le. lia. }
  eexists _, _, new.
  split; [rewrite Eloop; apply generator_loop_stop_flag; exact F1|].
  cbn [polls drawn].
  destruct new as [|e new]; cbn [List.length] in Hlen; subst k.
  - cbn [Nat.eqb]. repeat split; try assumption; try lia.
  - cbn [Nat.eqb]. repeat split; try assumption; try lia.
Qed.

Lemma shutdown_during_batch_witness :
  exists c' w' events,
    generator_loop 2 3 None "/app/data/raw" (clock env_example 2)
                   (limiter_example 10) (mkCounters 0 0)
                   env_example (mkWorld 3 1 0 0 [])
      = (Ok (Stopped, c'), w') /\
    drawn w' = (drawn (mkWorld 3 1 0 0 []) + 2)%nat /\
    List.length events = 2%nat /\
    generated_from env_example (drawn (mkWorld 3 1 0 0 [])) events /\
    written w' = written (mkWorld 3 1 0 0 []) ++ (if (2 =? 0)%nat then [] else [events]) /\
    c' = (if (2 =? 0)%nat then mkCounters 0 0
          else mkCounters (total_events (mkCounters 0 0) + Z.of_nat 2)
                          (total_files (mkCounters 0 0) + 1)) /\
    polls w' = (polls (mkWorld 3 1 0 0 []) + 2 + 3)%nat.
Proof.
  apply (shutdown_during_batch 0 3 None "/app/data/raw" (clock env_example 2)
           (limiter_example 10) (mkCounters 0 0) env_example (mkWorld 3 1 0 0 []) 2).
  - vm_compute. lia.
  - intros i. reflexivity.
  - reflexivity.
Defined.

(** The loop never raises; every file it writes has at least one row, and
    the counters grow by one file, and by its rows, per file written. *)
Lemma generator_loop_files (fuel : nat) (batch_size : Z) (duration : option Z)
    (output_dir : string) (start_time : Q) :
  forall (rl : RateLimiter) (c : Counters) (env : Env) (w : World),
  exists st c' w' new,
    generator_loop fuel batch_size duration output_dir start_time rl c env w
      = (Ok (st, c'), w') /\
    written w' = written w ++ new /\
    Forall (fun rows => rows <> []) new /\
    total_files c' = (total_files c + Z.of_nat (List.length new))%Z /\
    total_events c' = (total_events c + Z.of_nat (List.length (List.concat new)))%Z.
Proof.
  induction fuel as [|fuel IH]; intros rl c env w.
  - exists Running, c, w, []. cbn. rewrite app_nil_r.
    repeat split; try lia. constructor.
  - destruct (shutdown_requested env (polls w)) eqn:F.
    { rewrite generator_loop_stop_flag by exact F.
      eexists _, _, _, []. split; [reflexivity|].
      unfold written; cbn. rewrite app_nil_r.
      repeat split; try lia. constructor. }
    destruct (duration_expired duration start_time env w) eqn:D.
    { rewrite generator_loop_stop_duration by assumption.
      eexists _, _, _, []. split; [reflexivity|].
      unfold written; cbn. rewrite app_nil_r.
      repeat split; try lia. constructor. }
    destruct (generator_loop_iter fuel batch_size duration output_dir start_time
                rl c env w F D)
      as (rl' & new & w1 & Eloop & _ & _ & _ & _ & Hw).
    rewrite Eloop.
    match type of Eloop with
    | _ = generator_loop _ _ _ _ _ _ ?c1 _ _ =>
        destruct (IH rl' c1 env w1) as (st & c' & w' & more & E & Hw' & Hall & Hf & He)
    end.
    destruct new as [|e new].
    + exists st, c', w', more. rewrite app_nil_r in Hw.
      rewrite Hw in Hw'. repeat split; assumption.
    + exists st, c', w', ((e :: new) :: more).
      rewrite Hw, <- app_assoc in Hw'. cbn [app] in Hw'.
      cbn [total_files total_events] in Hf, He.
      split; [exact E|]. split; [exact Hw'|].
      split; [constructor; [discriminate | exact Hall]|].
      cbn [List.concat]. rewrite length_app. cbn [List.length] in *. lia.
Qed.

(** C10. In every run of the producer, for any number of loop
    iterations and any behaviour of clock, flag and random source, each
    batch file written has at least one event row, and at the end
    total_files is the number of files written in the run and total_events
    the number of rows in them. *)
Theorem no_empty_batch_file (fuel : nat) (events_per_second batch_size : Z)
    (duration : option Z) (output_dir : string) (env : Env) (w : World) :
  exists st c w' new,
    run_generator fuel events_per_second batch_size duration output_dir env w
      = (Ok (st, c), w') /\
    written w' = written w ++ new /\
    Forall (fun rows => rows <> []) new /\
    total_files c = Z.of_nat (List.length new) /\
    total_events c = Z.of_nat (List.length (List.concat new)).
Proof.
  unfold run_generator, RateLimiter_init.
  unfold bind at 1. unfold bind at 1. unfold time_time at 1.
  unfold bind at 1. unfold time_time at 1. unfold ret at 1.
  unfold bind at 1. unfold time_time at 1.
  match goal with
  | |- context [generator_loop fuel batch_size duration output_dir ?st ?rl ?c0 env ?w0] =>
      destruct (generator_loop_files fuel batch_size duration output_dir st rl c0 env w0)
        as (s & c & w' & new & E & Hw & Hall & Hf & He)
  end.
  rewrite E.
  exists s, c, (snd (time_time env w')), new.
  split; [reflexivity|].
  split; [exact Hw|]. split; [exact Hall|].
  cbn [total_files total_events] in Hf, He. lia.
Qed.

(* ===================================================================== *)
(** * Part V: properties of the streaming job                            *)
(* ===================================================================== *)

(** ** Validation *)

Lemma and_cell_true (skips : bool) (a b : Cell) :
  and_cell skips a b = Flag true <-> a = Flag true /\ b = Flag true.
Proof.
  destruct skips, a as [| | | |[|]|], b as [| | | |[|]|]; cbn;
    split; try discriminate; try (intros [? ?]; discriminate); auto.
Qed.

Lemma not_null_trim_str (o : option string) :
  not_null (trim_cell (str_cell o)) = Flag true <-> o <> None.
Proof. destruct o; cbn; split; congruence. Qed.

Lemma isin_lower_trim_str (values : list string) (o : option string) :
  isin_cell values (lower_cell (trim_cell (str_cell o))) = Flag true <->
  exists t, o = Some t /\ In (lower_string (trim_string t)) values.
Proof.
  destruct o as [t|]; cbn.
  - split.
    + intros [= H]. apply existsb_exists in H as (v & Hin & Heq).
      apply String.eqb_eq in Heq. subst v. eauto.
    + intros (t' & [= <-] & Hin). f_equal. apply existsb_exists.
      exists (lower_string (trim_string t)). split; [assumption|].
      apply String.eqb_refl.
  - split; [discriminate | intros (t & H & _); discriminate].
Qed.

(** [price > 0] holds of the positive numbers, of positive infinity and
    of NaN. *)
Lemma double_gt_zero (p : Double) :
  double_gt p (Finite 0) = true <-> exceeds_zero p.
Proof.
  unfold exceeds_zero. destruct p as [x| | |]; cbn.
  - split.
    + intros H. left. exists x. split; [reflexivity|].
      destruct (Qlt_le_dec 0 x) as [|Hle]; [assumption|].
      apply Qle_bool_iff in Hle. rewrite Hle in H. discriminate.
    + intros [(x' & [= <-] & Hx) | [H | H]]; try discriminate.
      destruct (Qle_bool x 0) eqn:E; [|reflexivity].
      apply Qle_bool_iff in E. lra.
  - split; auto.
  - split; [discriminate|]. intros [(x & H & _) | [H | H]]; discriminate.
  - split; auto.
Qed.

Lemma gt_zero_dbl (o : option Double) :
  gt_cell 0 (dbl_cell o) = Flag true <-> exists p, o = Some p /\ exceeds_zero p.
Proof.
  destruct o as [p|]; cbn.
  - split.
    + intros [= H]. apply double_gt_zero in H. eauto.
    + intros (p' & [= <-] & Hp). f_equal. apply double_gt_zero. exact Hp.
  - split; [discriminate | intros (p & H & _); discriminate].
Qed.

Lemma first_raised_app (l1 l2 : list Cell) :
  first_raised (l1 ++ l2) =
  match first_raised l1 with
  | Some msg => Some msg
  | None => first_raised l2
  end.
Proof.
  unfold first_raised. induction l1 as [|v l1 IH]; [reflexivity|].
  cbn [app find]. destruct v; try exact IH; reflexivity.
Qed.

Lemma first_raised_none (l : list Cell) :
  first_raised l = None <-> forall msg, ~ In (Raised msg) l.
Proof.
  unfold first_raised. induction l as [|v l IH]; cbn [find].
  - split; [intros _ msg [] | reflexivity].
  - destruct v as [| | | | |m].
    1-5: rewrite IH; split;
      [ intros H msg [C|C]; [discriminate | exact (H msg C)]
      | intros H msg C; exact (H msg (or_intror C)) ].
    split; [discriminate|]. intros H. exfalso. exact (H m (or_introl eq_refl)).
Qed.

Section ValidationFacts.

Variable parse_timestamp : string -> string -> Parse.
Variable skips_operand : Row -> bool.


(** The first five tests never raise. *)
Lemma field_checks_flag (e : CsvRecord) :
  field_checks parse_timestamp skips_operand e = Null \/
  exists b, field_checks parse_timestamp skips_operand e = Flag b.
Proof.
  unfold field_checks.
  destruct (skips_operand _), (raw_event_id e), (raw_user_id e), (raw_product_id e),
    (raw_event_type e) as [t|], (raw_price e) as [p|];
    cbn [str_cell dbl_cell trim_cell lower_cell not_null isin_cell gt_cell];
    try destruct (existsb _ _); try destruct (double_gt _ _);
    cbn; eauto.
Qed.

(** The validated row of a record: its cleaned row and its flag. *)
Lemma validated_df_batch (records : list CsvRecord) :
  validated_df parse_timestamp skips_operand (read_batch records) =
  map (fun e => invalid_row parse_timestamp e ++
                [ ("is_valid", is_valid_of parse_timestamp skips_operand e) ])
      records.
Proof.
  unfold validated_df, read_batch, withColumn. cbn [fold_left].
  rewrite !map_map. apply map_ext. intros [o1 o2 o3 o4 o5 o6 o7 o8].
  unfold is_valid_of, field_checks, invalid_row.
  unfold is_valid_expr, row_of_record.
  unfold trim, lower, to_timestamp, isNotNull, isin, gt, and_, col.
  cbn -[and_cell not_null trim_cell lower_cell isin_cell gt_cell parse_cell
        str_cell dbl_cell].
  reflexivity.
Qed.

(** What [clean_and_validate_data] makes of a single record. *)
Lemma clean_and_validate_record (e : CsvRecord) :
  clean_and_validate_data parse_timestamp skips_operand (read_batch [e]) =
  (match is_valid_of parse_timestamp skips_operand e with
   | Flag true => [valid_row parse_timestamp e]
   | _ => []
   end,
   match is_valid_of parse_timestamp skips_operand e with
   | Flag false => [invalid_row parse_timestamp e]
   | _ => []
   end).
Proof.
  unfold clean_and_validate_data. rewrite validated_df_batch.
  destruct e as [o1 o2 o3 o4 o5 o6 o7 o8].
  unfold valid_row, invalid_row.
  unfold eq_flag, col, filter_rows, drop.
  cbn -[and_cell not_null trim_cell lower_cell isin_cell gt_cell parse_cell
        eq_flag_cell str_cell dbl_cell is_valid_of].
  destruct (is_valid_of parse_timestamp skips_operand _)
    as [| s | x | t | [|] | m]; reflexivity.
Qed.

(** The two outputs are computed record by record. *)
Lemma clean_and_validate_app (df1 df2 : DataFrame) :
  clean_and_validate_data parse_timestamp skips_operand (df1 ++ df2) =
  (fst (clean_and_validate_data parse_timestamp skips_operand df1) ++
   fst (clean_and_validate_data parse_timestamp skips_operand df2),
   snd (clean_and_validate_data parse_timestamp skips_operand df1) ++
   snd (clean_and_validate_data parse_timestamp skips_operand df2)).
Proof.
  unfold clean_and_validate_data, validated_df, withColumn, filter_rows, drop.
  cbn [fold_left fst snd].
  rewrite !map_app, !filter_app, !map_app. reflexivity.
Qed.

Lemma clean_and_validate_batch (records : list CsvRecord) :
  clean_and_validate_data parse_timestamp skips_operand (read_batch records) =
  (flat_map (fun e => match is_valid_of parse_timestamp skips_operand e with
                      | Flag true => [valid_row parse_timestamp e]
                      | _ => []
                      end) records,
   flat_map (fun e => match is_valid_of parse_timestamp skips_operand e with
                      | Flag false => [invalid_row parse_timestamp e]
                      | _ => []
                      end) records).
Proof.
  induction records as [|e records IH]; [reflexivity|].
  change (read_batch (e :: records)) with (read_batch [e] ++ read_batch records).
  rewrite clean_and_validate_app, IH, clean_and_validate_record.
  reflexivity.
Qed.

(** The exception of the validation is the first one that computing the
    flag of a record raises. *)
Lemma validation_error_batch (records : list CsvRecord) :
  validation_error parse_timestamp skips_operand (read_batch records) =
  first_raised (map (is_valid_of parse_timestamp skips_operand) records).
Proof.
  unfold validation_error, column_error.
  rewrite validated_df_batch, map_map. reflexivity.
Qed.

Lemma is_valid_of_true (e : CsvRecord) :
  is_valid_of parse_timestamp skips_operand e = Flag true <->
  (raw_event_id e <> None /\ raw_user_id e <> None /\ raw_product_id e <> None /\
   (exists t, raw_event_type e = Some t /\
              In (lower_string (trim_string t)) VALID_EVENT_TYPES) /\
   (exists p, raw_price e = Some p /\ exceeds_zero p) /\
   (exists text instant,
       raw_timestamp e = Some text /\
       parse_timestamp text "yyyy-MM-dd HH:mm:ss" = Parsed instant)).
Proof.
  unfold is_valid_of, field_checks.
  rewrite !and_cell_true, !not_null_trim_str, isin_lower_trim_str, gt_zero_dbl.
  assert (Hts : not_null (parse_cell parse_timestamp "yyyy-MM-dd HH:mm:ss"
                                     (str_cell (raw_timestamp e))) = Flag true <->
                exists text instant,
                  raw_timestamp e = Some text /\
                  parse_timestamp text "yyyy-MM-dd HH:mm:ss" = Parsed instant).
  { destruct (raw_timestamp e) as [text|]; cbn.
    - destruct (parse_timestamp text "yyyy-MM-dd HH:mm:ss") as [i| |m] eqn:E; cbn.
      + split; [intros _; eauto | reflexivity].
      + split; [discriminate|]. intros (t' & i & [= <-] & H). congruence.
      + split; [discriminate|]. intros (t' & i & [= <-] & H). congruence.
    - split; [discriminate | intros (t & i & H & _); discriminate]. }
  rewrite Hts. tauto.
Qed.

(** Computing the flag raises exactly when the parser raises on the
    timestamp, unless one of the other tests is false and the engine
    skips the parser for that reason. *)
Lemma is_valid_of_raised (e : CsvRecord) (msg : string) :
  is_valid_of parse_timestamp skips_operand e = Raised msg <->
  (exists text, raw_timestamp e = Some text /\
                parse_timestamp text "yyyy-MM-dd HH:mm:ss" = ParserRaises msg) /\
  (field_checks parse_timestamp skips_operand e = Flag false ->
   skips_operand (invalid_row parse_timestamp e) = false).
Proof.
  unfold is_valid_of.
  assert (Hts : forall m,
             not_null (parse_cell parse_timestamp "yyyy-MM-dd HH:mm:ss"
                                  (str_cell (raw_timestamp e))) = Raised m <->
             exists text, raw_timestamp e = Some text /\
                          parse_timestamp text "yyyy-MM-dd HH:mm:ss" = ParserRaises m).
  { intros m. destruct (raw_timestamp e) as [text|]; cbn.
    - destruct (parse_timestamp text "yyyy-MM-dd HH:mm:ss") as [i| |m'] eqn:E; cbn.
      + split; [discriminate|]. intros (t' & [= <-] & H). congruence.
      + split; [discriminate|]. intros (t' & [= <-] & H). congruence.
      + split; [intros [= <-]; eauto|]. intros (t' & [= <-] & H). congruence.
    - split; [discriminate | intros (t & H & _); discriminate]. }
  rewrite <- Hts.
  destruct (field_checks_flag e) as [-> | ([|] & ->)];
    destruct (not_null _) as [| | | |[|]|m]; destruct (skips_operand _); cbn;
    split; try discriminate; try (intros [H _]; discriminate H);
    try (intros [= <-]; split; [reflexivity|]; intros; try reflexivity; discriminate);
    try (intros [[= <-] _]; reflexivity);
    try (intros [_ H]; specialize (H eq_refl); discriminate H).
Qed.

End ValidationFacts.

(** C1 fails as stated: a record whose [user_id] is blank, so that its
    trimmed value is the empty string, and whose other fields are in
    order is classified valid, not invalid. *)
Lemma blank_user_id_is_valid :
  option_map trim_string (raw_user_id record_blank_user) = Some "" /\
  classified_valid strict_parse_timestamp short_circuit record_blank_user = true /\
  classified_invalid strict_parse_timestamp short_circuit record_blank_user = false.
Proof. vm_compute. repeat split. Qed.

(** A price that is not a number passes the test [price > 0]. *)
Example nan_price_is_valid :
  classified_valid strict_parse_timestamp short_circuit record_nan_price = true.
Proof. vm_compute. reflexivity. Qed.

(** A timestamp that only the lenient reading accepts: the record is in
    neither output, and the validation of its batch raises. *)
Example legacy_timestamp_raises :
  classified_valid strict_parse_timestamp short_circuit record_legacy_timestamp = false /\
  classified_invalid strict_parse_timestamp short_circuit record_legacy_timestamp = false /\
  validation_error strict_parse_timestamp short_circuit
    (read_batch [ record_null_user; record_legacy_timestamp ])
  = Some "SparkUpgradeException".
Proof. vm_compute. repeat split. Qed.

(** C1, amended. The validation step classifies a record as valid if
    and only if event_id, user_id and product_id are all non-null (an
    empty string passes), the trimmed, lower-cased event_type is one of
    view, add_to_cart, purchase, price > 0 in the engine's ordering of
    doubles (a positive number, positive infinity or NaN), and the
    timestamp parses with the pattern yyyy-MM-dd HH:mm:ss.  A record
    whose user_id is null is never classified valid: it is classified
    invalid, unless the parser raises on its timestamp and the engine
    evaluated it, in which case the validation of the batch raises that
    exception.  A record that passes the other five tests and on whose
    timestamp the parser raises is in neither output, and the validation
    of its batch raises. *)
Theorem validation_rule (parse_timestamp : string -> string -> Parse)
    (skips_operand : Row -> bool) (e : CsvRecord) :
  (classified_valid parse_timestamp skips_operand e = true <->
   (raw_event_id e <> None /\ raw_user_id e <> None /\ raw_product_id e <> None /\
    (exists t, raw_event_type e = Some t /\
               In (lower_string (trim_string t)) [ "view"; "add_to_cart"; "purchase" ]) /\
    (exists p, raw_price e = Some p /\
               ((exists x, p = Finite x /\ (0 < x)%Q) \/ p = PosInf \/ p = NaN)) /\
    (exists text instant,
        raw_timestamp e = Some text /\
        parse_timestamp text "yyyy-MM-dd HH:mm:ss" = Parsed instant))) /\
  (raw_user_id e = None ->
   classified_valid parse_timestamp skips_operand e = false /\
   (classified_invalid parse_timestamp skips_operand e = true \/
    exists text msg,
      raw_timestamp e = Some text /\
      parse_timestamp text "yyyy-MM-dd HH:mm:ss" = ParserRaises msg /\
      validation_error parse_timestamp skips_operand (read_batch [e]) = Some msg)) /\
  (forall text msg,
     raw_event_id e <> None -> raw_user_id e <> None -> raw_product_id e <> None ->
     (exists t, raw_event_type e = Some t /\
                In (lower_string (trim_string t)) [ "view"; "add_to_cart"; "purchase" ]) ->
     (exists p, raw_price e = Some p /\
                ((exists x, p = Finite x /\ (0 < x)%Q) \/ p = PosInf \/ p = NaN)) ->
     raw_timestamp e = Some text ->
     parse_timestamp text "yyyy-MM-dd HH:mm:ss" = ParserRaises msg ->
     classified_valid parse_timestamp skips_operand e = false /\
     classified_invalid parse_timestamp skips_operand e = false /\
     validation_error parse_timestamp skips_operand (read_batch [e]) = Some msg).
Proof.
  unfold classified_valid, classified_invalid.
  rewrite clean_and_validate_record, validation_error_batch. cbn [fst snd map].
  split; [|split].
  - rewrite <- (is_valid_of_true parse_timestamp skips_operand e).
    destruct (is_valid_of parse_timestamp skips_operand e) as [| | | |[|]|]; cbn;
      split; congruence.
  - intros Hnull.
    assert (Hchecks : field_checks parse_timestamp skips_operand e = Flag false).
    { unfold field_checks. rewrite Hnull.
      destruct (skips_operand _), (raw_event_id e), (raw_product_id e),
        (raw_event_type e), (raw_price e);
        cbn [str_cell dbl_cell trim_cell lower_cell not_null isin_cell gt_cell];
        try destruct (existsb _ _); try destruct (double_gt _ _); reflexivity. }
    unfold is_valid_of. rewrite Hchecks.
    destruct (raw_timestamp e) as [text|]; cbn [str_cell parse_cell not_null].
    2:{ destruct (skips_operand _); cbn; (split; [reflexivity | left; reflexivity]). }
    destruct (parse_timestamp text "yyyy-MM-dd HH:mm:ss") as [i| |m] eqn:E;
      cbn [not_null].
    + destruct (skips_operand _); cbn; (split; [reflexivity | left; reflexivity]).
    + destruct (skips_operand _); cbn; (split; [reflexivity | left; reflexivity]).
    + destruct (skips_operand _); cbn.
      * split; [reflexivity | left; reflexivity].
      * split; [reflexivity|]. right. exists text, m. repeat split. exact E.
  - intros text msg H1 H2 H3 H4 H5 H6 H7.
    assert (Hr : is_valid_of parse_timestamp skips_operand e = Raised msg).
    { apply is_valid_of_raised. split; [eauto|].
      intros Hf. exfalso.
      assert (Ht : field_checks parse_timestamp skips_operand e = Flag true).
      { unfold field_checks. rewrite !and_cell_true, !not_null_trim_str,
          isin_lower_trim_str, gt_zero_dbl. tauto. }
      congruence. }
    rewrite Hr. cbn. repeat split.
Qed.

Lemma validation_rule_witness :
  classified_valid strict_parse_timestamp short_circuit record_null_user = false /\
  (classified_invalid strict_parse_timestamp short_circuit record_null_user = true \/
   exists text msg,
     raw_timestamp record_null_user = Some text /\
     strict_parse_timestamp text "yyyy-MM-dd HH:mm:ss" = ParserRaises msg /\
     validation_error strict_parse_timestamp short_circuit
       (read_batch [ record_null_user ]) = Some msg).
Proof.
  apply (proj1 (proj2 (validation_rule strict_parse_timestamp short_circuit
                         record_null_user))).
  reflexivity.
Defined.

(** ** Quarantine *)

(** C5 fails as stated: the quarantined row of a record without
    user_id carries the column event_timestamp, which is not a source
    column. *)
Lemma quarantine_has_extra_column :
  exists row,
    In row (snd (clean_and_validate_data strict_parse_timestamp short_circuit
                   (read_batch [record_null_user]))) /\
    In "event_timestamp" (columns row) /\
    ~ In "event_timestamp" get_event_schema /\
    columns row <> get_event_schema.
Proof.
  eexists. split; [vm_compute; left; reflexivity|].
  split; [vm_compute; tauto|].
  split; [|discriminate].
  cbn. intros H. repeat (destruct H as [H|H]; [discriminate H|]). exact H.
Qed.

(** C5, amended. Every record routed to quarantine keeps the eight
    source columns, in the order of the source, and carries one more
    column, the derived event_timestamp; only the is_valid flag is
    removed.  The string columns hold the trimmed (event_type also
    lower-cased) values.  [write_errors] hands exactly these rows to the
    CSV writer, under the directory of the batch. *)
Theorem quarantine_columns (parse_timestamp : string -> string -> Parse)
    (skips_operand : Row -> bool)
    (records : list CsvRecord) (batch_id : Z) (env : JobEnv) (w : JobWorld) :
  let invalid_df :=
    snd (clean_and_validate_data parse_timestamp skips_operand
           (read_batch records)) in
  Forall (fun row =>
            columns row = get_event_schema ++ [ "event_timestamp" ] /\
            ~ In "is_valid" (columns row) /\
            exists e, In e records /\ row = invalid_row parse_timestamp e)
         invalid_df /\
  exists w',
    write_errors invalid_df batch_id env w = (Ok tt, w') /\
    journal w' =
      journal w ++
      [ CsvSave ((BASE_PATH env ++ "/data/error") ++ "/batch_" ++ str_of_int batch_id)%string
                invalid_df ].
Proof.
  cbv zeta. split.
  - rewrite clean_and_validate_batch. cbn [snd].
    apply Forall_forall. intros row Hin.
    apply in_flat_map in Hin as (e & He & Hrow).
    destruct (is_valid_of parse_timestamp skips_operand e) as [| | | |[|]|];
      try contradiction.
    destruct Hrow as [<-|[]].
    split; [reflexivity|]. split; [|eauto].
    cbn. intros H. repeat (destruct H as [H|H]; [discriminate H|]). exact H.
  - unfold write_errors, try_except, bind, ERROR_PATH, csv_overwrite.
    destruct (frame_error _); [|destruct (csv_save env (csv_writes w))];
      eexists; split; reflexivity.
Qed.

(** ** Deduplication *)

Lemma instant_eqb_eq (a b : Instant) : instant_eqb a b = true <-> a = b.
Proof.
  destruct a, b; unfold instant_eqb; cbn.
  rewrite !andb_true_iff, !Nat.eqb_eq.
  split; [intros [[[[[-> ->] ->] ->] ->] ->]; reflexivity | intros [= -> -> -> -> -> ->]; auto 10].
Qed.

Lemma double_eqb_refl (a : Double) : double_eqb a a = true.
Proof. destruct a; cbn; [apply Qeq_bool_refl | reflexivity..]. Qed.

Lemma double_eqb_sym (a b : Double) : double_eqb a b = double_eqb b a.
Proof. destruct a, b; cbn; try reflexivity. apply Qeq_bool_comm. Qed.

Lemma double_eqb_trans (a b c : Double) :
  double_eqb a b = true -> double_eqb b c = true -> double_eqb a c = true.
Proof.
  destruct a, b, c; cbn; try discriminate; try reflexivity.
  apply Qeq_bool_trans.
Qed.

Lemma cell_eqb_refl (a : Cell) : cell_eqb a a = true.
Proof.
  destruct a as [| s | x | t | b | m]; cbn.
  - reflexivity.
  - apply String.eqb_refl.
  - apply double_eqb_refl.
  - apply instant_eqb_eq; reflexivity.
  - destruct b; reflexivity.
  - apply String.eqb_refl.
Qed.

Lemma cell_eqb_sym (a b : Cell) : cell_eqb a b = cell_eqb b a.
Proof.
  destruct a as [| s | x | t | u | m], b as [| s' | x' | t' | u' | m'];
    cbn; try reflexivity.
  - apply String.eqb_sym.
  - apply double_eqb_sym.
  - destruct (instant_eqb t t') eqn:E, (instant_eqb t' t) eqn:E'; try reflexivity.
    + apply instant_eqb_eq in E; subst. rewrite (proj2 (instant_eqb_eq t' t')) in E'; congruence.
    + apply instant_eqb_eq in E'; subst. rewrite (proj2 (instant_eqb_eq t t)) in E; congruence.
  - destruct u, u'; reflexivity.
  - apply String.eqb_sym.
Qed.

Lemma cell_eqb_trans (a b c : Cell) :
  cell_eqb a b = true -> cell_eqb b c = true -> cell_eqb a c = true.
Proof.
  destruct a as [| s | x | t | u | m], b as [| s' | x' | t' | u' | m'],
    c as [| s'' | x'' | t'' | u'' | m''];
    cbn; try discriminate; try reflexivity.
  - rewrite !String.eqb_eq. congruence.
  - apply double_eqb_trans.
  - rewrite !instant_eqb_eq. congruence.
  - destruct u, u', u''; cbn; congruence.
  - rewrite !String.eqb_eq. congruence.
Qed.

Lemma filter_none {A : Type} (f : A -> bool) (l : list A) :
  (forall x, In x l -> f x = false) -> filter f l = [].
Proof.
  induction l as [|a l IH]; intros H; [reflexivity|].
  cbn [filter]. rewrite (H a (or_introl eq_refl)).
  apply IH. intros x Hx. apply H. right. exact Hx.
Qed.

Section SameKey.

Variable subset : list string.

Lemma same_key_refl (r : Row) : same_key subset r r = true.
Proof. apply forallb_forall. intros n _. apply cell_eqb_refl. Qed.

Lemma same_key_sym (r1 r2 : Row) : same_key subset r1 r2 = same_key subset r2 r1.
Proof.
  unfold same_key. induction subset as [|n names IH]; [reflexivity|].
  cbn [forallb]. rewrite IH, (cell_eqb_sym (col n r1)). reflexivity.
Qed.

Lemma same_key_trans (r1 r2 r3 : Row) :
  same_key subset r1 r2 = true -> same_key subset r2 r3 = true ->
  same_key subset r1 r3 = true.
Proof.
  unfold same_key. rewrite !forallb_forall. intros H12 H23 n Hn.
  exact (cell_eqb_trans _ _ _ (H12 n Hn) (H23 n Hn)).
Qed.

Lemma not_seen (r : Row) (seen : list Row) :
  existsb (same_key subset r) seen = false ->
  forall s, In s seen -> same_key subset r s = false.
Proof.
  intros H s Hs. destruct (same_key subset r s) eqn:E; [|reflexivity].
  assert (existsb (same_key subset r) seen = true)
    by (apply existsb_exists; eauto).
  congruence.
Qed.

(** Every row kept is new with respect to [seen] and is the first row of
    the input with its key. *)
Lemma dropDuplicates_from_first (df : DataFrame) :
  forall seen r,
    In r (dropDuplicates_from seen subset df) ->
    existsb (same_key subset r) seen = false /\
    find (same_key subset r) df = Some r.
Proof.
  induction df as [|r0 rest IH]; intros seen r Hin; [contradiction|].
  cbn [dropDuplicates_from] in Hin.
  destruct (existsb (same_key subset r0) seen) eqn:Hseen.
  - destruct (IH seen r Hin) as [Hnew Hfind]. split; [assumption|].
    cbn [find].
    destruct (same_key subset r r0) eqn:E; [|assumption].
    apply existsb_exists in Hseen as (s & Hs & Hrs).
    pose proof (not_seen r seen Hnew s Hs) as Hns.
    pose proof (same_key_trans _ _ _ E Hrs). congruence.
  - destruct Hin as [<-|Hin].
    + split; [assumption|]. cbn [find]. rewrite same_key_refl. reflexivity.
    + destruct (IH (r0 :: seen) r Hin) as [Hnew Hfind].
      cbn [existsb] in Hnew. apply orb_false_iff in Hnew as [Hr0 Hnew].
      split; [assumption|]. cbn [find]. rewrite Hr0. assumption.
Qed.

(** No two rows kept share a key. *)
Lemma dropDuplicates_from_distinct (df : DataFrame) :
  forall seen,
    ForallOrdPairs (fun a b => same_key subset a b = false)
                   (dropDuplicates_from seen subset df).
Proof.
  induction df as [|r0 rest IH]; intros seen; cbn [dropDuplicates_from].
  - constructor.
  - destruct (existsb (same_key subset r0) seen); [apply IH|].
    constructor; [|apply IH].
    apply Forall_forall. intros b Hb.
    destruct (dropDuplicates_from_first rest (r0 :: seen) b Hb) as [Hnew _].
    cbn [existsb] in Hnew. apply orb_false_iff in Hnew as [Hb0 _].
    rewrite same_key_sym. exact Hb0.
Qed.

(** Every key of the input is represented, among the rows seen before or
    among the rows kept. *)
Lemma dropDuplicates_from_complete (df : DataFrame) :
  forall seen r,
    In r df ->
    existsb (same_key subset r) seen = true \/
    exists kept, In kept (dropDuplicates_from seen subset df) /\
                 same_key subset kept r = true.
Proof.
  induction df as [|r0 rest IH]; intros seen r Hin; [contradiction|].
  cbn [dropDuplicates_from].
  destruct (existsb (same_key subset r0) seen) eqn:Hseen.
  - destruct Hin as [<-|Hin]; [left; assumption | apply IH; assumption].
  - destruct Hin as [<-|Hin].
    + right. exists r0. split; [left; reflexivity | apply same_key_refl].
    + destruct (IH (r0 :: seen) r Hin) as [Hs | (kept & Hk & Hkr)].
      * cbn [existsb] in Hs. apply orb_true_iff in Hs as [Hr0 | Hs]; [|left; assumption].
        right. exists r0. split; [left; reflexivity|].
        rewrite same_key_sym. exact Hr0.
      * right. exists kept. split; [right; assumption | assumption].
Qed.

(** Among rows with pairwise distinct keys, the rows with the key of [r]
    are the single representative of that key. *)
Lemma distinct_keys_filter (out : DataFrame) (kept r : Row) :
  ForallOrdPairs (fun a b => same_key subset a b = false) out ->
  In kept out -> same_key subset kept r = true ->
  filter (same_key subset r) out = [kept].
Proof.
  intros Hd. induction Hd as [|a l Ha _ IH]; intros Hin Hkr; [contradiction|].
  cbn [filter]. rewrite Forall_forall in Ha.
  destruct Hin as [->|Hin].
  - rewrite same_key_sym, Hkr. f_equal.
    apply filter_none. intros x Hx.
    destruct (same_key subset r x) eqn:E; [|reflexivity].
    pose proof (same_key_trans _ _ _ Hkr E) as Hkx.
    rewrite (Ha x Hx) in Hkx. discriminate.
  - destruct (same_key subset r a) eqn:E.
    + pose proof (same_key_trans _ _ _ Hkr E) as Hka.
      rewrite same_key_sym, (Ha kept Hin) in Hka. discriminate.
    + apply IH; assumption.
Qed.

End SameKey.

Lemma find_ext {A : Type} (f g : A -> bool) (l : list A) :
  (forall x, f x = g x) -> find f l = find g l.
Proof.
  intros H. induction l as [|a l IH]; [reflexivity|].
  cbn [find]. rewrite H, IH. reflexivity.
Qed.

Lemma same_key_class (subset : list string) (r kept x : Row) :
  same_key subset kept r = true ->
  same_key subset r x = same_key subset kept x.
Proof.
  intros Hkr.
  destruct (same_key subset r x) eqn:E1, (same_key subset kept x) eqn:E2;
    try reflexivity.
  - pose proof (same_key_trans subset _ _ _ Hkr E1). congruence.
  - rewrite same_key_sym in Hkr.
    pose proof (same_key_trans subset _ _ _ Hkr E2). congruence.
Qed.

(** *** The engine's order *)

Lemma insert_by_perm (engine_rank : Row -> nat) (r : Row) (l : list Row) :
  Permutation (insert_by engine_rank r l) (r :: l).
Proof.
  induction l as [|s l IH]; cbn [insert_by]; [reflexivity|].
  destruct (engine_rank r <=? engine_rank s)%nat; [reflexivity|].
  rewrite IH. apply perm_swap.
Qed.

(** The engine meets every row of the batch, each once. *)
Lemma engine_order_perm (engine_rank : Row -> nat) (df : DataFrame) :
  Permutation (engine_order engine_rank df) df.
Proof.
  induction df as [|r df IH]; cbn [engine_order fold_right]; [reflexivity|].
  rewrite insert_by_perm. apply perm_skip. exact IH.
Qed.

Lemma engine_order_In (engine_rank : Row -> nat) (df : DataFrame) (r : Row) :
  In r (engine_order engine_rank df) <-> In r df.
Proof.
  split; apply Permutation_in;
    [|symmetry]; apply engine_order_perm.
Qed.

(** Rows of equal rank stay in input order. *)
Lemma engine_order_input (df : DataFrame) : engine_order input_order df = df.
Proof.
  induction df as [|r df IH]; [reflexivity|].
  cbn [engine_order fold_right]. fold (engine_order input_order df). rewrite IH.
  destruct df; reflexivity.
Qed.

Lemma pairwise_perm {A : Type} (R : A -> A -> Prop) (l l' : list A) :
  (forall a b, R a b -> R b a) ->
  Permutation l l' -> ForallOrdPairs R l -> ForallOrdPairs R l'.
Proof.
  intros Hsym Hp. induction Hp as [| x l l' Hp IH | x y l | l l' l'' _ IH1 _ IH2];
    intros H.
  - constructor.
  - inversion H as [|a k Hx Hl]; subst. constructor; [|apply IH; exact Hl].
    apply (Permutation_Forall Hp). exact Hx.
  - inversion H as [|a k Hy Hl]; subst.
    inversion Hl as [|a k Hx Hl']; subst.
    inversion Hy as [|a k Hyx Hyl]; subst.
    constructor; [constructor; [apply Hsym; exact Hyx | exact Hx]|].
    constructor; assumption.
  - apply IH2, IH1, H.
Qed.

Lemma subsequence_perm {A : Type} (l1 l2 : list A) :
  subsequence l1 l2 -> exists dropped, Permutation l2 (l1 ++ dropped).
Proof.
  induction 1 as [| a l1 l2 _ [d IH] | a l1 l2 _ [d IH]].
  - exists []. reflexivity.
  - exists (a :: d). rewrite IH. apply Permutation_middle.
  - exists d. cbn [app]. apply perm_skip. exact IH.
Qed.

(** C4 fails as stated: which of the records that share an event_id is
    kept is the engine's choice, not the first of the input.  An engine
    that meets the rows of user_99999999 first keeps the second of two
    records with event_id e1; one that meets the rows of e1 first returns
    the batch e2, e1 in the order e1, e2. *)
Lemma deduplicate_keeps_engine_choice :
  deduplicate_events rank_user_99999999_first [ row_e1_first; row_e1_second ]
    = [ row_e1_second ] /\
  deduplicate_events input_order [ row_e1_first; row_e1_second ]
    = [ row_e1_first ] /\
  deduplicate_events rank_e1_first [ row_e2; row_e1_first ]
    = [ row_e1_first; row_e2 ].
Proof. vm_compute. repeat split. Qed.

(** C4, amended. Whatever order the engine's aggregation meets the rows
    in, the result of [deduplicate_events] has no two rows with the same
    event_id, every row of it is a row of the input, and for every row of
    the input it holds exactly one row with that event_id.  The row kept
    for an event_id is the first one the engine meets, not necessarily
    the first of the input, and the rows come out in the engine's order;
    the result is a function of the batch in that order.  In particular
    two rows that share an event_id yield exactly one row, one of the
    two. *)
Theorem deduplicate_keeps_one_per_event_id (engine_rank : Row -> nat)
    (df : DataFrame) :
  let out := deduplicate_events engine_rank df in
  ForallOrdPairs (fun a b => same_event_id a b = false) out /\
  (forall r, In r out ->
     In r df /\ find (same_event_id r) (engine_order engine_rank df) = Some r) /\
  (forall r, In r df ->
     exists kept, In kept df /\ same_event_id kept r = true /\
                  filter (same_event_id r) out = [kept]) /\
  (forall df', engine_order engine_rank df' = engine_order engine_rank df ->
               deduplicate_events engine_rank df' = out) /\
  (forall (r1 r2 : Row) (k : string),
     col "event_id" r1 = Str k -> col "event_id" r2 = Str k ->
     deduplicate_events engine_rank [r1; r2] = [r1] \/
     deduplicate_events engine_rank [r1; r2] = [r2]).
Proof.
  cbv zeta. unfold deduplicate_events, dropDuplicates, same_event_id.
  set (met := engine_order engine_rank df).
  pose proof (dropDuplicates_from_distinct [ "event_id" ] met []) as Hdist.
  split; [exact Hdist|]. split; [|split; [|split]].
  - intros r Hin.
    destruct (dropDuplicates_from_first [ "event_id" ] met [] r Hin) as [_ Hfind].
    split; [|exact Hfind]. apply find_some in Hfind.
    apply (engine_order_In engine_rank). tauto.
  - intros r Hin. apply (engine_order_In engine_rank) in Hin. fold met in Hin.
    destruct (dropDuplicates_from_complete [ "event_id" ] met [] r Hin)
      as [Hseen | (kept & Hk & Hkr)]; [discriminate Hseen|].
    exists kept. split; [|split; [exact Hkr|]].
    + destruct (dropDuplicates_from_first [ "event_id" ] met [] kept Hk) as [_ Hf].
      apply find_some in Hf. apply (engine_order_In engine_rank). tauto.
    + apply distinct_keys_filter; assumption.
  - intros df' ->. reflexivity.
  - intros r1 r2 k H1 H2.
    assert (Hsame : forall a b, (a = r1 \/ a = r2) -> (b = r1 \/ b = r2) ->
                                same_key [ "event_id" ] a b = true).
    { intros a b Ha Hb. unfold same_key. cbn [forallb].
      destruct Ha as [-> | ->], Hb as [-> | ->]; rewrite ?H1, ?H2; cbn [cell_eqb];
        rewrite String.eqb_refl; reflexivity. }
    cbn [engine_order fold_right insert_by].
    destruct (engine_rank r1 <=? engine_rank r2)%nat;
      cbn [dropDuplicates_from existsb]; rewrite Hsame by auto; cbn; auto.
Qed.

Lemma deduplicate_keeps_one_per_event_id_witness :
  deduplicate_events rank_e1_first [ row_e1_first; row_e1_second ] = [ row_e1_first ] \/
  deduplicate_events rank_e1_first [ row_e1_first; row_e1_second ] = [ row_e1_second ].
Proof.
  apply (proj2 (proj2 (proj2 (proj2
           (deduplicate_keeps_one_per_event_id rank_e1_first []))))
           row_e1_first row_e1_second "e1"); reflexivity.
Defined.

(** ** Sink writes *)

Lemma default_attempts : py_range 1 (MAX_RETRIES + 1) = [1; 2; 3]%Z.
Proof. reflexivity. Qed.

(** Closes the cases of a run that is already fully evaluated. *)
Ltac settle_run :=
  unfold ends_with; cbn [fst snd saves journal];
  repeat match goal with
         | |- _ /\ _ => split
         | |- _ -> _ => intro
         end;
  try discriminate; rewrite <- ?app_assoc; try reflexivity; try lia.

(** One turn of the retry loop. *)
Lemma write_attempts_step (attempt : Z) (rest : list Z) (final_df : DataFrame)
    (batch_id : Z) (env : JobEnv) (w : JobWorld) :
  write_attempts (attempt :: rest) final_df batch_id env w =
  let w1 := mkJobWorld (S (saves w)) (csv_writes w) (loads w)
                       (journal w ++ [JdbcSave "user_events" final_df]) in
  match jdbc_save env (saves w) with
  | None => (Ok tt, w1)
  | Some error_msg =>
      if is_duplicate_key error_msg then (Ok tt, w1)
      else if (attempt <? MAX_RETRIES)%Z then
        write_attempts rest final_df batch_id env
          (mkJobWorld (S (saves w)) (csv_writes w) (loads w)
                      (journal w1 ++ [Sleep RETRY_DELAY_SECONDS]))
      else
        (Exn error_msg,
         mkJobWorld (S (saves w)) (csv_writes w) (loads w)
                    (journal w1 ++
                     [LogError ("Batch " ++ str_of_int batch_id
                                ++ ": All retry attempts failed!")%string]))
  end.
Proof.
  cbn [write_attempts]. unfold try_except, jdbc_append, is_duplicate_key.
  destruct (jdbc_save env (saves w)) as [msg|]; [|reflexivity].
  destruct (contains "duplicate key" (lower_string msg)); [reflexivity|].
  destruct (attempt <? MAX_RETRIES)%Z; reflexivity.
Qed.

(** The retry loop with the configured three attempts and 5 s delay. *)
Lemma write_attempts_default (final_df : DataFrame) (batch_id : Z)
    (env : JobEnv) (w : JobWorld) :
  retry_policy (write_attempts (py_range 1 (MAX_RETRIES + 1)) final_df batch_id env w)
               final_df batch_id env w.
Proof.
  unfold retry_policy. cbv zeta. rewrite default_attempts.
  rewrite write_attempts_step. cbv zeta.
  change (1 <? MAX_RETRIES)%Z with true. cbn iota.
  destruct (jdbc_save env (saves w)) as [m1|];
    [destruct (is_duplicate_key m1) eqn:D1|]; cbn [retryable]; rewrite ?D1; cbn [negb];
    try solve [settle_run].
  rewrite write_attempts_step. cbv zeta.
  change (2 <? MAX_RETRIES)%Z with true. cbn iota. cbn [saves csv_writes loads journal].
  destruct (jdbc_save env (S (saves w))) as [m2|];
    [destruct (is_duplicate_key m2) eqn:D2|]; cbn [retryable]; rewrite ?D2; cbn [negb];
    try solve [settle_run].
  rewrite write_attempts_step. cbv zeta.
  change (3 <? MAX_RETRIES)%Z with false. cbn iota. cbn [saves csv_writes loads journal].
  destruct (jdbc_save env (S (S (saves w)))) as [m3|];
    [destruct (is_duplicate_key m3) eqn:D3|]; cbn [retryable]; rewrite ?D3; cbn [negb];
    try solve [settle_run].
  repeat (split; [intros; discriminate|]). intros _ _ _.
  exists m3. split; [reflexivity|]. settle_run.
Qed.

(** Quarantining is best effort: it always returns, and leaves the sink
    untouched. *)
Lemma write_errors_returns (invalid_df : DataFrame) (batch_id : Z)
    (env : JobEnv) (w : JobWorld) :
  exists w', write_errors invalid_df batch_id env w = (Ok tt, w') /\
             saves w' = saves w /\ loads w' = loads w.
Proof.
  unfold write_errors, try_except, bind, ERROR_PATH, csv_overwrite, ret.
  destruct (frame_error invalid_df); [|destruct (csv_save env (csv_writes w))];
    eexists; repeat split.
Qed.

(** [write_errors] always returns and records one CSV write. *)
Lemma write_errors_run (invalid_df : DataFrame) (batch_id : Z)
    (env : JobEnv) (w : JobWorld) :
  write_errors invalid_df batch_id env w =
  (Ok tt,
   mkJobWorld (saves w) (S (csv_writes w)) (loads w)
              (journal w ++ [CsvSave (quarantine_path env batch_id) invalid_df])).
Proof.
  unfold write_errors, try_except, bind, ERROR_PATH, csv_overwrite, ret, quarantine_path.
  destruct (frame_error invalid_df); [|destruct (csv_save env (csv_writes w))];
    reflexivity.
Qed.

Lemma deduplicate_nonempty (engine_rank : Row -> nat) (df : DataFrame) :
  df <> [] -> prepare_for_postgres (deduplicate_events engine_rank df) <> [].
Proof.
  intros Hne. unfold deduplicate_events, dropDuplicates.
  destruct (engine_order engine_rank df) as [|r rest] eqn:E.
  - exfalso. apply Hne. apply Permutation_nil.
    rewrite <- E. apply engine_order_perm.
  - discriminate.
Qed.

(** The callback: its validation, its quarantine step and its sink
    step. *)
Lemma callback_unfold (parse_timestamp : string -> string -> Parse)
    (skips_operand : Row -> bool) (engine_rank : Row -> nat)
    (batch_df : DataFrame) (batch_id : Z) (env : JobEnv) (w : JobWorld) :
  let valid_df :=
    fst (clean_and_validate_data parse_timestamp skips_operand batch_df) in
  let invalid_df :=
    snd (clean_and_validate_data parse_timestamp skips_operand batch_df) in
  let w0 :=
    match invalid_df with
    | [] => w
    | _ :: _ =>
        mkJobWorld (saves w) (S (csv_writes w)) (loads w)
                   (journal w ++ quarantine_entry env batch_id invalid_df)
    end in
  write_to_postgres_with_retry parse_timestamp skips_operand engine_rank
                               batch_df batch_id env w =
  match validation_error parse_timestamp skips_operand batch_df with
  | Some msg => (Exn msg, w)
  | None =>
      match valid_df with
      | [] => (Ok tt, w0)
      | _ :: _ =>
          write_attempts (py_range 1 (MAX_RETRIES + 1))
                         (prepare_for_postgres (deduplicate_events engine_rank valid_df))
                         batch_id env w0
      end
  end.
Proof.
  cbv zeta. unfold write_to_postgres_with_retry.
  destruct batch_df as [|r0 rest]; [reflexivity|].
  cbn [isEmpty].
  destruct (validation_error parse_timestamp skips_operand (r0 :: rest)) as [msg|].
  { destruct (clean_and_validate_data parse_timestamp skips_operand (r0 :: rest)).
    reflexivity. }
  destruct (clean_and_validate_data parse_timestamp skips_operand (r0 :: rest))
    as [valid_df invalid_df].
  cbn [fst snd run_count]. unfold bind at 1 2. unfold ret at 1 2.
  cbv beta iota zeta. unfold bind.
  destruct invalid_df as [|i0 invalid_df].
  - cbn [count List.length Z.of_nat Z.ltb Z.compare]. unfold ret at 1.
    destruct valid_df; reflexivity.
  - assert (Hpos : (0 <? count (i0 :: invalid_df))%Z = true)
      by (apply Z.ltb_lt; unfold count; cbn [List.length]; lia).
    rewrite Hpos, write_errors_run.
    destruct valid_df as [|v0 valid_df]; [reflexivity|].
    assert (Hv : (count (v0 :: valid_df) =? 0)%Z = false)
      by (apply Z.eqb_neq; unfold count; cbn [List.length]; lia).
    rewrite Hv. reflexivity.
Qed.

(** C2. For a batch with at least one valid record, the deduplicated
    batch handed to the sink is non-empty and the callback, once the
    invalid records are quarantined, appends it to the table at most three
    times with a 5 second sleep between consecutive attempts.  An attempt
    that succeeds, or that fails with an error classified as a duplicate
    key, ends the callback normally at once; any other failure is followed
    by a retry; when the third attempt fails that way too, its error is
    raised to the caller.  (When the engine's parser raises on a timestamp
    of the batch, the callback fails with that exception while counting
    the valid records, before any write.) *)
Theorem sink_write_retries (parse_timestamp : string -> string -> Parse)
    (skips_operand : Row -> bool) (engine_rank : Row -> nat)
    (batch_df : DataFrame) (batch_id : Z) (env : JobEnv) (w : JobWorld) :
  let valid_df :=
    fst (clean_and_validate_data parse_timestamp skips_operand batch_df) in
  let invalid_df :=
    snd (clean_and_validate_data parse_timestamp skips_operand batch_df) in
  let final_df := prepare_for_postgres (deduplicate_events engine_rank valid_df) in
  let run := write_to_postgres_with_retry parse_timestamp skips_operand engine_rank
                                          batch_df batch_id env w in
  valid_df <> [] ->
  final_df <> [] /\
  match validation_error parse_timestamp skips_operand batch_df with
  | Some msg => run = (Exn msg, w)
  | None =>
      exists w0,
        (if (0 <? count invalid_df)%Z then write_errors invalid_df batch_id else ret tt)
          env w = (Ok tt, w0) /\
        saves w0 = saves w /\
        retry_policy run final_df batch_id env w0
  end.
Proof.
  cbv zeta. intros Hvalid.
  split; [apply deduplicate_nonempty; exact Hvalid|].
  rewrite callback_unfold. cbv zeta.
  destruct (validation_error parse_timestamp skips_operand batch_df) as [msg|];
    [reflexivity|].
  destruct (clean_and_validate_data parse_timestamp skips_operand batch_df)
    as [valid_df invalid_df].
  cbn [fst snd] in *.
  destruct valid_df as [|v0 valid_df]; [congruence|].
  destruct invalid_df as [|i0 invalid_df].
  - exists w. split; [reflexivity|]. split; [reflexivity|].
    exact (write_attempts_default _ batch_id env w).
  - assert (Hpos : (0 <? count (i0 :: invalid_df))%Z = true)
      by (apply Z.ltb_lt; unfold count; cbn [List.length]; lia).
    rewrite Hpos, write_errors_run.
    eexists. split; [reflexivity|]. split; [reflexivity|].
    apply write_attempts_default.
Qed.

Lemma sink_write_retries_witness :
  let batch_df := read_batch [ record_ok; record_null_user; record_ok ] in
  let valid_df :=
    fst (clean_and_validate_data strict_parse_timestamp short_circuit batch_df) in
  let invalid_df :=
    snd (clean_and_validate_data strict_parse_timestamp short_circuit batch_df) in
  let final_df := prepare_for_postgres (deduplicate_events input_order valid_df) in
  let run := write_to_postgres_with_retry strict_parse_timestamp short_circuit
               input_order batch_df 7 env_flaky_sink job_world0 in
  valid_df <> [] /\
  (final_df <> [] /\
   match validation_error strict_parse_timestamp short_circuit batch_df with
   | Some msg => run = (Exn msg, job_world0)
   | None =>
       exists w0,
         (if (0 <? count invalid_df)%Z then write_errors invalid_df 7 else ret tt)
           env_flaky_sink job_world0 = (Ok tt, w0) /\
         saves w0 = saves job_world0 /\
         retry_policy run final_df 7 env_flaky_sink w0
   end).
Proof.
  cbv zeta. split.
  - vm_compute. discriminate.
  - apply (sink_write_retries strict_parse_timestamp short_circuit input_order
             (read_batch [ record_ok; record_null_user; record_ok ]) 7
             env_flaky_sink job_world0).
    vm_compute. discriminate.
Defined.

(** A sink that refuses two appends and takes the third: three attempts,
    two sleeps, normal return. *)
Example flaky_sink_run :
  let run := write_to_postgres_with_retry strict_parse_timestamp short_circuit
               input_order (read_batch [ record_ok ]) 7 env_flaky_sink job_world0 in
  fst run = Ok tt /\ saves (snd run) = 3%nat /\
  List.length (journal (snd run)) = 5%nat.
Proof. vm_compute. repeat split. Qed.

(** A batch with a timestamp that only the lenient reading accepts: the
    callback raises while counting, and writes nothing, although the
    batch holds an invalid record. *)
Example legacy_timestamp_fails_batch :
  write_to_postgres_with_retry strict_parse_timestamp short_circuit input_order
    (read_batch [ record_null_user; record_legacy_timestamp ]) 7
    env_flaky_sink job_world0
  = (Exn "SparkUpgradeException", job_world0).
Proof. vm_compute. reflexivity. Qed.

(** When the engine skips the parser on a record that fails another
    test, the record is quarantined with a timestamp that cannot be
    written: the CSV write fails, which [write_errors] swallows. *)
Example quarantine_write_fails :
  let invalid_df :=
    snd (clean_and_validate_data strict_parse_timestamp short_circuit
           (read_batch [ record_null_user_legacy_timestamp ])) in
  frame_error invalid_df = Some "SparkUpgradeException" /\
  fst (csv_overwrite (quarantine_path env_flaky_sink 7) invalid_df
         env_flaky_sink job_world0) = Exn "SparkUpgradeException" /\
  fst (write_to_postgres_with_retry strict_parse_timestamp short_circuit input_order
         (read_batch [ record_null_user_legacy_timestamp ]) 7
         env_flaky_sink job_world0) = Ok tt /\
  fst (write_to_postgres_with_retry strict_parse_timestamp eager input_order
         (read_batch [ record_null_user_legacy_timestamp ]) 7
         env_flaky_sink job_world0) = Exn "SparkUpgradeException".
Proof. vm_compute. repeat split. Qed.

(** ** Start-up polling *)

Lemma py_range_length (a b : Z) : List.length (py_range a b) = Z.to_nat (b - a).
Proof. unfold py_range. rewrite length_map, length_seq. reflexivity. Qed.

(** One connection test. *)
Lemma test_postgres_connection_run (env : JobEnv) (w : JobWorld) :
  test_postgres_connection env w =
  match jdbc_load env (loads w) with
  | None =>
      (Ok true,
       mkJobWorld (saves w) (csv_writes w) (S (loads w))
                  (journal w ++ [JdbcLoad "SELECT 1 as test"]))
  | Some e =>
      (Ok false,
       mkJobWorld (saves w) (csv_writes w) (S (loads w))
                  ((journal w ++ [JdbcLoad "SELECT 1 as test"]) ++
                   [LogError ("PostgreSQL connection failed: " ++ e)%string]))
  end.
Proof.
  unfold test_postgres_connection, try_except, bind, jdbc_query, logger_error, emit, ret.
  destruct (jdbc_load env (loads w)); reflexivity.
Qed.

(** The polling loop always returns, after at most one connection test
    per attempt; it only sleeps for [delay] and never starts the stream. *)
Lemma poll_postgres_bounded (attempts : list Z) (delay : Z) (env : JobEnv) :
  forall w : JobWorld,
  exists ready w' added,
    poll_postgres attempts delay env w = (Ok ready, w') /\
    (loads w <= loads w' <= loads w + List.length attempts)%nat /\
    saves w' = saves w /\
    journal w' = journal w ++ added /\
    Forall (is_sleep_of delay) added /\
    ~ In StreamStart added.
Proof.
  induction attempts as [|attempt rest IH]; intros w.
  - eexists false, _, _. cbn [poll_postgres].
    unfold bind, logger_error, emit, ret. split; [reflexivity|].
    cbn [loads saves journal List.length].
    repeat split; try lia.
    + repeat constructor.
    + intros [H|[]]; discriminate H.
  - cbn [poll_postgres]. unfold bind at 1. rewrite test_postgres_connection_run.
    destruct (jdbc_load env (loads w)) as [e|].
    + unfold bind at 1. unfold sleep, emit at 1. cbn [saves csv_writes loads journal].
      match goal with
      | |- context [poll_postgres rest delay env ?w1] =>
          destruct (IH w1) as (ready & w' & added & E & Hl & Hs & Hj & Hf & Hn)
      end.
      cbn [saves csv_writes loads journal] in Hl, Hs, Hj.
      exists ready, w',
        ([JdbcLoad "SELECT 1 as test";
          LogError ("PostgreSQL connection failed: " ++ e)%string;
          Sleep delay] ++ added).
      split; [exact E|]. cbn [List.length].
      split; [lia|]. split; [exact Hs|].
      split; [rewrite Hj, <- !app_assoc; reflexivity|].
      split.
      * repeat constructor. exact Hf.
      * cbn [app]. intros [H|[H|[H|H]]]; try discriminate H. exact (Hn H).
    + eexists true, _, [JdbcLoad "SELECT 1 as test"].
      split; [reflexivity|]. cbn [loads saves journal List.length].
      repeat split; try lia.
      * repeat constructor.
      * intros [H|[]]; discriminate H.
Qed.

(** When every connection test of the loop fails, the loop gives up
    after one test and one sleep per attempt. *)
Lemma poll_postgres_exhausted (attempts : list Z) (delay : Z) (env : JobEnv) :
  forall w : JobWorld,
    (forall i, (i < List.length attempts)%nat -> jdbc_load env (loads w + i) <> None) ->
    poll_postgres attempts delay env w =
    (Ok false,
     mkJobWorld (saves w) (csv_writes w) (loads w + List.length attempts)
                (journal w ++
                 flat_map (failed_poll env delay)
                          (seq (loads w) (List.length attempts)) ++
                 [LogError "PostgreSQL did not become available in time!"])).
Proof.
  induction attempts as [|attempt rest IH]; intros w Hfail.
  - cbn. unfold bind, logger_error, emit, ret.
    rewrite Nat.add_0_r. reflexivity.
  - cbn [poll_postgres]. unfold bind at 1. rewrite test_postgres_connection_run.
    pose proof (Hfail 0%nat ltac:(cbn; lia)) as H0. rewrite Nat.add_0_r in H0.
    destruct (jdbc_load env (loads w)) as [e|] eqn:E0; [|congruence].
    unfold bind at 1. unfold sleep, emit at 1. cbn [saves csv_writes loads journal].
    rewrite IH.
    + cbn [saves csv_writes loads journal List.length seq flat_map].
      unfold failed_poll at 2. rewrite E0.
      rewrite Nat.add_succ_r, <- !app_assoc. reflexivity.
    + intros i Hi. cbn [loads].
      replace (S (loads w) + i)%nat with (loads w + S i)%nat by lia.
      apply Hfail. cbn [List.length]. lia.
Qed.

(** C8 fails as stated: with a database that answers none of the
    connection tests, start-up does not abort with a fatal error.  [main]
    logs its two ERROR records and returns normally; no exception reaches
    its caller, so the process ends with exit status 0. *)
Lemma exhausted_polling_is_not_fatal :
  (forall i, jdbc_load env_sink_down i <> None) /\
  fst (main env_sink_down job_world0) = Ok tt /\
  (forall msg, fst (main env_sink_down job_world0) <> Exn msg) /\
  ~ In StreamStart (journal (snd (main env_sink_down job_world0))).
Proof.
  split; [discriminate|].
  assert (E : fst (main env_sink_down job_world0) = Ok tt)
    by (vm_compute; reflexivity).
  split; [exact E|]. split; [rewrite E; discriminate|].
  vm_compute. intros Hin.
  repeat (destruct Hin as [Hin|Hin]; [discriminate Hin|]). exact Hin.
Qed.

(** C8, amended. [wait_for_postgres] always returns, after at most
    max_retries connection tests (30 by default), sleeping only the fixed
    delay (5 s by default) after a failed test.  When all 30 tests fail,
    [main] does not start the streaming job: it logs the two errors, stops
    the Spark session and returns normally, having tested the connection
    exactly 30 times. *)
Theorem startup_polling_bounded (max_retries delay : Z) (env : JobEnv) (w : JobWorld) :
  (exists ready w' added,
      wait_for_postgres max_retries delay env w = (Ok ready, w') /\
      (loads w' - loads w <= Z.to_nat max_retries)%nat /\
      journal w' = journal w ++ added /\
      Forall (is_sleep_of delay) added) /\
  ((forall i, (i < 30)%nat -> jdbc_load env (loads w + i) <> None) ->
   let added :=
     flat_map (failed_poll env 5) (seq (loads w) 30) ++
     [ LogError "PostgreSQL did not become available in time!";
       LogError "Cannot start streaming job - PostgreSQL unavailable";
       SparkStop ] in
   main env w =
     (Ok tt, mkJobWorld (saves w) (csv_writes w) (loads w + 30) (journal w ++ added)) /\
   ~ In StreamStart added).
Proof.
  split.
  - unfold wait_for_postgres.
    destruct (poll_postgres_bounded (py_range 1 (max_retries + 1)) delay env w)
      as (ready & w' & added & E & Hl & _ & Hj & Hf & _).
    rewrite py_range_length in Hl.
    replace (max_retries + 1 - 1)%Z with max_retries in Hl by lia.
    exists ready, w', added. repeat split; try assumption. lia.
  - intros Hfail. cbv zeta. split.
    + unfold main, try_finally, try_except, wait_for_postgres.
      unfold bind at 1.
      rewrite poll_postgres_exhausted
        by (rewrite py_range_length; exact Hfail).
      rewrite py_range_length.
      change (Z.to_nat (30 + 1 - 1)) with 30%nat.
      cbn [negb]. unfold bind, logger_error, emit, ret.
      cbn [saves csv_writes loads journal].
      rewrite <- !app_assoc. reflexivity.
    + intros Hin. apply in_app_or in Hin as [Hin|Hin].
      * apply in_flat_map in Hin as (i & _ & Hi).
        unfold failed_poll in Hi.
        destruct Hi as [H|[H|[H|[]]]]; discriminate H.
      * destruct Hin as [H|[H|[H|[]]]]; discriminate H.
Qed.

Lemma startup_polling_bounded_witness :
  let added :=
    flat_map (failed_poll env_sink_down 5) (seq (loads job_world0) 30) ++
    [ LogError "PostgreSQL did not become available in time!";
      LogError "Cannot start streaming job - PostgreSQL unavailable";
      SparkStop ] in
  main env_sink_down job_world0 =
    (Ok tt, mkJobWorld (saves job_world0) (csv_writes job_world0)
                       (loads job_world0 + 30) (journal job_world0 ++ added)) /\
  ~ In StreamStart added.
Proof.
  apply (proj2 (startup_polling_bounded 30 5 env_sink_down job_world0)).
  intros i _. discriminate.
Defined.

(* ===================================================================== *)
(** * Part VI: further properties of the producer                        *)
(* ===================================================================== *)

(** ** The loop, iteration by iteration *)

(** [wait] reads the clock at least once. *)
Lemma wait_ticks (s : RateLimiter) (env : Env) (w : World) :
  forall r w', wait s env w = (r, w') -> (ticks w < ticks w')%nat.
Proof.
  intros r w'. unfold wait, bind, time_time, time_sleep, ret.
  destruct (Qle_bool 1 (clock env (ticks w) - second_start s));
    cbn [events_per_second events_this_second second_start];
    destruct (_ <=? _)%Z;
    try destruct (negb (Qle_bool _ 0));
    intros [= <- <-]; cbn; lia.
Qed.

Lemma fill_batch_ticks (n : nat) :
  forall (rl : RateLimiter) (evs : list Event) (env : Env) (w : World) r w',
    fill_batch n rl evs env w = (r, w') -> (ticks w <= ticks w')%nat.
Proof.
  induction n as [|n IH]; intros rl evs env w r w'.
  - cbn. intros [= <- <-]. lia.
  - cbn [fill_batch]. unfold bind at 1. unfold read_shutdown_requested at 1.
    destruct (shutdown_requested env (polls w)).
    + intros [= <- <-]. cbn. lia.
    + unfold bind at 1.
      destruct (wait rl env _) as [[rl1|msg] w1] eqn:Ew.
      * apply wait_ticks in Ew. cbn [ticks] in Ew.
        unfold bind at 1.
        destruct (generate_event_m_run env w1) as (e & _ & Eg). rewrite Eg.
        intros H. apply IH in H. cbn [ticks] in H. lia.
      * apply wait_ticks in Ew. cbn [ticks] in Ew.
        intros [= <- <-]. lia.
Qed.

Lemma leading_false_le (flag : nat -> bool) (n : nat) :
  forall from, (leading_false flag from n <= n)%nat.
Proof.
  induction n as [|n IH]; intros from; cbn [leading_false]; [lia|].
  destruct (flag from); [lia|]. specialize (IH (S from)). lia.
Qed.

Lemma leading_false_never (flag : nat -> bool) (n : nat) :
  (forall i, flag i = false) ->
  forall from, leading_false flag from n = n.
Proof.
  intros H. induction n as [|n IH]; intros from; cbn [leading_false]; [reflexivity|].
  rewrite H, IH. reflexivity.
Qed.

Lemma generated_from_app (env : Env) (first : nat) (l1 l2 : list Event) :
  generated_from env first l1 ->
  generated_from env (first + List.length l1) l2 ->
  generated_from env first (l1 ++ l2).
Proof.
  intros H1 H2 i e Hi.
  destruct (Nat.lt_ge_cases i (List.length l1)) as [Hlt|Hge].
  - rewrite nth_error_app1 in Hi by assumption. exact (H1 i e Hi).
  - rewrite nth_error_app2 in Hi by assumption.
    specialize (H2 _ _ Hi).
    replace (first + i)%nat with (first + List.length l1 + (i - List.length l1))%nat by lia.
    exact H2.
Qed.

(** One full iteration, with everything it changes. *)
Lemma generator_loop_turn (fuel : nat) (batch_size : Z) (duration : option Z)
    (output_dir : string) (start_time : Q) (rl : RateLimiter) (c : Counters)
    (env : Env) (w : World) :
  shutdown_requested env (polls w) = false ->
  duration_expired duration start_time env w = false ->
  let n := Z.to_nat batch_size in
  let k := leading_false (shutdown_requested env) (S (polls w)) n in
  exists rl' new w',
    generator_loop (S fuel) batch_size duration output_dir start_time rl c env w =
    generator_loop fuel batch_size duration output_dir start_time rl'
      (match new with
       | [] => c
       | _ :: _ => mkCounters (total_events c + Z.of_nat (List.length new))
                              (total_files c + 1)
       end) env w' /\
    List.length new = k /\
    generated_from env (drawn w) new /\
    polls w' = (S (polls w) + (if (k <? n)%nat then S k else k))%nat /\
    drawn w' = (drawn w + k)%nat /\
    written w' = written w ++ match new with [] => [] | _ :: _ => [new] end /\
    (ticks w < ticks w')%nat.
Proof.
  intros F D. cbn zeta.
  cbn [generator_loop]. unfold bind at 1.
  unfold read_shutdown_requested at 1. rewrite F.
  set (w1 := mkWorld (ticks w) (S (polls w)) (drawn w) (files w) (effects w)).
  assert (Hexp : exists wd,
             (match duration with
              | None => ret false
              | Some d => now <- time_time ;;
                          ret (Qle_bool (inject_Z d) (now - start_time))
              end) env w1 = (Ok false, wd) /\
             polls wd = S (polls w) /\ drawn wd = drawn w /\ files wd = files w /\
             effects wd = effects w /\ (ticks w <= ticks wd)%nat).
  { destruct duration as [d|].
    - unfold duration_expired in D.
      unfold bind, time_time, ret; cbn [ticks polls drawn files effects w1].
      rewrite D. eexists; split; [reflexivity|]. cbn. repeat split; lia.
    - exists w1. cbn. repeat split; lia. }
  destruct Hexp as (wd & Ed & Hpd & Hdd & Hfd & Hed & Htd).
  unfold bind at 1. rewrite Ed.
  unfold bind at 1. unfold time_time at 1.
  set (wb := mkWorld (S (ticks wd)) (polls wd) (drawn wd) (files wd) (effects wd)).
  destruct (fill_batch_spec (Z.to_nat batch_size) rl [] env wb)
    as (rl' & new & w2 & Ef & Hlen & Hp & Hd & Hf & Hw & Hg).
  pose proof (fill_batch_ticks _ _ _ _ _ _ _ Ef) as Ht2. cbn [ticks wb] in Ht2.
  cbn [app] in Ef.
  cbn [polls drawn files wb] in Hlen, Hp, Hd, Hf, Hg.
  rewrite Hpd in Hlen, Hp, Hd. rewrite Hdd in Hd, Hg.
  assert (Hwb : written wb = written w)
    by (unfold written, wb; cbn [effects]; rewrite Hed; reflexivity).
  rewrite Hwb in Hw.
  unfold bind at 1. rewrite Ef.
  destruct new as [|e new].
  - exists rl', [], w2. cbn [List.length] in *.
    unfold bind at 1. unfold ret at 1.
    rewrite app_nil_r. repeat split; try assumption. lia.
  - unfold bind at 1. unfold bind at 1.
    unfold write_events_to_csv at 1. unfold time_time at 1. unfold ret at 1.
    eexists rl', (e :: new), _.
    split; [reflexivity|].
    cbn [polls drawn files effects ticks].
    repeat split; try assumption; try lia.
    rewrite (written_app w2).
    rewrite Hw. reflexivity.
Qed.

(** Every batch written has between one and [batch_size] rows; read in
    order, the rows of the batches are the events generated, each once. *)
Lemma generator_loop_trace (fuel : nat) (batch_size : Z) (duration : option Z)
    (output_dir : string) (start_time : Q) :
  forall (rl : RateLimiter) (c : Counters) (env : Env) (w : World),
  exists st c' w' new,
    generator_loop fuel batch_size duration output_dir start_time rl c env w
      = (Ok (st, c'), w') /\
    written w' = written w ++ new /\
    Forall (fun rows => (1 <= List.length rows <= Z.to_nat batch_size)%nat) new /\
    generated_from env (drawn w) (List.concat new) /\
    drawn w' = (drawn w + List.length (List.concat new))%nat.
Proof.
  induction fuel as [|fuel IH]; intros rl c env w.
  - exists Running, c, w, []. cbn. rewrite app_nil_r, Nat.add_0_r.
    repeat split; [constructor|]. intros [|i] e; discriminate.
  - destruct (shutdown_requested env (polls w)) eqn:F.
    { rewrite generator_loop_stop_flag by exact F.
      eexists _, _, _, []. split; [reflexivity|].
      unfold written; cbn. rewrite app_nil_r, Nat.add_0_r.
      repeat split; [constructor|]. intros [|i] e; discriminate. }
    destruct (duration_expired duration start_time env w) eqn:D.
    { rewrite generator_loop_stop_duration by assumption.
      eexists _, _, _, []. split; [reflexivity|].
      unfold written; cbn. rewrite app_nil_r, Nat.add_0_r.
      repeat split; [constructor|]. intros [|i] e; discriminate. }
    destruct (generator_loop_turn fuel batch_size duration output_dir start_time
                rl c env w F D)
      as (rl' & new & w1 & Eloop & Hlen & Hgen & _ & Hd & Hw & _).
    rewrite Eloop.
    match type of Eloop with
    | _ = generator_loop _ _ _ _ _ _ ?c1 _ _ =>
        destruct (IH rl' c1 env w1) as (st & c' & w' & more & E & Hw' & Hall & Hg' & Hd')
    end.
    pose proof (leading_false_le (shutdown_requested env) (Z.to_nat batch_size)
                  (S (polls w))) as Hle.
    rewrite <- Hlen in Hle, Hd. rewrite Hd in Hg', Hd'.
    destruct new as [|e new].
    + exists st, c', w', more. rewrite app_nil_r in Hw.
      rewrite Hw in Hw'. cbn [List.length] in Hg', Hd'. rewrite Nat.add_0_r in Hg', Hd'.
      repeat split; assumption.
    + exists st, c', w', ((e :: new) :: more).
      rewrite Hw, <- app_assoc in Hw'. cbn [app] in Hw'.
      split; [exact E|]. split; [exact Hw'|].
      split; [constructor; [cbn [List.length] in *; lia | exact Hall]|].
      cbn [List.concat]. split.
      * apply generated_from_app; assumption.
      * rewrite length_app. lia.
Qed.

(** What [run_generator] does before and after its loop. *)
Lemma run_generator_unfold (fuel : nat) (events_per_second batch_size : Z)
    (duration : option Z) (output_dir : string) (env : Env) (w : World) :
  exists rl w0,
    ticks w0 = (ticks w + 3)%nat /\ polls w0 = polls w /\ drawn w0 = drawn w /\
    written w0 = written w /\
    run_generator fuel events_per_second batch_size duration output_dir env w =
    (fst (generator_loop fuel batch_size duration output_dir
            (clock env (ticks w + 2)) rl (mkCounters 0 0) env w0),
     snd (time_time env
            (snd (generator_loop fuel batch_size duration output_dir
                    (clock env (ticks w + 2)) rl (mkCounters 0 0) env w0)))).
Proof.
  unfold run_generator, RateLimiter_init.
  unfold bind at 1. unfold bind at 1. unfold time_time at 1.
  unfold bind at 1. unfold time_time at 1. unfold ret at 1.
  unfold bind at 1. unfold time_time at 1.
  cbn [ticks polls drawn files effects].
  exists (mkRateLimiter events_per_second
            (if (0 <? events_per_second)%Z
             then (1 / inject_Z events_per_second)%Q else 1%Q)
            (clock env (ticks w)) 0 (clock env (S (ticks w)))),
         (mkWorld (S (S (S (ticks w)))) (polls w) (drawn w) (files w) (effects w)).
  cbn [ticks polls drawn files].
  split; [lia|]. split; [reflexivity|]. split; [reflexivity|].
  split; [reflexivity|].
  replace (ticks w + 2)%nat with (S (S (ticks w))) by lia.
  destruct (generator_loop _ _ _ _ _ _ _ _ _) as [r w']. reflexivity.
Qed.

(** X1. In every run of the producer, each batch file written holds at
    least one and at most batch_size event rows. *)
Theorem batch_files_within_size (fuel : nat) (events_per_second batch_size : Z)
    (duration : option Z) (output_dir : string) (env : Env) (w : World) :
  exists st c w' new,
    run_generator fuel events_per_second batch_size duration output_dir env w
      = (Ok (st, c), w') /\
    written w' = written w ++ new /\
    Forall (fun rows => (1 <= List.length rows <= Z.to_nat batch_size)%nat) new.
Proof.
  destruct (run_generator_unfold fuel events_per_second batch_size duration
              output_dir env w) as (rl & w0 & _ & _ & _ & Hw0 & Erun).
  destruct (generator_loop_trace fuel batch_size duration output_dir
              (clock env (ticks w + 2)) rl (mkCounters 0 0) env w0)
    as (st & c & w' & new & E & Hw & Hall & _).
  rewrite E in Erun. cbn [fst snd] in Erun.
  exists st, c, (snd (time_time env w')), new.
  split; [exact Erun|]. split; [|exact Hall].
  rewrite <- Hw0. exact Hw.
Qed.

(** X2. In every run of the producer, the rows of the batch files, read
    in the order the files were written, are exactly the events generated
    during the run, in the order of generation: no event is lost, written
    twice or reordered, and total_events counts them. *)
Theorem every_event_written_once (fuel : nat) (events_per_second batch_size : Z)
    (duration : option Z) (output_dir : string) (env : Env) (w : World) :
  exists st c w' new,
    run_generator fuel events_per_second batch_size duration output_dir env w
      = (Ok (st, c), w') /\
    written w' = written w ++ new /\
    generated_from env (drawn w) (List.concat new) /\
    drawn w' = (drawn w + List.length (List.concat new))%nat /\
    total_events c = Z.of_nat (drawn w' - drawn w).
Proof.
  destruct (run_generator_unfold fuel events_per_second batch_size duration
              output_dir env w) as (rl & w0 & _ & _ & Hd0 & Hw0 & Erun).
  destruct (generator_loop_trace fuel batch_size duration output_dir
              (clock env (ticks w + 2)) rl (mkCounters 0 0) env w0)
    as (st & c & w' & new & E & Hw & _ & Hg & Hd).
  destruct (generator_loop_files fuel batch_size duration output_dir
              (clock env (ticks w + 2)) rl (mkCounters 0 0) env w0)
    as (st2 & c2 & w2 & new2 & E2 & Hw2 & _ & _ & He2).
  rewrite E in E2. injection E2 as <- <- <-.
  rewrite Hw in Hw2. apply app_inv_head in Hw2. subst new2.
  rewrite E in Erun. cbn [fst snd] in Erun.
  exists st, c, (snd (time_time env w')), new.
  split; [exact Erun|]. unfold time_time; cbn [snd drawn].
  rewrite <- Hw0, <- Hd0.
  split; [exact Hw|]. split; [exact Hg|]. split; [exact Hd|].
  cbn [total_events] in He2. rewrite He2, Hd. f_equal. lia.
Qed.

(** While nobody requests a shutdown and no duration is set, the loop
    keeps going, and each turn writes one batch of exactly batch_size
    events (none at all when batch_size <= 0). *)
Lemma generator_loop_unattended (fuel : nat) (batch_size : Z)
    (output_dir : string) (start_time : Q) (env : Env) :
  never_requested env ->
  forall (rl : RateLimiter) (c : Counters) (w : World),
  exists c' w' new,
    generator_loop fuel batch_size None output_dir start_time rl c env w
      = (Ok (Running, c'), w') /\
    written w' = written w ++ new /\
    Forall (fun rows => List.length rows = Z.to_nat batch_size) new /\
    List.length new = (if (0 <? batch_size)%Z then fuel else 0%nat) /\
    total_files c' = (total_files c + Z.of_nat (List.length new))%Z.
Proof.
  intros Hnever.
  induction fuel as [|fuel IH]; intros rl c w.
  - exists c, w, []. cbn. rewrite app_nil_r.
    repeat split; [constructor | destruct (0 <? batch_size)%Z; reflexivity | lia].
  - destruct (generator_loop_turn fuel batch_size None output_dir start_time
                rl c env w (Hnever _) eq_refl)
      as (rl' & new & w1 & Eloop & Hlen & _ & _ & _ & Hw & _).
    rewrite Eloop.
    rewrite leading_false_never in Hlen by exact Hnever.
    match type of Eloop with
    | _ = generator_loop _ _ _ _ _ _ ?c1 _ _ =>
        destruct (IH rl' c1 w1) as (c' & w' & more & E & Hw' & Hall & Hn & Hf)
    end.
    destruct new as [|e new].
    + exists c', w', more. rewrite app_nil_r in Hw. rewrite Hw in Hw'.
      cbn [List.length] in Hlen.
      assert (Hb : (0 <? batch_size)%Z = false) by (apply Z.ltb_ge; lia).
      rewrite Hb in *. repeat split; assumption.
    + exists c', w', ((e :: new) :: more).
      rewrite Hw, <- app_assoc in Hw'. cbn [app] in Hw'.
      assert (Hb : (0 <? batch_size)%Z = true)
        by (apply Z.ltb_lt; cbn [List.length] in Hlen; lia).
      rewrite Hb in *. cbn [total_files] in Hf.
      split; [exact E|]. split; [exact Hw'|].
      split; [constructor; assumption|].
      cbn [List.length]. split; lia.
Qed.

(** X3. With no shutdown request and no duration bound the producer
    never leaves its loop: after any number of turns it is still running,
    and it has written one batch file per turn, each with exactly
    batch_size events; for batch_size <= 0 it spins without generating an
    event or writing a file. *)
Theorem unattended_run_fills_batches (fuel : nat) (events_per_second batch_size : Z)
    (output_dir : string) (env : Env) (w : World) :
  never_requested env ->
  exists c w' new,
    run_generator fuel events_per_second batch_size None output_dir env w
      = (Ok (Running, c), w') /\
    written w' = written w ++ new /\
    Forall (fun rows => List.length rows = Z.to_nat batch_size) new /\
    List.length new = (if (0 <? batch_size)%Z then fuel else 0%nat) /\
    total_files c = Z.of_nat (List.length new).
Proof.
  intros Hnever.
  destruct (run_generator_unfold fuel events_per_second batch_size None
              output_dir env w) as (rl & w0 & _ & _ & _ & Hw0 & Erun).
  destruct (generator_loop_unattended fuel batch_size output_dir
              (clock env (ticks w + 2)) env Hnever rl (mkCounters 0 0) w0)
    as (c & w' & new & E & Hw & Hall & Hn & Hf).
  rewrite E in Erun. cbn [fst snd] in Erun.
  exists c, (snd (time_time env w')), new.
  split; [exact Erun|]. unfold time_time; cbn [snd].
  rewrite <- Hw0. repeat split; assumption.
Qed.

Lemma unattended_run_fills_batches_witness :
  exists c w' new,
    run_generator 3 10 2 None "/app/data/raw" env_unattended world0
      = (Ok (Running, c), w') /\
    written w' = written world0 ++ new /\
    Forall (fun rows => List.length rows = Z.to_nat 2) new /\
    List.length new = (if (0 <? 2)%Z then 3%nat else 0%nat) /\
    total_files c = Z.of_nat (List.length new).
Proof.
  apply (unattended_run_fills_batches 3 10 2 "/app/data/raw" env_unattended world0).
  intros i. reflexivity.
Defined.

(** With a duration bound, the loop has stopped at the latest when the
    clock readings have passed the bound. *)
Lemma generator_loop_expires (batch_size d : Z) (output_dir : string)
    (start_time : Q) (env : Env) (T : nat) :
  (forall t, (T <= t)%nat -> (inject_Z d <= clock env t - start_time)%Q) ->
  forall (n : nat) (rl : RateLimiter) (c : Counters) (w : World),
    (T <= ticks w + n)%nat ->
    exists c' w',
      generator_loop (S n) batch_size (Some d) output_dir start_time rl c env w
        = (Ok (Stopped, c'), w').
Proof.
  intros Hlate.
  induction n as [|n IH]; intros rl c w HT.
  - destruct (shutdown_requested env (polls w)) eqn:F.
    { rewrite generator_loop_stop_flag by exact F. eauto. }
    rewrite generator_loop_stop_duration; [eauto | exact F |].
    cbn [duration_expired]. apply Qle_bool_iff. apply Hlate. lia.
  - destruct (shutdown_requested env (polls w)) eqn:F.
    { rewrite generator_loop_stop_flag by exact F. eauto. }
    destruct (duration_expired (Some d) start_time env w) eqn:D.
    { rewrite generator_loop_stop_duration by assumption. eauto. }
    destruct (generator_loop_turn (S n) batch_size (Some d) output_dir start_time
                rl c env w F D)
      as (rl' & new & w1 & Eloop & _ & _ & _ & _ & _ & Ht).
    rewrite Eloop. apply IH. lia.
Qed.

(** X4. A run with a duration bound ends: if from the T-th reading on
    the clock shows that the duration has elapsed since the start, the
    loop has stopped within T + 1 turns (or earlier, on a shutdown
    request). *)
Theorem bounded_duration_stops (events_per_second batch_size d : Z)
    (output_dir : string) (env : Env) (w : World) (T : nat) :
  (forall t, (T <= t)%nat ->
             (inject_Z d <= clock env t - clock env (ticks w + 2))%Q) ->
  exists c w',
    run_generator (S T) events_per_second batch_size (Some d) output_dir env w
      = (Ok (Stopped, c), w').
Proof.
  intros Hlate.
  destruct (run_generator_unfold (S T) events_per_second batch_size (Some d)
              output_dir env w) as (rl & w0 & Ht0 & _ & _ & _ & Erun).
  destruct (generator_loop_expires batch_size d output_dir
              (clock env (ticks w + 2)) env T Hlate T rl (mkCounters 0 0) w0
              ltac:(lia))
    as (c & w' & E).
  rewrite E in Erun. cbn [fst snd] in Erun. eauto.
Qed.

Lemma bounded_duration_stops_witness :
  exists c w',
    run_generator 5 10 2 (Some 2%Z) "/app/data/raw" env_unattended world0
      = (Ok (Stopped, c), w').
Proof.
  apply (bounded_duration_stops 10 2 2 "/app/data/raw" env_unattended world0 4).
  intros t Ht. cbn [env_unattended clock ticks world0 Nat.add].
  unfold Qminus. rewrite <- inject_Z_opp, <- inject_Z_plus, <- Zle_Qle. lia.
Defined.

(** ** Rate limiter and batch generation *)

(** X5. For a rate R >= 1, [wait] delays the caller in exactly one
    situation: R events have already been let through in the current
    window and the window has not yet elapsed; it then sleeps for what is
    left of the window and starts a new count at 1.  While fewer than R
    events were let through, or once the window has elapsed, it returns
    without sleeping. *)
Theorem wait_sleeps_only_at_limit (R : Z) (s : RateLimiter) (env : Env) (w : World) :
  (1 <= R)%Z -> limiter_reachable R s ->
  let now := clock env (ticks w) in
  exists s' w',
    wait s env w = (Ok s', w') /\
    ((events_this_second s < R)%Z \/ window_elapsed s now = true ->
     effects w' = effects w) /\
    (events_this_second s = R -> window_elapsed s now = false ->
     effects w' = effects w ++ [Slept (1 - (now - second_start s))%Q] /\
     (0 < 1 - (now - second_start s))%Q /\
     events_this_second s' = 1%Z).
Proof.
  intros HR Hreach now.
  destruct (reachable_counter R s Hreach) as (IR & I0 & IU). specialize (IU HR).
  destruct (wait_unfold s env w) as (s' & w' & E & _ & Hc & _ & _ & _ & Heff).
  fold now in Hc, Heff.
  exists s', w'. split; [exact E|]. split.
  - intros Hcase.
    assert (Hlim : limit_reached s now = false).
    { unfold limit_reached. rewrite IR. apply Z.leb_gt.
      destruct (window_elapsed s now); [lia|].
      destruct Hcase as [Hlt|Hel]; [lia | discriminate Hel]. }
    rewrite Hlim in Heff. rewrite Heff. apply app_nil_r.
  - intros Hfull Hwin.
    assert (Hlim : limit_reached s now = true).
    { unfold limit_reached. rewrite IR, Hwin. apply Z.leb_le. lia. }
    rewrite Hlim in Hc, Heff. rewrite Hwin in Heff.
    assert (Hpos : (0 < 1 - (now - second_start s))%Q).
    { unfold window_elapsed in Hwin.
      assert (~ (1 <= now - second_start s)%Q)
        by (intro Hle; apply Qle_bool_iff in Hle; congruence).
      lra. }
    assert (Hnb : negb (Qle_bool (1 - (now - second_start s)) 0) = true).
    { destruct (Qle_bool (1 - (now - second_start s)) 0) eqn:Hz; [|reflexivity].
      apply Qle_bool_iff in Hz. lra. }
    rewrite Hnb in Heff. repeat split; assumption.
Qed.

Lemma wait_sleeps_only_at_limit_witness :
  let now := clock env_example (ticks world_example) in
  exists s' w',
    wait (limiter_example 5) env_example world_example = (Ok s', w') /\
    ((events_this_second (limiter_example 5) < 5)%Z \/
     window_elapsed (limiter_example 5) now = true ->
     effects w' = effects world_example) /\
    (events_this_second (limiter_example 5) = 5%Z ->
     window_elapsed (limiter_example 5) now = false ->
     effects w' =
       effects world_example ++
       [Slept (1 - (now - second_start (limiter_example 5)))%Q] /\
     (0 < 1 - (now - second_start (limiter_example 5)))%Q /\
     events_this_second s' = 1%Z).
Proof.
  apply (wait_sleeps_only_at_limit 5 (limiter_example 5) env_example world_example).
  - lia.
  - apply (reach_init 5 env_example world0 world_example). reflexivity.
Defined.

Lemma generate_batch_loop_run (n : nat) (env : Env) :
  forall w : World,
  exists events,
    generate_batch_loop n env w =
      (Ok events,
       mkWorld (ticks w) (polls w) (drawn w + n) (files w) (effects w)) /\
    List.length events = n /\
    generated_from env (drawn w) events.
Proof.
  induction n as [|n IH]; intros w.
  - exists []. cbn. rewrite Nat.add_0_r. destruct w.
    repeat split. intros [|i] e; discriminate.
  - cbn [generate_batch_loop]. unfold bind at 1.
    destruct (generate_event_m_run env w) as (e & He & Eg). rewrite Eg.
    destruct (IH (mkWorld (ticks w) (polls w) (S (drawn w)) (files w) (effects w)))
      as (rest & Er & Hlen & Hg).
    cbn [ticks polls drawn files effects] in Er, Hg.
    unfold bind at 1. rewrite Er. unfold ret.
    exists (e :: rest).
    replace (drawn w + S n)%nat with (S (drawn w) + n)%nat by lia.
    split; [reflexivity|]. split; [cbn; lia|].
    apply generated_from_cons; assumption.
Qed.

(** X6. [generate_batch] never raises and returns exactly batch_size
    events (none when batch_size <= 0), the next batch_size events of the
    random source in order; it reads neither clock nor flag and writes
    nothing. *)
Theorem generate_batch_size (batch_size : Z) (env : Env) (w : World) :
  exists events,
    generate_batch batch_size env w =
      (Ok events,
       mkWorld (ticks w) (polls w) (drawn w + Z.to_nat batch_size)
               (files w) (effects w)) /\
    List.length events = Z.to_nat batch_size /\
    generated_from env (drawn w) events.
Proof.
  destruct (generate_batch_loop_run (Z.to_nat batch_size) env w)
    as (events & E & Hlen & Hg).
  exists events. unfold generate_batch. repeat split; assumption.
Qed.

(* ===================================================================== *)
(** * Part VII: further properties of the streaming job                  *)
(* ===================================================================== *)

(** ** The callback *)

(** The retry loop only appends, sleeps and logs errors; it makes at
    most one append per attempt. *)
Lemma write_attempts_frame (attempts : list Z) (final_df : DataFrame)
    (batch_id : Z) (env : JobEnv) :
  forall w : JobWorld,
  exists r w' added,
    write_attempts attempts final_df batch_id env w = (r, w') /\
    csv_writes w' = csv_writes w /\ loads w' = loads w /\
    (saves w <= saves w' <= saves w + List.length attempts)%nat /\
    journal w' = journal w ++ added /\
    Forall sink_entry added.
Proof.
  induction attempts as [|attempt rest IH]; intros w.
  - exists (Ok tt), w, []. cbn. rewrite app_nil_r. repeat split; try lia. constructor.
  - rewrite write_attempts_step. cbv zeta.
    destruct (jdbc_save env (saves w)) as [msg|];
      [destruct (is_duplicate_key msg);
       [|destruct (attempt <? MAX_RETRIES)%Z]|].
    + eexists (Ok tt), _, [JdbcSave "user_events" final_df].
      split; [reflexivity|]. cbn [saves csv_writes loads journal List.length].
      split; [reflexivity|]. split; [reflexivity|]. split; [lia|].
      split; [reflexivity|]. repeat constructor.
    + match goal with
      | |- context [write_attempts rest final_df batch_id env ?w1] =>
          destruct (IH w1) as (r & w' & added & E & Hc & Hl & Hs & Hj & Hf)
      end.
      cbn [saves csv_writes loads journal] in Hc, Hl, Hs, Hj.
      exists r, w', ([JdbcSave "user_events" final_df; Sleep RETRY_DELAY_SECONDS]
                     ++ added).
      split; [exact E|]. cbn [List.length].
      split; [exact Hc|]. split; [exact Hl|]. split; [lia|].
      split; [rewrite Hj, <- !app_assoc; reflexivity|].
      repeat constructor. exact Hf.
    + eexists (Exn msg), _,
        [JdbcSave "user_events" final_df;
         LogError ("Batch " ++ str_of_int batch_id
                   ++ ": All retry attempts failed!")%string].
      split; [reflexivity|]. cbn [saves csv_writes loads journal List.length].
      split; [reflexivity|]. split; [reflexivity|]. split; [lia|].
      split; [rewrite <- app_assoc; reflexivity|]. repeat constructor.
    + eexists (Ok tt), _, [JdbcSave "user_events" final_df].
      split; [reflexivity|]. cbn [saves csv_writes loads journal List.length].
      split; [reflexivity|]. split; [reflexivity|]. split; [lia|].
      split; [reflexivity|]. repeat constructor.
Qed.

(** X7. A batch without a single valid record (an empty batch
    included) never reaches the sink: the callback makes no JDBC append.
    It returns normally and leaves in the journal only the quarantine
    write of the invalid rows, if there are any; unless computing the
    is_valid flags raises, in which case the callback fails with that
    exception and has written nothing. *)
Theorem no_valid_record_skips_sink
    (parse_timestamp : string -> string -> Parse) (skips_operand : Row -> bool)
    (engine_rank : Row -> nat)
    (batch_df : DataFrame) (batch_id : Z) (env : JobEnv) (w : JobWorld) :
  fst (clean_and_validate_data parse_timestamp skips_operand batch_df) = [] ->
  exists r w',
    write_to_postgres_with_retry parse_timestamp skips_operand engine_rank
                                 batch_df batch_id env w = (r, w') /\
    saves w' = saves w /\
    match validation_error parse_timestamp skips_operand batch_df with
    | None =>
        r = Ok tt /\
        journal w' =
          journal w ++
          quarantine_entry env batch_id
            (snd (clean_and_validate_data parse_timestamp skips_operand batch_df))
    | Some msg => r = Exn msg /\ w' = w
    end.
Proof.
  intros Hnone. rewrite callback_unfold. cbv zeta. rewrite Hnone.
  destruct (validation_error parse_timestamp skips_operand batch_df) as [msg|].
  { exists (Exn msg), w. repeat split. }
  destruct (snd (clean_and_validate_data parse_timestamp skips_operand batch_df))
    as [|i0 rest].
  - exists (Ok tt), w. cbn. rewrite app_nil_r. repeat split.
  - eexists _, _. split; [reflexivity|]. cbn. repeat split.
Qed.

Lemma no_valid_record_skips_sink_witness :
  exists r w',
    write_to_postgres_with_retry strict_parse_timestamp short_circuit input_order
      (read_batch [ record_null_user ]) 7 env_sink_down job_world0 = (r, w') /\
    saves w' = saves job_world0 /\
    match validation_error strict_parse_timestamp short_circuit
            (read_batch [ record_null_user ]) with
    | None =>
        r = Ok tt /\
        journal w' =
          journal job_world0 ++
          quarantine_entry env_sink_down 7
            (snd (clean_and_validate_data strict_parse_timestamp short_circuit
                    (read_batch [ record_null_user ])))
    | Some msg => r = Exn msg /\ w' = job_world0
    end.
Proof.
  apply (no_valid_record_skips_sink strict_parse_timestamp short_circuit input_order
           (read_batch [ record_null_user ]) 7 env_sink_down job_world0).
  reflexivity.
Defined.

(** X8. For every batch and every behaviour of sink and file system,
    the callback either fails while counting the valid records, because
    computing the is_valid flags raises, and then has written nothing; or
    it writes the invalid rows to quarantine at most once, exactly when
    there are some, under the directory of the batch, and before the
    first append to the sink; after that it only appends, sleeps and
    logs, with at most three appends. *)
Theorem quarantine_precedes_sink
    (parse_timestamp : string -> string -> Parse) (skips_operand : Row -> bool)
    (engine_rank : Row -> nat)
    (batch_df : DataFrame) (batch_id : Z) (env : JobEnv) (w : JobWorld) :
  let invalid_df :=
    snd (clean_and_validate_data parse_timestamp skips_operand batch_df) in
  exists r w' sink,
    write_to_postgres_with_retry parse_timestamp skips_operand engine_rank
                                 batch_df batch_id env w = (r, w') /\
    Forall sink_entry sink /\
    (saves w' <= saves w + 3)%nat /\
    match validation_error parse_timestamp skips_operand batch_df with
    | None =>
        journal w' = journal w ++ quarantine_entry env batch_id invalid_df ++ sink /\
        csv_writes w' =
          (csv_writes w + List.length (quarantine_entry env batch_id invalid_df))%nat
    | Some msg => r = Exn msg /\ w' = w /\ sink = []
    end.
Proof.
  cbv zeta. rewrite callback_unfold. cbv zeta.
  destruct (validation_error parse_timestamp skips_operand batch_df) as [msg|].
  { exists (Exn msg), w, []. repeat split; [constructor | lia]. }
  set (invalid_df := snd (clean_and_validate_data parse_timestamp skips_operand batch_df)).
  set (w0 := match invalid_df with
             | [] => w
             | _ :: _ => mkJobWorld (saves w) (S (csv_writes w)) (loads w)
                           (journal w ++ quarantine_entry env batch_id invalid_df)
             end).
  assert (H0 : saves w0 = saves w /\
               csv_writes w0 =
                 (csv_writes w + List.length (quarantine_entry env batch_id invalid_df))%nat /\
               journal w0 = journal w ++ quarantine_entry env batch_id invalid_df).
  { unfold w0. destruct invalid_df; cbn; rewrite ?app_nil_r; repeat split; lia. }
  destruct H0 as (Hs0 & Hc0 & Hj0).
  destruct (fst (clean_and_validate_data parse_timestamp skips_operand batch_df))
    as [|v0 valid_df].
  - exists (Ok tt), w0, []. rewrite app_nil_r.
    split; [reflexivity|]. split; [constructor|]. split; [lia|].
    split; assumption.
  - destruct (write_attempts_frame (py_range 1 (MAX_RETRIES + 1))
                (prepare_for_postgres (deduplicate_events engine_rank (v0 :: valid_df)))
                batch_id env w0)
      as (r & w' & added & E & Hc & _ & Hs & Hj & Hf).
    exists r, w', added. split; [exact E|].
    rewrite default_attempts in Hs. cbn [List.length] in Hs.
    split; [exact Hf|]. split; [lia|].
    split; [rewrite Hj, Hj0, <- app_assoc; reflexivity | lia].
Qed.

(** The retry loop does not look at the CSV writer. *)
Lemma write_attempts_ignores_csv (attempts : list Z) (final_df : DataFrame)
    (batch_id : Z) (env : JobEnv) (csv : nat -> option string) :
  forall w : JobWorld,
    write_attempts attempts final_df batch_id (with_csv_save env csv) w =
    write_attempts attempts final_df batch_id env w.
Proof.
  induction attempts as [|attempt rest IH]; intros w; [reflexivity|].
  rewrite !write_attempts_step. cbv zeta. cbn [with_csv_save jdbc_save].
  destruct (jdbc_save env (saves w)) as [msg|]; [|reflexivity].
  destruct (is_duplicate_key msg); [reflexivity|].
  destruct (attempt <? MAX_RETRIES)%Z; [apply IH | reflexivity].
Qed.

(** X9. Quarantining is best effort: whether the CSV write of the
    invalid rows succeeds or fails makes no difference to the callback, to
    what it returns or raises and to what it sends to the sink. *)
Theorem quarantine_failure_is_harmless
    (parse_timestamp : string -> string -> Parse) (skips_operand : Row -> bool)
    (engine_rank : Row -> nat)
    (batch_df : DataFrame) (batch_id : Z) (env : JobEnv)
    (csv : nat -> option string) (w : JobWorld) :
  write_to_postgres_with_retry parse_timestamp skips_operand engine_rank
                               batch_df batch_id (with_csv_save env csv) w =
  write_to_postgres_with_retry parse_timestamp skips_operand engine_rank
                               batch_df batch_id env w.
Proof.
  rewrite !callback_unfold. cbv zeta.
  destruct (validation_error parse_timestamp skips_operand batch_df); [reflexivity|].
  destruct (fst (clean_and_validate_data parse_timestamp skips_operand batch_df));
    [reflexivity|].
  rewrite write_attempts_ignores_csv. reflexivity.
Qed.

(** ** Validation as a partition *)

Section PartitionFacts.

Variable parse_timestamp : string -> string -> Parse.
Variable skips_operand : Row -> bool.

Lemma classified_by_flag (e : CsvRecord) :
  classified_valid parse_timestamp skips_operand e =
    match is_valid_of parse_timestamp skips_operand e with
    | Flag true => true
    | _ => false
    end /\
  classified_invalid parse_timestamp skips_operand e =
    match is_valid_of parse_timestamp skips_operand e with
    | Flag false => true
    | _ => false
    end.
Proof.
  unfold classified_valid, classified_invalid.
  rewrite clean_and_validate_record. cbn [fst snd].
  destruct (is_valid_of parse_timestamp skips_operand e) as [| | | |[|]|];
    split; reflexivity.
Qed.

Lemma partition_counts (records : list CsvRecord) :
  (List.length (fst (clean_and_validate_data parse_timestamp skips_operand
                       (read_batch records))) +
   List.length (snd (clean_and_validate_data parse_timestamp skips_operand
                       (read_batch records))) +
   List.length (filter (fun e => unclassified
                                   (is_valid_of parse_timestamp skips_operand e))
                       records)
   = List.length records)%nat.
Proof.
  rewrite clean_and_validate_batch. cbn [fst snd].
  induction records as [|e records IH]; [reflexivity|].
  cbn [flat_map filter]. rewrite !length_app.
  destruct (is_valid_of parse_timestamp skips_operand e) as [| | | |[|]|];
    cbn [unclassified List.length app]; lia.
Qed.

(** The flag is a boolean, null, or an exception. *)
Lemma is_valid_of_shape (e : CsvRecord) :
  match is_valid_of parse_timestamp skips_operand e with
  | Null | Flag _ | Raised _ => True
  | _ => False
  end.
Proof.
  unfold is_valid_of.
  destruct (field_checks_flag parse_timestamp skips_operand e) as [-> | (b & ->)];
    destruct (not_null _) as [| | | |[|]|], (skips_operand _); try destruct b;
    exact I.
Qed.

(** The flag is null exactly when no test fails, the timestamp parses,
    and a test on a null event_type or a null price is involved. *)
Lemma is_valid_of_null (e : CsvRecord) :
  is_valid_of parse_timestamp skips_operand e = Null <->
  (raw_event_id e <> None /\ raw_user_id e <> None /\ raw_product_id e <> None /\
   (exists text instant,
       raw_timestamp e = Some text /\
       parse_timestamp text "yyyy-MM-dd HH:mm:ss" = Parsed instant) /\
   (forall t, raw_event_type e = Some t ->
              In (lower_string (trim_string t)) VALID_EVENT_TYPES) /\
   (forall p, raw_price e = Some p -> exceeds_zero p) /\
   (raw_event_type e = None \/ raw_price e = None)).
Proof.
  unfold is_valid_of, field_checks.
  generalize (skips_operand (invalid_row parse_timestamp e)). intros skips.
  destruct e as [o1 o2 o3 o4 o5 o6 o7 o8].
  cbn [raw_event_id raw_user_id raw_product_id raw_event_type raw_price raw_timestamp].
  assert (Hin : forall t, existsb (String.eqb (lower_string (trim_string t)))
                                  VALID_EVENT_TYPES = true <->
                          In (lower_string (trim_string t)) VALID_EVENT_TYPES).
  { intros t. rewrite existsb_exists. split.
    - intros (v & Hv & Heq). apply String.eqb_eq in Heq. subst v. exact Hv.
    - intros H. eexists. split; [exact H | apply String.eqb_refl]. }
  pose proof double_gt_zero as Hpos.
  destruct skips, o1 as [s1|], o2 as [s2|], o3 as [s3|], o7 as [t|], o6 as [p|],
    o8 as [text|];
    cbn [str_cell dbl_cell trim_cell lower_cell not_null isin_cell gt_cell parse_cell];
    try (destruct (parse_timestamp text "yyyy-MM-dd HH:mm:ss") as [i| |m] eqn:Ep);
    try (specialize (Hin t);
         destruct (existsb (String.eqb (lower_string (trim_string t))) VALID_EVENT_TYPES));
    try (specialize (Hpos p); destruct (double_gt p (Finite 0)));
    cbn [and_cell not_null];
    (split;
     [ try discriminate; intros _; repeat split; try congruence; eauto;
       try (intros ? [= <-]; tauto)
     | intros (H1 & H2 & H3 & (tx & ix & Hts & Hp) & Ht & Hpr & Hnull);
       try congruence; try reflexivity;
       try (specialize (Ht _ eq_refl)); try (specialize (Hpr _ eq_refl));
       try (destruct Hnull; congruence);
       try (exfalso; intuition congruence) ]).
Qed.

End PartitionFacts.

(** X10. Validation splits a batch without duplicating or inventing
    rows: no record is put into both outputs, and the rows of valid_df and
    invalid_df together with the records whose is_valid flag is neither
    true nor false (they appear in neither output) add up to the records
    of the batch. *)
Theorem validation_partitions_batch
    (parse_timestamp : string -> string -> Parse) (skips_operand : Row -> bool)
    (records : list CsvRecord) :
  let outputs :=
    clean_and_validate_data parse_timestamp skips_operand (read_batch records) in
  (List.length (fst outputs) + List.length (snd outputs) +
   List.length (filter (fun e => unclassified
                                   (is_valid_of parse_timestamp skips_operand e))
                       records)
   = List.length records)%nat /\
  Forall (fun e => classified_valid parse_timestamp skips_operand e &&
                   classified_invalid parse_timestamp skips_operand e = false)
         records.
Proof.
  cbv zeta. split; [apply partition_counts|].
  apply Forall_forall. intros e _.
  destruct (classified_by_flag parse_timestamp skips_operand e) as [-> ->].
  destruct (is_valid_of parse_timestamp skips_operand e) as [| | | |[|]|];
    reflexivity.
Qed.

(** X11. A record is silently lost, written neither to the sink nor to
    quarantine while the validation raises nothing, exactly when its
    three identifiers are present, its timestamp parses, its event_type
    is null or valid, its price is null or exceeds zero in the engine's
    ordering (a positive number, positive infinity or NaN), and at least
    one of event_type and price is null. *)
Theorem unclassified_records_are_lost
    (parse_timestamp : string -> string -> Parse) (skips_operand : Row -> bool)
    (e : CsvRecord) :
  (classified_valid parse_timestamp skips_operand e = false /\
   classified_invalid parse_timestamp skips_operand e = false /\
   validation_error parse_timestamp skips_operand (read_batch [e]) = None) <->
  (raw_event_id e <> None /\ raw_user_id e <> None /\ raw_product_id e <> None /\
   (exists text instant,
       raw_timestamp e = Some text /\
       parse_timestamp text "yyyy-MM-dd HH:mm:ss" = Parsed instant) /\
   (forall t, raw_event_type e = Some t ->
              In (lower_string (trim_string t)) [ "view"; "add_to_cart"; "purchase" ]) /\
   (forall p, raw_price e = Some p ->
              (exists x, p = Finite x /\ (0 < x)%Q) \/ p = PosInf \/ p = NaN) /\
   (raw_event_type e = None \/ raw_price e = None)).
Proof.
  rewrite <- (is_valid_of_null parse_timestamp skips_operand e).
  destruct (classified_by_flag parse_timestamp skips_operand e) as [-> ->].
  rewrite validation_error_batch. cbn [map].
  pose proof (is_valid_of_shape parse_timestamp skips_operand e) as Hshape.
  destruct (is_valid_of parse_timestamp skips_operand e) as [| | | |[|]|]; cbn;
    try contradiction;
    split; try tauto; try discriminate;
    intros (H1 & H2 & H3); discriminate.
Qed.

Lemma unclassified_records_are_lost_witness :
  classified_valid strict_parse_timestamp short_circuit record_null_price = false /\
  classified_invalid strict_parse_timestamp short_circuit record_null_price = false /\
  validation_error strict_parse_timestamp short_circuit
    (read_batch [ record_null_price ]) = None.
Proof.
  apply (proj2 (unclassified_records_are_lost strict_parse_timestamp short_circuit
                  record_null_price)).
  cbn [record_null_price raw_event_id raw_user_id raw_product_id raw_timestamp
       raw_event_type raw_price].
  repeat split; try discriminate.
  - eexists _, _. split; [reflexivity | vm_compute; reflexivity].
  - intros t [= <-]. vm_compute. tauto.
  - right. reflexivity.
Defined.

(** ** What reaches the sink *)

Section SinkRows.

Variable parse_timestamp : string -> string -> Parse.
Variable skips_operand : Row -> bool.

Lemma valid_row_ok (e : CsvRecord) :
  is_valid_of parse_timestamp skips_operand e = Flag true ->
  sink_row_ok (valid_row parse_timestamp e).
Proof.
  intros H. apply is_valid_of_true in H.
  destruct H as (H1 & H2 & H3 & (t & Ht & Hin) & (p & Hp & Hpos) & (text & i & Hts & Hparse)).
  destruct e as [o1 o2 o3 o4 o5 o6 o7 o8].
  cbn [raw_event_id raw_user_id raw_product_id raw_event_type raw_price raw_timestamp] in *.
  subst o7 o6 o8.
  destruct o1 as [s1|]; [|congruence].
  destruct o2 as [s2|]; [|congruence].
  destruct o3 as [s3|]; [|congruence].
  unfold sink_row_ok, valid_row, columns, col.
  cbn [raw_event_id raw_user_id raw_product_id raw_product_name raw_category
       raw_event_type raw_price raw_timestamp
       map fst find String.eqb Ascii.eqb Bool.eqb
       str_cell dbl_cell trim_cell lower_cell parse_cell].
  rewrite Hparse.
  repeat split; eauto.
Qed.

(** A valid row holds no cell whose evaluation raises. *)
Lemma valid_row_evaluated (e : CsvRecord) :
  is_valid_of parse_timestamp skips_operand e = Flag true ->
  forall msg, ~ In (Raised msg) (map snd (valid_row parse_timestamp e)).
Proof.
  intros H msg. apply is_valid_of_true in H.
  destruct H as (_ & _ & _ & _ & _ & (text & i & Hts & Hparse)).
  unfold valid_row. rewrite Hts. cbn [str_cell parse_cell]. rewrite Hparse.
  destruct (raw_event_id e), (raw_user_id e), (raw_product_id e),
    (raw_product_name e), (raw_category e), (raw_price e), (raw_event_type e);
    cbn; intros C; repeat (destruct C as [C|C]; [discriminate C|]); exact C.
Qed.

Lemma prepare_valid_row (e : CsvRecord) :
  prepare_for_postgres [ valid_row parse_timestamp e ] = [ valid_row parse_timestamp e ].
Proof. reflexivity. Qed.

Lemma valid_rows_shape (records : list CsvRecord) (r : Row) :
  In r (fst (clean_and_validate_data parse_timestamp skips_operand
               (read_batch records))) ->
  exists e, In e records /\
            is_valid_of parse_timestamp skips_operand e = Flag true /\
            r = valid_row parse_timestamp e.
Proof.
  rewrite clean_and_validate_batch. cbn [fst]. intros Hin.
  apply in_flat_map in Hin as (e & He & Hr).
  destruct (is_valid_of parse_timestamp skips_operand e) as [| | | |[|]|] eqn:F;
    try contradiction.
  destruct Hr as [<-|[]]. eauto.
Qed.

Lemma prepare_fixes (df : DataFrame) :
  (forall r, In r df -> exists e, r = valid_row parse_timestamp e) ->
  prepare_for_postgres df = df.
Proof.
  intros H. unfold prepare_for_postgres, select.
  rewrite <- (map_id df) at 2. apply map_ext_in.
  intros r Hr. destruct (H r Hr) as (e & ->). reflexivity.
Qed.

End SinkRows.

Lemma deduplicate_incl (engine_rank : Row -> nat) (df : DataFrame) (r : Row) :
  In r (deduplicate_events engine_rank df) -> In r df.
Proof.
  intros Hin.
  destruct (dropDuplicates_from_first [ "event_id" ] _ [] r Hin) as [_ Hfind].
  apply find_some in Hfind. apply (engine_order_In engine_rank). tauto.
Qed.

(** Every append of the retry loop sends the same DataFrame. *)
Lemma write_attempts_payload (attempts : list Z) (final_df : DataFrame)
    (batch_id : Z) (env : JobEnv) :
  forall (w : JobWorld) dbtable df,
    In (JdbcSave dbtable df)
       (journal (snd (write_attempts attempts final_df batch_id env w))) ->
    In (JdbcSave dbtable df) (journal w) \/
    (dbtable = "user_events" /\ df = final_df).
Proof.
  induction attempts as [|attempt rest IH]; intros w dbtable df; [cbn; tauto|].
  rewrite write_attempts_step. cbv zeta.
  assert (Hone : forall more,
             In (JdbcSave dbtable df)
                ((journal w ++ [JdbcSave "user_events" final_df]) ++ more) ->
             (forall x, In x more -> x <> JdbcSave dbtable df) ->
             In (JdbcSave dbtable df) (journal w) \/
             (dbtable = "user_events" /\ df = final_df)).
  { intros more Hin Hmore.
    apply in_app_or in Hin as [Hin|Hin]; [|exfalso; exact (Hmore _ Hin eq_refl)].
    apply in_app_or in Hin as [Hin|[[= <- <-]|[]]]; auto. }
  destruct (jdbc_save env (saves w)) as [msg|];
    [destruct (is_duplicate_key msg);
     [|destruct (attempt <? MAX_RETRIES)%Z]|];
    cbn [snd journal].
  - intros Hin. apply (Hone []); [rewrite app_nil_r; exact Hin | intros x []].
  - intros Hin. apply IH in Hin. cbn [journal] in Hin.
    destruct Hin as [Hin|Hin]; [|right; exact Hin].
    apply (Hone [Sleep RETRY_DELAY_SECONDS]); [exact Hin|].
    intros x [<-|[]]. discriminate.
  - intros Hin. apply (Hone [LogError ("Batch " ++ str_of_int batch_id
                                       ++ ": All retry attempts failed!")%string]);
      [exact Hin|].
    intros x [<-|[]]. discriminate.
  - intros Hin. apply (Hone []); [rewrite app_nil_r; exact Hin | intros x []].
Qed.

(** X12. Whatever the batch, whatever the engine's choices and whatever
    the sink does, every DataFrame the callback appends to the table is
    the prepared, deduplicated valid part of the batch, and each of its
    rows has the eight table columns, non-null event_id, user_id and
    product_id, an event_type that is one of view, add_to_cart, purchase
    in lower case, a price that exceeds zero in the engine's ordering (a
    positive number, positive infinity or NaN) and a parsed
    event_timestamp; no two of its rows share an event_id, and no cell of
    it is left whose evaluation could raise during the write. *)
Theorem sink_receives_well_formed_rows
    (parse_timestamp : string -> string -> Parse) (skips_operand : Row -> bool)
    (engine_rank : Row -> nat)
    (records : list CsvRecord) (batch_id : Z) (env : JobEnv) (w : JobWorld) :
  let valid_df :=
    fst (clean_and_validate_data parse_timestamp skips_operand (read_batch records)) in
  let final_df := prepare_for_postgres (deduplicate_events engine_rank valid_df) in
  let run := write_to_postgres_with_retry parse_timestamp skips_operand engine_rank
                                          (read_batch records) batch_id env w in
  Forall sink_row_ok final_df /\
  ForallOrdPairs (fun a b => same_event_id a b = false) final_df /\
  frame_error final_df = None /\
  Forall (fun e => match e with
                   | JdbcSave dbtable df =>
                       In e (journal w) \/ (dbtable = "user_events" /\ df = final_df)
                   | _ => True
                   end) (journal (snd run)).
Proof.
  cbv zeta.
  set (valid_df := fst (clean_and_validate_data parse_timestamp skips_operand
                          (read_batch records))).
  assert (Hshape : forall r, In r (deduplicate_events engine_rank valid_df) ->
                             exists e, is_valid_of parse_timestamp skips_operand e
                                       = Flag true /\
                                       r = valid_row parse_timestamp e).
  { intros r Hr. apply deduplicate_incl in Hr.
    destruct (valid_rows_shape parse_timestamp skips_operand records r Hr)
      as (e & _ & Hf & He). eauto. }
  assert (Hprep : prepare_for_postgres (deduplicate_events engine_rank valid_df)
                  = deduplicate_events engine_rank valid_df).
  { apply (prepare_fixes parse_timestamp). intros r Hr.
    destruct (Hshape r Hr) as (e & _ & He). eauto. }
  split; [|split; [|split]].
  - rewrite Hprep. apply Forall_forall. intros r Hr.
    destruct (Hshape r Hr) as (e & Hf & ->).
    apply (valid_row_ok parse_timestamp skips_operand). exact Hf.
  - rewrite Hprep. unfold same_event_id.
    apply (dropDuplicates_from_distinct [ "event_id" ] _ []).
  - rewrite Hprep. apply first_raised_none. intros msg Hin.
    apply in_flat_map in Hin as (r & Hr & Hin).
    destruct (Hshape r Hr) as (e & Hf & ->).
    exact (valid_row_evaluated parse_timestamp skips_operand e Hf msg Hin).
  - rewrite callback_unfold. cbv zeta. fold valid_df.
    destruct (validation_error parse_timestamp skips_operand (read_batch records)).
    { cbn [snd]. apply Forall_forall. intros e He.
      destruct e; try exact I. left. exact He. }
    set (invalid_df := snd (clean_and_validate_data parse_timestamp skips_operand
                              (read_batch records))).
    set (w0 := match invalid_df with
               | [] => w
               | _ :: _ => mkJobWorld (saves w) (S (csv_writes w)) (loads w)
                             (journal w ++ quarantine_entry env batch_id invalid_df)
               end).
    assert (H0 : forall dbtable df,
               In (JdbcSave dbtable df) (journal w0) ->
               In (JdbcSave dbtable df) (journal w)).
    { intros dbtable df. unfold w0. destruct invalid_df; [tauto|].
      cbn [journal quarantine_entry]. intros Hin.
      apply in_app_or in Hin as [Hin|[Hin|[]]]; [exact Hin | discriminate Hin]. }
    apply Forall_forall. intros e He.
    destruct e as [| dbtable df | | | | |]; try exact I.
    destruct valid_df as [|v0 rest] eqn:Hv.
    + left. apply H0. exact He.
    + apply write_attempts_payload in He.
      destruct He as [He|He]; [left; apply H0; exact He | right; exact He].
Qed.

(** X13. [prepare_for_postgres] changes nothing on the valid part of a
    batch, before or after deduplication: the rows of valid_df already have
    exactly the eight columns of the table, in table order. *)
Theorem prepare_keeps_valid_rows
    (parse_timestamp : string -> string -> Parse) (skips_operand : Row -> bool)
    (engine_rank : Row -> nat) (records : list CsvRecord) :
  let valid_df :=
    fst (clean_and_validate_data parse_timestamp skips_operand (read_batch records)) in
  prepare_for_postgres valid_df = valid_df /\
  prepare_for_postgres (deduplicate_events engine_rank valid_df)
    = deduplicate_events engine_rank valid_df /\
  Forall (fun r => columns r = table_columns) valid_df.
Proof.
  cbv zeta. split; [|split].
  - apply (prepare_fixes parse_timestamp). intros r Hr.
    destruct (valid_rows_shape parse_timestamp skips_operand records r Hr)
      as (e & _ & _ & He). eauto.
  - apply (prepare_fixes parse_timestamp). intros r Hr.
    apply deduplicate_incl in Hr.
    destruct (valid_rows_shape parse_timestamp skips_operand records r Hr)
      as (e & _ & _ & He). eauto.
  - apply Forall_forall. intros r Hr.
    destruct (valid_rows_shape parse_timestamp skips_operand records r Hr)
      as (e & _ & _ & ->).
    reflexivity.
Qed.

(** ** Deduplication, continued *)

Section DropDuplicatesFacts.

Variable subset : list string.

Lemma dropDuplicates_from_fixed (l : DataFrame) :
  forall seen,
    ForallOrdPairs (fun a b => same_key subset a b = false) l ->
    (forall r, In r l -> existsb (same_key subset r) seen = false) ->
    dropDuplicates_from seen subset l = l.
Proof.
  induction l as [|r rest IH]; intros seen Hd Hnew; [reflexivity|].
  cbn [dropDuplicates_from]. rewrite (Hnew r (or_introl eq_refl)).
  inversion Hd as [|a l' Hr Hrest]; subst.
  f_equal. apply IH; [exact Hrest|].
  intros x Hx. cbn [existsb].
  rewrite (Hnew x (or_intror Hx)), orb_false_r.
  rewrite Forall_forall in Hr. rewrite same_key_sym. exact (Hr x Hx).
Qed.

Lemma dropDuplicates_from_subsequence (l : DataFrame) :
  forall seen, subsequence (dropDuplicates_from seen subset l) l.
Proof.
  induction l as [|r rest IH]; intros seen; cbn [dropDuplicates_from].
  - constructor.
  - destruct (existsb (same_key subset r) seen); constructor; apply IH.
Qed.

Lemma distinct_keys_perm (l l' : DataFrame) :
  Permutation l l' ->
  ForallOrdPairs (fun a b => same_key subset a b = false) l ->
  ForallOrdPairs (fun a b => same_key subset a b = false) l'.
Proof.
  apply pairwise_perm. intros a b H. rewrite same_key_sym. exact H.
Qed.

End DropDuplicatesFacts.

(** A batch without duplicates comes back as the engine met it. *)
Lemma deduplicate_distinct (engine_rank : Row -> nat) (df : DataFrame) :
  ForallOrdPairs (fun a b => same_event_id a b = false) df ->
  deduplicate_events engine_rank df = engine_order engine_rank df.
Proof.
  intros H. unfold deduplicate_events, dropDuplicates.
  apply dropDuplicates_from_fixed; [|intros r _; reflexivity].
  apply (distinct_keys_perm _ df); [|exact H].
  symmetry. apply engine_order_perm.
Qed.

(** X14. Deduplicating twice changes nothing but, possibly, the order
    of the rows: the second result is a rearrangement of the first,
    whatever the engine's choices in the two runs.  The result of a
    deduplication is the input with some rows left out, rearranged: no
    row is altered or added, and every row left out shares its event_id
    with a row that is kept. *)
Theorem deduplicate_idempotent (engine_rank engine_rank' : Row -> nat)
    (df : DataFrame) :
  let out := deduplicate_events engine_rank df in
  Permutation (deduplicate_events engine_rank' out) out /\
  exists dropped,
    Permutation df (out ++ dropped) /\
    Forall (fun r => exists kept, In kept out /\ same_event_id kept r = true)
           dropped.
Proof.
  cbv zeta. split.
  - rewrite deduplicate_distinct; [apply engine_order_perm|].
    unfold deduplicate_events, dropDuplicates, same_event_id.
    apply dropDuplicates_from_distinct.
  - unfold deduplicate_events, dropDuplicates, same_event_id.
    destruct (subsequence_perm _ _
                (dropDuplicates_from_subsequence [ "event_id" ]
                   (engine_order engine_rank df) [])) as [dropped H].
    exists dropped. split.
    + rewrite <- H. symmetry. apply engine_order_perm.
    + apply Forall_forall. intros r Hr.
      assert (Hin : In r (engine_order engine_rank df)).
      { apply (Permutation_in r (symmetry H)). apply in_or_app. right. exact Hr. }
      destruct (dropDuplicates_from_complete [ "event_id" ] _ [] r Hin)
        as [Hseen | (kept & Hk & Hkr)]; [discriminate Hseen|].
      exists kept. split; assumption.
Qed.

(** X15. [deduplicate_events] returns all the rows of a batch, in the
    order the engine met them, if and only if no two rows of the batch
    share an event_id. *)
Theorem deduplicate_unchanged_iff_distinct (engine_rank : Row -> nat)
    (df : DataFrame) :
  (Permutation (deduplicate_events engine_rank df) df <->
   ForallOrdPairs (fun a b => same_event_id a b = false) df) /\
  (ForallOrdPairs (fun a b => same_event_id a b = false) df ->
   deduplicate_events engine_rank df = engine_order engine_rank df).
Proof.
  split; [split|].
  - intros H. unfold same_event_id.
    apply (distinct_keys_perm _ (deduplicate_events engine_rank df)); [exact H|].
    unfold deduplicate_events, dropDuplicates. apply dropDuplicates_from_distinct.
  - intros H. rewrite (deduplicate_distinct engine_rank df H).
    apply engine_order_perm.
  - apply deduplicate_distinct.
Qed.

Lemma deduplicate_unchanged_iff_distinct_witness :
  deduplicate_events rank_e1_first [ row_e2; row_e1_first ]
  = engine_order rank_e1_first [ row_e2; row_e1_first ].
Proof.
  apply (proj2 (deduplicate_unchanged_iff_distinct rank_e1_first
                  [ row_e2; row_e1_first ])).
  repeat constructor.
Defined.

(** ** Start-up, continued *)

(** The polling loop stops at the first connection test that succeeds. *)
Lemma poll_postgres_first_success (attempts : list Z) (delay : Z) (env : JobEnv) :
  forall (w : JobWorld) (k : nat),
    (k < List.length attempts)%nat ->
    (forall i, (i < k)%nat -> jdbc_load env (loads w + i) <> None) ->
    jdbc_load env (loads w + k) = None ->
    poll_postgres attempts delay env w =
    (Ok true,
     mkJobWorld (saves w) (csv_writes w) (loads w + S k)
                (journal w ++
                 flat_map (failed_poll env delay) (seq (loads w) k) ++
                 [JdbcLoad "SELECT 1 as test"])).
Proof.
  induction attempts as [|attempt rest IH]; intros w k Hk Hfail Hok;
    [cbn in Hk; lia|].
  cbn [poll_postgres]. unfold bind at 1. rewrite test_postgres_connection_run.
  destruct k as [|k].
  - rewrite Nat.add_0_r in Hok. rewrite Hok. unfold ret.
    rewrite Nat.add_1_r. reflexivity.
  - pose proof (Hfail 0%nat ltac:(lia)) as H0. rewrite Nat.add_0_r in H0.
    destruct (jdbc_load env (loads w)) as [e|] eqn:E0; [|congruence].
    unfold bind at 1. unfold sleep, emit at 1. cbn [saves csv_writes loads journal].
    rewrite (IH _ k).
    + cbn [saves csv_writes loads journal seq flat_map].
      unfold failed_poll at 2. rewrite E0.
      rewrite !Nat.add_succ_r, <- !app_assoc. reflexivity.
    + cbn [List.length] in Hk. lia.
    + intros i Hi. cbn [loads].
      replace (S (loads w) + i)%nat with (loads w + S i)%nat by lia.
      apply Hfail. lia.
    + cbn [loads]. replace (S (loads w) + k)%nat with (loads w + S k)%nat by lia.
      exact Hok.
Qed.

(** The default polling of [main], up to its first successful test. *)
Lemma polling_ok_run (env : JobEnv) (w : JobWorld) (k : nat) :
  (k < 30)%nat ->
  (forall i, (i < k)%nat -> jdbc_load env (loads w + i) <> None) ->
  jdbc_load env (loads w + k) = None ->
  wait_for_postgres 30 5 env w =
  (Ok true,
   mkJobWorld (saves w) (csv_writes w) (loads w + S k)
              (journal w ++
               flat_map (failed_poll env 5) (seq (loads w) k) ++
               [JdbcLoad "SELECT 1 as test"])).
Proof.
  intros Hk Hfail Hok. unfold wait_for_postgres.
  apply poll_postgres_first_success; assumption.
Qed.

(** X16. When the first k connection tests fail and the next one
    succeeds, with k < max_retries, [wait_for_postgres] returns True after
    exactly k + 1 tests and k sleeps of the given delay, and tests no
    further. *)
Theorem polling_stops_at_first_success (max_retries delay : Z) (env : JobEnv)
    (w : JobWorld) (k : nat) :
  (k < Z.to_nat max_retries)%nat ->
  (forall i, (i < k)%nat -> jdbc_load env (loads w + i) <> None) ->
  jdbc_load env (loads w + k) = None ->
  wait_for_postgres max_retries delay env w =
  (Ok true,
   mkJobWorld (saves w) (csv_writes w) (loads w + S k)
              (journal w ++
               flat_map (failed_poll env delay) (seq (loads w) k) ++
               [JdbcLoad "SELECT 1 as test"])).
Proof.
  intros Hk Hfail Hok. unfold wait_for_postgres.
  apply poll_postgres_first_success; try assumption.
  rewrite py_range_length. lia.
Qed.

Lemma polling_stops_at_first_success_witness :
  wait_for_postgres 30 5 env_db_late job_world0 =
  (Ok true,
   mkJobWorld (saves job_world0) (csv_writes job_world0) (loads job_world0 + 3)
              (journal job_world0 ++
               flat_map (failed_poll env_db_late 5) (seq (loads job_world0) 2) ++
               [JdbcLoad "SELECT 1 as test"])).
Proof.
  apply (polling_stops_at_first_success 30 5 env_db_late job_world0 2).
  - vm_compute. lia.
  - intros [|[|i]] Hi; try discriminate. lia.
  - reflexivity.
Defined.

(** X17. When one of the first 30 connection tests succeeds, [main]
    starts the streaming job right after it, exactly once.  If the query
    ends normally [main] returns; if it fails, [main] logs the failure and
    raises the same error.  Either way the Spark session is stopped
    last. *)
Theorem main_runs_the_stream (env : JobEnv) (w : JobWorld) (k : nat) :
  (k < 30)%nat ->
  (forall i, (i < k)%nat -> jdbc_load env (loads w + i) <> None) ->
  jdbc_load env (loads w + k) = None ->
  main env w =
  (match await_termination env with
   | None => Ok tt
   | Some e => Exn e
   end,
   mkJobWorld (saves w) (csv_writes w) (loads w + S k)
              (journal w ++
               flat_map (failed_poll env 5) (seq (loads w) k) ++
               [JdbcLoad "SELECT 1 as test"; StreamStart] ++
               match await_termination env with
               | None => []
               | Some e => [LogError ("Streaming job failed: " ++ e)%string]
               end ++
               [SparkStop])).
Proof.
  intros Hk Hfail Hok.
  unfold main, try_finally, try_except. unfold bind at 1.
  rewrite (polling_ok_run env w k Hk Hfail Hok).
  cbn [negb]. unfold start_streaming_job, emit.
  cbn [saves csv_writes loads journal].
  destruct (await_termination env) as [e|].
  - unfold bind, logger_error, emit, raise.
    cbn [saves csv_writes loads journal].
    rewrite <- !app_assoc. reflexivity.
  - cbn [saves csv_writes loads journal].
    rewrite <- !app_assoc. reflexivity.
Qed.

Lemma main_runs_the_stream_witness :
  main env_db_late job_world0 =
  (match await_termination env_db_late with
   | None => Ok tt
   | Some e => Exn e
   end,
   mkJobWorld (saves job_world0) (csv_writes job_world0) (loads job_world0 + 3)
              (journal job_world0 ++
               flat_map (failed_poll env_db_late 5) (seq (loads job_world0) 2) ++
               [JdbcLoad "SELECT 1 as test"; StreamStart] ++
               match await_termination env_db_late with
               | None => []
               | Some e => [LogError ("Streaming job failed: " ++ e)%string]
               end ++
               [SparkStop])).
Proof.
  apply (main_runs_the_stream env_db_late job_world0 2).
  - lia.
  - intros [|[|i]] Hi; try discriminate. lia.
  - reflexivity.
Defined.

(** X18. With max_retries <= 0, [wait_for_postgres] gives up at once:
    it returns False and logs the error without testing the connection
    or sleeping, whether or not the database is available. *)
Theorem polling_without_attempts (max_retries delay : Z) (env : JobEnv) (w : JobWorld) :
  (max_retries <= 0)%Z ->
  wait_for_postgres max_retries delay env w =
  (Ok false,
   mkJobWorld (saves w) (csv_writes w) (loads w)
              (journal w ++ [LogError "PostgreSQL did not become available in time!"])).
Proof.
  intros Hneg. unfold wait_for_postgres, py_range.
  replace (Z.to_nat (max_retries + 1 - 1)) with 0%nat by lia.
  reflexivity.
Qed.

Lemma polling_without_attempts_witness :
  wait_for_postgres 0 5 env_db_late job_world0 =
  (Ok false,
   mkJobWorld (saves job_world0) (csv_writes job_world0) (loads job_world0)
              (journal job_world0 ++
               [LogError "PostgreSQL did not become available in time!"])).
Proof.
  apply (polling_without_attempts 0 5 env_db_late job_world0). lia.
Defined.

(** ** Quarantine directories *)

Lemma str_of_int_inj (a b : Z) : str_of_int a = str_of_int b -> a = b.
Proof.
  unfold str_of_int. intros H.
  assert (Hnil : forall z, Z.to_int z <> Decimal.Pos Decimal.Nil /\
                           Z.to_int z <> Decimal.Neg Decimal.Nil).
  { intros z. split; intros Hz.
    - pose proof (DecimalZ.of_to z) as Hoz. rewrite Hz in Hoz. cbn in Hoz.
      subst z. discriminate Hz.
    - pose proof (DecimalZ.of_to z) as Hoz. rewrite Hz in Hoz. cbn in Hoz.
      subst z. discriminate Hz. }
  assert (Hab : Some (Z.to_int a) = Some (Z.to_int b)).
  { rewrite <- (NilZero.isi (Z.to_int a)) by apply Hnil.
    rewrite <- (NilZero.isi (Z.to_int b)) by apply Hnil.
    rewrite H. reflexivity. }
  injection Hab as Hab.
  rewrite <- (DecimalZ.of_to a), <- (DecimalZ.of_to b), Hab. reflexivity.
Qed.

Lemma append_inj_l (s a b : string) : (s ++ a = s ++ b)%string -> a = b.
Proof.
  induction s as [|c s IH]; cbn; [tauto|]. intros [= H]. exact (IH H).
Qed.

(** X19. [write_errors] writes the invalid rows of a batch under a
    directory determined by the batch id alone: two batches get the same
    quarantine directory if and only if they have the same id, so a
    re-run of a batch overwrites its own output and never that of another
    batch. *)
Theorem quarantine_directory_per_batch (env : JobEnv) (invalid_df : DataFrame)
    (id1 id2 : Z) (w : JobWorld) :
  journal (snd (write_errors invalid_df id1 env w)) =
    journal w ++ [ CsvSave (quarantine_path env id1) invalid_df ] /\
  (quarantine_path env id1 = quarantine_path env id2 <-> id1 = id2).
Proof.
  split; [rewrite write_errors_run; reflexivity|].
  split; [|intros ->; reflexivity].
  unfold quarantine_path. intros H.
  apply append_inj_l in H. apply append_inj_l in H.
  apply str_of_int_inj. exact H.
Qed.

(** ** From producer to validator *)

Lemma csv_field_some (s : string) : s <> "" -> csv_field s = Some s.
Proof.
  intros H. unfold csv_field. destruct (String.eqb_spec s ""); [contradiction|reflexivity].
Qed.

Lemma kinds_are_canonical (k : string) :
  In k KINDS -> csv_field k = Some k /\ lower_string (trim_string k) = k.
Proof.
  intros [<-|[<-|[<-|[]]]]; split; reflexivity.
Qed.

(** X20. Every event the generator produces passes the validation of
    the streaming job once written to a batch file and read back: for any
    random draws, provided the event id is not empty and the timestamp
    text is one the engine's parser accepts for yyyy-MM-dd HH:mm:ss, the
    record of the generated event is classified valid. *)
Theorem generated_events_pass_validation
    (parse_timestamp : string -> string -> Parse) (skips_operand : Row -> bool)
    (d : Draws) (instant : Instant) :
  (0 <= d_uniform d)%Q -> (d_uniform d < 1)%Q ->
  d_event_id d <> "" -> d_now d <> "" ->
  parse_timestamp (d_now d) "yyyy-MM-dd HH:mm:ss" = Parsed instant ->
  exists e,
    generate_event d = Some e /\
    classified_valid parse_timestamp skips_operand (record_of_event e) = true.
Proof.
  intros H0 H1 Hid Hnow Hparse.
  destruct (select_product_spec d H0 H1)
    as (cat & products & name & lo & hi & _ & _ & Hsel & Hpos & Hlo & _).
  unfold generate_event. rewrite Hsel.
  eexists. split; [reflexivity|].
  destruct (classified_by_flag parse_timestamp skips_operand
              (record_of_event
                 {| event_id := d_event_id d;
                    user_id := generate_user_id d;
                    product_id := generate_product_id d;
                    product_name := name;
                    category := cat;
                    price := py_round2 (random_uniform lo hi (d_uniform d));
                    event_type := select_event_type (d_rand d);
                    timestamp := d_now d |})) as [-> _].
  match goal with
  | |- match ?F with _ => _ end = true =>
      assert (HF : F = Flag true); [|rewrite HF; reflexivity]
  end.
  apply is_valid_of_true.
  destruct (kinds_are_canonical _ (select_event_type_kind (d_rand d))) as [Hk1 Hk2].
  unfold record_of_event.
  cbn [raw_event_id raw_user_id raw_product_id raw_event_type raw_price raw_timestamp
       event_id user_id product_id event_type price timestamp].
  rewrite (csv_field_some _ Hid), (csv_field_some _ Hnow), Hk1.
  split; [discriminate|]. split; [cbn; discriminate|]. split; [cbn; discriminate|].
  split; [eexists; split; [reflexivity|]; rewrite Hk2; apply select_event_type_kind|].
  split; [eexists; split; [reflexivity|]; left; eexists; split; [reflexivity | lra]|].
  eauto.
Qed.

Lemma generated_events_pass_validation_witness :
  exists e,
    generate_event draws_example = Some e /\
    classified_valid strict_parse_timestamp short_circuit (record_of_event e) = true.
Proof.
  apply (generated_events_pass_validation strict_parse_timestamp short_circuit
           draws_example (mkInstant 2024 1 15 10 30 0)).
  - vm_compute. discriminate.
  - vm_compute. reflexivity.
  - discriminate.
  - discriminate.
  - vm_compute. reflexivity.
Defined.
